(** * cvat-utils: the task loader and the image downloader of [cvat_utils/core.py]

    The development embeds [image_path_to_image_id], [load_task_data] and
    [download_images] and settles the properties its specification states
    about them.

    - Python [int] is unbounded: it is [Z].
    - Python [str] is [string]; [str.split], [str.join] and slicing are
      written out in [PyStr].
    - [AssertionError] and the other exceptions are values of [exn], carried
      by the error monad [result].
    - The frame dictionary keeps Python's insertion order, which the final
      validation loop follows: it is an association list.
    - [download_images] talks to the server and the file system and loops
      without bound: it is an interaction tree over the events [ioE], run
      against a scripted world. *)

From Stdlib Require Import ZArith List String Ascii Bool Lia Arith FinFun.
From Stdlib Require Import DecimalString.
From Stdlib Require Import Floats.
From ITree Require Import ITree.
Import ListNotations.
Import ITreeNotations.

Local Open Scope string_scope.
Local Open Scope list_scope.
Local Open Scope Z_scope.

(* ===================================================================== *)
(** ** Python strings *)
(* ===================================================================== *)

Module PyStr.

(** [s.split(sep)] for a one-character separator: the pieces between the
    occurrences of [sep]; never empty ([''.split('.') == ['']]). *)
Fixpoint split (sep : ascii) (s : string) : list string :=
  match s with
  | EmptyString => [EmptyString]
  | String c rest =>
      if Ascii.eqb c sep then EmptyString :: split sep rest
      else match split sep rest with
           | [] => [String c EmptyString]
           | piece :: pieces => String c piece :: pieces
           end
  end.

(** [sep.join(pieces)]. *)
Definition join (sep : string) (pieces : list string) : string :=
  String.concat sep pieces.

(** [xs[:-1]]: every element but the last ([[][:-1] == []]). *)
Definition but_last {A} (xs : list A) : list A := removelast xs.

(** [xs[-1]] raises [IndexError] on an empty list. *)
Definition last_item {A} (xs : list A) : option A :=
  match rev xs with
  | [] => None
  | x :: _ => Some x
  end.

(** [c in s]. *)
Fixpoint contains (c : ascii) (s : string) : bool :=
  match s with
  | EmptyString => false
  | String d rest => Ascii.eqb d c || contains c rest
  end.

(** [str(n)] for an [int]. *)
Definition str_of_int (n : Z) : string := NilZero.string_of_int (Z.to_int n).

(** [str(n)] for a length. *)
Definition str_of_len (n : nat) : string := str_of_int (Z.of_nat n).

(** [s.startswith(c)] for one character. *)
Definition starts_with_char (c : ascii) (s : string) : bool :=
  match s with
  | String d _ => Ascii.eqb d c
  | EmptyString => false
  end.

(** [s.endswith(c)] for one character. *)
Fixpoint ends_with_char (c : ascii) (s : string) : bool :=
  match s with
  | EmptyString => false
  | String d EmptyString => Ascii.eqb d c
  | String _ rest => ends_with_char c rest
  end.

(** [os.path.join(a, b)] of [posixpath], for two components. *)
Definition path_join (a b : string) : string :=
  if starts_with_char "/" b then b
  else if (String.eqb a "" || ends_with_char "/" a)%bool then a ++ b
  else a ++ "/" ++ b.

End PyStr.

(* ===================================================================== *)
(** ** Exceptions and the error monad *)
(* ===================================================================== *)

(** The exceptions the two functions can raise, each with the datum that
    identifies it rather than with its message: the message of an
    [AssertionError], the key a [KeyError] reports, the text a [ValueError]
    rejects, the status of an [HTTPError], the path of a file-system
    error. [OtherError] is any other exception a library call raises and the
    functions pass on, by the name of its class. *)
Inductive exn : Type :=
| AssertionError (msg : string)
| KeyError (key : string)
| ValueError (text : string)
| HTTPError (status : Z)
| FileExistsError (path : string)
| FileNotFoundError (path : string)
| BadZipFile
| OtherError (class_name : string).

Inductive result (A : Type) : Type :=
| Ok (a : A)
| Raise (e : exn).
Arguments Ok {A} a.
Arguments Raise {A} e.

Definition rbind {A B} (m : result A) (k : A -> result B) : result B :=
  match m with
  | Ok a => k a
  | Raise e => Raise e
  end.

Declare Scope result_scope.
Delimit Scope result_scope with result.
Notation "x <- m ;;; k" := (rbind m (fun x => k))
  (at level 61, m at next level, right associativity) : result_scope.
Notation "m ;;; k" := (rbind m (fun _ => k))
  (at level 61, right associativity) : result_scope.

(** [assert cond, msg]. *)
Definition assert_ (cond : bool) (msg : string) : result unit :=
  if cond then Ok tt else Raise (AssertionError msg).

(** [for x in xs: s = body(x, s)], stopping at the first exception. *)
Fixpoint for_each {A S} (xs : list A) (body : A -> S -> result S) (s : S)
  : result S :=
  match xs with
  | [] => Ok s
  | x :: rest => rbind (body x s) (for_each rest body)
  end.

(** [range(lo, hi)]. *)
Definition range (lo hi : Z) : list Z :=
  map (fun i => lo + Z.of_nat i) (seq 0 (Z.to_nat (hi - lo))).

(* ===================================================================== *)
(** ** The records of [cvat_utils.models] *)
(* ===================================================================== *)

Module Models.

(** Modelled from the spec: the job descriptor nested in a segment
    ([cvat_utils.models] is not part of the sources): id, status and url. *)
Record JobDescriptor : Type := mkJobDescriptor {
  jd_id : Z;
  jd_status : string;
  jd_url : string
}.

(** Modelled from the spec: a segment of a task, its inclusive frame bounds
    and its jobs. *)
Record Segment : Type := mkSegment {
  seg_start_frame : Z;
  seg_stop_frame : Z;
  seg_jobs : list JobDescriptor
}.

(** Modelled from the spec: [FullTask], the task record; only the fields
    [load_task_data] reads. *)
Record FullTask : Type := mkFullTask {
  ft_name : string;
  ft_segments : list Segment
}.

(** Modelled from the spec: a per-frame descriptor of the task metadata. *)
Record FrameMeta : Type := mkFrameMeta {
  fm_name : string;
  fm_width : Z;
  fm_height : Z
}.

(** Modelled from the spec: [FullTaskMetadata], the inclusive frame range of
    the task and its ordered frame descriptors. *)
Record FullTaskMetadata : Type := mkFullTaskMetadata {
  tm_start_frame : Z;
  tm_stop_frame : Z;
  tm_frames : list FrameMeta
}.

(** Modelled from the spec: [Job], a job descriptor with the frame bounds of
    its segment attached. *)
Record Job : Type := mkJob {
  id : Z;
  status : string;
  url : string;
  start_frame : Z;
  stop_frame : Z
}.

(** Modelled from the spec: [Frame], an entry of the frame index; [job_id]
    and [frame_status] are [None] until a job is assigned. *)
Record Frame : Type := mkFrame {
  image_id : string;
  frame_id : Z;
  file_name : string;
  width : Z;
  height : Z;
  task_id : Z;
  task_name : string;
  job_id : option Z;
  frame_status : option string
}.

End Models.
Import Models.

(* ===================================================================== *)
(** ** The frame dictionary *)
(* ===================================================================== *)

(** [Dict[int, Frame]] in insertion order. *)
Definition FrameIndex : Type := list (Z * Frame).

Module Dict.

(** [list(frames.keys())]. *)
Definition keys (frames : FrameIndex) : list Z := map fst frames.

(** [frames.get(k)]. *)
Fixpoint get (k : Z) (frames : FrameIndex) : option Frame :=
  match frames with
  | [] => None
  | (k', v) :: rest => if Z.eqb k' k then Some v else get k rest
  end.

(** [k in frames]. *)
Definition mem (k : Z) (frames : FrameIndex) : bool :=
  match get k frames with
  | Some _ => true
  | None => false
  end.

(** [{k: v for k, v in items}]: a later item replaces the value of an equal
    earlier key and keeps the position of the first insertion. *)
Fixpoint set_item (k : Z) (v : Frame) (frames : FrameIndex) : FrameIndex :=
  match frames with
  | [] => [(k, v)]
  | (k', v') :: rest =>
      if Z.eqb k' k then (k', v) :: rest else (k', v') :: set_item k v rest
  end.

Definition of_items (items : list (Z * Frame)) : FrameIndex :=
  fold_left (fun d kv => set_item (fst kv) (snd kv) d) items [].

(** [frames[k].job_id = j; frames[k].status = s]: the object stored under
    [k] is mutated in place; the dictionary keeps its keys and their order. *)
Fixpoint assign (k : Z) (j : Z) (s : string) (frames : FrameIndex)
  : FrameIndex :=
  match frames with
  | [] => []
  | (k', v) :: rest =>
      if Z.eqb k' k then
        (k', mkFrame (image_id v) (frame_id v) (file_name v) (width v)
                     (height v) (task_id v) (task_name v) (Some j) (Some s))
        :: rest
      else (k', v) :: assign k j s rest
  end.

End Dict.

(* ===================================================================== *)
(** ** [image_path_to_image_id] and [load_task_data] *)
(* ===================================================================== *)

(** [".".join(image_path.split(".")[:-1])]. *)
Definition image_path_to_image_id (image_path : string) : string :=
  PyStr.join "." (PyStr.but_last (PyStr.split "." image_path)).

(** [x.name.split("/")[-1]]; [split] never returns an empty list, so the
    [IndexError] branch is dead (lemma [split_last_some]). *)
Definition path_file_name (name : string) : string :=
  match PyStr.last_item (PyStr.split "/" name) with
  | Some s => s
  | None => EmptyString
  end.

Definition multi_job_msg : string :=
  "Unexpected CVAT data: one segment has multiple jobs.".

Definition missing_frame_msg (job : Z) (frame : Z) : string :=
  "Unexpected CVAT data: job (" ++ PyStr.str_of_int job
  ++ ") is missing a frame (" ++ PyStr.str_of_int frame ++ ").".

Definition missing_job_msg (frame : Z) : string :=
  "Unexpected CVAT data: frame (" ++ PyStr.str_of_int frame
  ++ ") is missing job id.".

(** The list comprehension over segments and their jobs. *)
Definition derive_jobs (task : FullTask) : list Job :=
  flat_map
    (fun segment =>
       map (fun job =>
              mkJob (jd_id job) (jd_status job) (jd_url job)
                    (seg_start_frame segment) (seg_stop_frame segment))
           (seg_jobs segment))
    (ft_segments task).

(** [Frame(id=..., frame_id=..., file_name=..., ...)]: the job fields keep
    their default [None]. *)
Definition make_frame (task_id : Z) (task : FullTask) (frame_id : Z)
    (x : FrameMeta) : Frame :=
  mkFrame (image_path_to_image_id (fm_name x)) frame_id
          (path_file_name (fm_name x)) (fm_width x) (fm_height x)
          task_id (ft_name task) None None.

(** The dictionary comprehension over [zip(frame_ids_range, meta.frames)]. *)
Definition build_frames (task_id : Z) (task : FullTask)
    (meta : FullTaskMetadata) : FrameIndex :=
  let frame_ids_range := range (tm_start_frame meta) (tm_stop_frame meta + 1) in
  Dict.of_items
    (map (fun p : Z * FrameMeta =>
            (fst p, make_frame task_id task (fst p) (snd p)))
         (combine frame_ids_range (tm_frames meta))).

(** The body of the inner loop over the frame ids of one job. *)
Definition assign_frame (job_data : Job) (frame_id : Z) (frames : FrameIndex)
  : result FrameIndex :=
  (assert_ (Dict.mem frame_id frames)
           (missing_frame_msg (id job_data) frame_id) ;;;
   Ok (Dict.assign frame_id (id job_data) (status job_data) frames))%result.

(** The body of the outer loop over the jobs. *)
Definition assign_job (job_data : Job) (frames : FrameIndex)
  : result FrameIndex :=
  for_each (range (start_frame job_data) (stop_frame job_data + 1))
           (assign_frame job_data) frames.

(** The final loop over [frames.items()]. *)
Definition check_frame (item : Z * Frame) (u : unit) : result unit :=
  match job_id (snd item) with
  | Some _ => Ok u
  | None => Raise (AssertionError (missing_job_msg (fst item)))
  end.

(** [load_task_data(task_id)], given the task and the task metadata the two
    GET requests returned; [return_dict] only changes the representation of
    the three results and is left [False]. *)
Definition load_task_data (task_id : Z) (task : FullTask)
    (meta : FullTaskMetadata) : result (FullTask * list Job * FrameIndex) :=
  (assert_ (forallb (fun x => Nat.eqb (List.length (seg_jobs x)) 1) (ft_segments task))
           multi_job_msg ;;;
   let jobs := derive_jobs task in
   let frames := build_frames task_id task meta in
   frames <- for_each jobs assign_job frames ;;;
   for_each frames check_frame tt ;;;
   Ok (task, jobs, frames))%result.

(** *** Concrete runs *)

Module Examples.

Definition fm (name : string) : FrameMeta := mkFrameMeta name 640 480.

Definition ten_frames : list FrameMeta :=
  map fm ["d/f0.png"; "d/f1.png"; "d/f2.png"; "d/f3.png"; "d/f4.png";
          "d/f5.png"; "d/f6.png"; "d/f7.png"; "d/f8.png"; "d/f9.png"].

Definition jd (i : Z) (st : string) : JobDescriptor :=
  mkJobDescriptor i st ("http://cvat/api/jobs/" ++ PyStr.str_of_int i).

(** Two segments of one job each over the frames 0..9. *)
Definition task2 : FullTask :=
  mkFullTask "t" [mkSegment 0 4 [jd 11 "completed"];
                  mkSegment 5 9 [jd 12 "annotation"]].

Definition meta10 : FullTaskMetadata := mkFullTaskMetadata 0 9 ten_frames.


(** A segment with two jobs, and one with none. *)
Definition task_two_jobs : FullTask :=
  mkFullTask "t" [mkSegment 0 4 [jd 11 "completed"];
                  mkSegment 5 9 [jd 12 "annotation"; jd 13 "annotation"]].

Definition task_two_jobs' : FullTask :=
  mkFullTask "t" [mkSegment 0 4 [jd 21 "completed"; jd 22 "validation"];
                  mkSegment 5 9 [jd 12 "annotation"]].

(** A job that reaches past the metadata range, and a gap. *)
Definition task_past : FullTask :=
  mkFullTask "t" [mkSegment 0 4 [jd 11 "completed"];
                  mkSegment 5 10 [jd 12 "annotation"]].

Definition task_gap : FullTask :=
  mkFullTask "t" [mkSegment 0 4 [jd 11 "completed"];
                  mkSegment 6 9 [jd 12 "annotation"]].

(** Metadata whose frame list is longer, and shorter, than its range. *)
Definition meta_long : FullTaskMetadata :=
  mkFullTaskMetadata 0 1 (map fm ["a.png"; "b.png"; "c.png"]).

Definition meta_short : FullTaskMetadata :=
  mkFullTaskMetadata 0 2 (map fm ["a.png"; "b.png"]).

Definition task01 : FullTask := mkFullTask "t" [mkSegment 0 1 [jd 7 "completed"]].

(** Metadata whose frame paths have no extension. *)
Definition meta_noext : FullTaskMetadata :=
  mkFullTaskMetadata 0 1 (map fm ["scan_a"; "dir/scan_b"]).

End Examples.

(* ===================================================================== *)
(** ** The two passes in closed form: definitions *)
(* ===================================================================== *)

(** [k] lies in the inclusive frame range of [j]. *)
Definition covers (j : Job) (k : Z) : bool :=
  (start_frame j <=? k) && (k <=? stop_frame j).

(** The frame after [j] wrote its id and status on it. *)
Definition with_job (j : Job) (v : Frame) : Frame :=
  mkFrame (image_id v) (frame_id v) (file_name v) (width v) (height v)
          (task_id v) (task_name v) (Some (id j)) (Some (status j)).

(** What the inner loop of one job does to one entry. *)
Definition stamp (j : Job) (kv : Z * Frame) : Z * Frame :=
  if covers j (fst kv) then (fst kv, with_job j (snd kv)) else kv.

(** What the whole first pass does to one entry: the jobs in list order. *)
Definition stamp_all (jobs : list Job) (kv : Z * Frame) : Z * Frame :=
  fold_left (fun e j => stamp j e) jobs kv.

(** Every frame id of every job is a key of [d]. *)
Definition job_fits (d : FrameIndex) (j : Job) : bool :=
  forallb (fun k => Dict.mem k d) (range (start_frame j) (stop_frame j + 1)).

Definition has_job (kv : Z * Frame) : bool :=
  match job_id (snd kv) with
  | Some _ => true
  | None => false
  end.

(** The ids that get an entry: the range, cut at the number of descriptors. *)
Definition in_index (meta : FullTaskMetadata) (k : Z) : Prop :=
  tm_start_frame meta <= k <= tm_stop_frame meta
  /\ k < tm_start_frame meta + Z.of_nat (List.length (tm_frames meta)).

(** The first assertion of [load_task_data]. *)
Definition single_jobs (task : FullTask) : bool :=
  forallb (fun x => Nat.eqb (List.length (seg_jobs x)) 1) (ft_segments task).


(* ===================================================================== *)
(** ** The invariants the loader assumes of the remote data *)
(* ===================================================================== *)

(** Invariant 1: every segment has exactly one job. *)
Definition one_job_per_segment (task : FullTask) : Prop :=
  Forall (fun s => List.length (seg_jobs s) = 1%nat) (ft_segments task).

(** Invariant 2: as many frame descriptors as frame ids in the range. *)
Definition frame_count_matches (meta : FullTaskMetadata) : Prop :=
  Z.of_nat (List.length (tm_frames meta))
  = tm_stop_frame meta - tm_start_frame meta + 1.

(** Invariant 3: every frame id a job covers has an entry in the index. *)
Definition jobs_within_index (task : FullTask) (meta : FullTaskMetadata) : Prop :=
  forall j k, In j (derive_jobs task) ->
              start_frame j <= k <= stop_frame j -> in_index meta k.

(** Invariant 4: every entry of the index is covered by some job. *)
Definition index_covered (task : FullTask) (meta : FullTaskMetadata) : Prop :=
  forall k, in_index meta k ->
            exists j, In j (derive_jobs task) /\ start_frame j <= k <= stop_frame j.

(** The segments that break invariant 1. *)
Definition offending_segments (task : FullTask) : list Segment :=
  filter (fun s => negb (Nat.eqb (List.length (seg_jobs s)) 1)) (ft_segments task).

(* ===================================================================== *)
(** ** [download_images]: the events *)
(* ===================================================================== *)

Definition bytes : Type := list Byte.byte.

(** A [requests.Response]: the status code, the header lookup (which ignores
    the case of the key) and the body the server sends. The body is only held
    by the client once [Content] has read it. *)
Record Response : Type := mkResponse {
  status_code : Z;
  headers : string -> option string;
  body : bytes
}.

(** [buffer_or_file]: an [io.BytesIO] buffer, or the path of a file. *)
Inductive ArchiveSource : Type :=
| InMemory (buffer : bytes)
| OnDisk (path : string).

(** An opened [zipfile.ZipFile]: what [namelist()] returns, in archive order,
    and what [extractall(path, members)] does given the files on disk:
    whether it raises, and the files it leaves. Reading the archive and
    writing its members is the work of [zipfile], not of the program; the
    directories an extraction creates are not tracked. *)
Record Archive : Type := mkArchive {
  namelist : list string;
  extractall : string -> list string -> list (string * bytes)
               -> result unit * list (string * bytes)
}.

(** What [download_images] asks of its environment. *)
Variant ioE : Type -> Type :=
| Get (url : string) (params : list (string * string)) (stream : bool)
    : ioE Response
  (** [api_requests.get(url, params=..., load_content=False, stream=...)] *)
| Sleep (seconds : Z) : ioE unit
  (** [time.sleep(seconds)] *)
| LogError (msg : string) (content : bytes) : ioE unit
  (** [logger.error(f"{msg}{content}")] *)
| LogDebug (msg : string) : ioE unit
| Content (resp : Response) : ioE bytes
  (** [resp.content]: reads the whole body into memory *)
| IterContent (resp : Response) (chunk_size : Z) : ioE (option bytes)
  (** one step of [resp.iter_content(chunk_size=...)]; [None] at the end *)
| Makedirs (path : string) (exist_ok : bool) : ioE (result unit)
| FileOpen (path : string) : ioE unit
  (** [open(path, "wb")] *)
| FileWrite (path : string) (chunk : bytes) : ioE unit
| FileClose (path : string) : ioE unit
| ZipFile (source : ArchiveSource) : ioE (result Archive)
| ExtractAll (zip_ref : Archive) (path : string) (members : list string)
    : ioE (result unit).

(** An event that was performed, whatever its answer type. *)
Definition event : Type := sigT ioE.

Definition ev {T} (e : ioE T) : event := existT ioE T e.

Definition is_sleep (x : event) : bool :=
  match projT2 x with
  | Sleep _ => true
  | _ => false
  end.

Definition is_get (x : event) : bool :=
  match projT2 x with
  | Get _ _ _ => true
  | _ => false
  end.

(** The event holds a whole response body in memory. *)
Definition is_content (x : event) : bool :=
  match projT2 x with
  | Content _ => true
  | _ => false
  end.

(** The event creates or writes the file [path]. *)
Definition touches_file (path : string) (x : event) : bool :=
  match projT2 x with
  | FileOpen p => String.eqb p path
  | FileWrite p _ => String.eqb p path
  | _ => false
  end.


(** If the event asks the response for a chunk, it asks for [size] bytes. *)
Definition asks_chunks_of (size : Z) (x : event) : bool :=
  match projT2 x with
  | IterContent _ chunk_size => chunk_size =? size
  | _ => true
  end.

(** If the event is an [open] or a [write] of the program, it is on the file
    [path]. What [extractall] writes is not counted. *)
Definition writes_only (path : string) (x : event) : bool :=
  match projT2 x with
  | FileOpen p => String.eqb p path
  | FileWrite p _ => String.eqb p path
  | _ => true
  end.

(** The event is an [open] or a [write] of the program, on whatever file. *)
Definition writes_file (x : event) : bool :=
  match projT2 x with
  | FileOpen _ => true
  | FileWrite _ _ => true
  | _ => false
  end.

(** The source the event opens as an archive, if it opens one. *)
Definition opened_source (x : event) : option ArchiveSource :=
  match projT2 x with
  | ZipFile source => Some source
  | _ => None
  end.

(** Every source opened as an archive along a trace, in order. *)
Fixpoint opened (tr : list event) : list ArchiveSource :=
  match tr with
  | [] => []
  | x :: rest =>
      match opened_source x with
      | Some source => source :: opened rest
      | None => opened rest
      end
  end.

(** The members the event hands to [extractall]. *)
Definition extracted_members (x : event) : list string :=
  match projT2 x with
  | ExtractAll _ _ members => members
  | _ => []
  end.

(** Every member handed to [extractall] along a trace, in order. *)
Definition extracted (tr : list event) : list string :=
  flat_map extracted_members tr.


(** The number of [time.sleep] calls along a trace. *)
Definition sleeps (tr : list event) : nat := List.length (filter is_sleep tr).

(* ===================================================================== *)
(** ** [download_images]: the program *)
(* ===================================================================== *)

Local Open Scope itree_scope.

(** [resp.raise_for_status()]. *)
Definition raise_for_status (resp : Response) : result unit :=
  if (400 <=? status_code resp) && (status_code resp <? 600)
  then Raise (HTTPError (status_code resp))
  else Ok tt.

Definition export_params : list (string * string) :=
  [("format", "CVAT for images 1.1")].

Definition download_params : list (string * string) :=
  [("format", "CVAT for images 1.1"); ("action", "download")].

Definition task_dir (task_id : Z) : string :=
  ("task-" ++ PyStr.str_of_int task_id)%string.

Definition zip_path (output_path : string) (task_id : Z) : string :=
  PyStr.path_join output_path (task_dir task_id ++ ".zip").

Definition extracted_msg (n : nat) (output_task_path : string) : string :=
  ("Downloaded and extracted " ++ PyStr.str_of_len n ++ " files to '"
   ++ output_task_path ++ "'.")%string.

(** One round of the [while True] loop: [inr] is the [break]. *)
Definition poll_once (url : string) (_ : unit) : itree ioE (unit + unit) :=
  resp <- ITree.trigger (Get url export_params false) ;;
  if status_code resp =? 201 then Ret (inr tt)
  else
    (if status_code resp =? 500
     then content <- ITree.trigger (Content resp) ;;
          ITree.trigger
            (LogError "Error: receiver response 500 with content: " content)
     else Ret tt) ;;
    ITree.trigger (Sleep 5) ;;
    Ret (inl tt).

(** [while True: ...]: create the export and wait for status 201. *)
Definition wait_export (url : string) : itree ioE unit :=
  ITree.iter (poll_once url) tt.

(** One round of [for chunk in resp.iter_content(chunk_size=8192)]. *)
Definition write_chunk (resp : Response) (path : string) (_ : unit)
  : itree ioE (unit + unit) :=
  chunk <- ITree.trigger (IterContent resp 8192) ;;
  match chunk with
  | Some c => ITree.trigger (FileWrite path c) ;; Ret (inl tt)
  | None => Ret (inr tt)
  end.

Definition stream_to_file (resp : Response) (path : string) : itree ioE unit :=
  ITree.trigger (FileOpen path) ;;
  ITree.iter (write_chunk resp path) tt ;;
  ITree.trigger (FileClose path).

Section DownloadImages.

(** [config.API_URL] and [config.DOWNLOAD_THRESHOLD_GB]. *)
Variable API_URL : string.
Variable DOWNLOAD_THRESHOLD_GB : float.

(** [cvat_utils.utils.is_image], the classifier of archive member names. *)
Variable is_image : string -> bool.

(** Python's [float(s)] on a header value; [None] is [ValueError]. *)
Variable py_float : string -> option float.

Definition dataset_url (task_id : Z) : string :=
  (API_URL ++ "/tasks/" ++ PyStr.str_of_int task_id ++ "/dataset")%string.

(** The size in gigabytes, as the code computes it. *)
#[warnings="-inexact-float"] Definition content_length_gb (content_length : float) : float :=
  (content_length * 1e-9)%float.

(** [content_legth_gb <= config.DOWNLOAD_THRESHOLD_GB]. *)
Definition keep_in_memory (content_length : float) : bool :=
  (content_length_gb content_length <=? DOWNLOAD_THRESHOLD_GB)%float.

(** The second request and the choice between memory and file. The headers
    of a response ignore the case of the key, and the [KeyError] of a missing
    header carries the key in lower case. *)
Definition fetch_archive (url : string) (task_id : Z) (output_path : string)
  : itree ioE (result ArchiveSource) :=
  resp <- ITree.trigger (Get url download_params true) ;;
  match headers resp "Content-Length" with
  | None => Ret (Raise (KeyError "content-length"))
  | Some text =>
      match py_float text with
      | None => Ret (Raise (ValueError text))
      | Some content_length =>
          if keep_in_memory content_length then
            content <- ITree.trigger (Content resp) ;;
            Ret (Ok (InMemory content))
          else
            match raise_for_status resp with
            | Raise e => Ret (Raise e)
            | Ok _ =>
                let buffer_or_file := zip_path output_path task_id in
                made <- ITree.trigger (Makedirs output_path true) ;;
                match made with
                | Raise e => Ret (Raise e)
                | Ok _ =>
                    stream_to_file resp buffer_or_file ;;
                    Ret (Ok (OnDisk buffer_or_file))
                end
            end
      end
  end.

(** Opening the archive and extracting its image members. *)
Definition extract_images (task_id : Z) (output_path : string)
    (keep_image_path : bool) (buffer_or_file : ArchiveSource)
  : itree ioE (result (list string)) :=
  let output_task_path :=
    if keep_image_path then output_path
    else PyStr.path_join output_path (task_dir task_id) in
  made <- ITree.trigger (Makedirs output_task_path keep_image_path) ;;
  match made with
  | Raise e => Ret (Raise e)
  | Ok _ =>
      opened <- ITree.trigger (ZipFile buffer_or_file) ;;
      match opened with
      | Raise e => Ret (Raise e)
      | Ok zip_ref =>
          let files := filter is_image (namelist zip_ref) in
          done <- ITree.trigger (ExtractAll zip_ref output_task_path files) ;;
          match done with
          | Raise e => Ret (Raise e)
          | Ok _ =>
              let files :=
                if keep_image_path then files
                else map (PyStr.path_join (task_dir task_id)) files in
              ITree.trigger
                (LogDebug (extracted_msg (List.length files)
                                         output_task_path)) ;;
              Ret (Ok files)
          end
      end
  end.

(** What follows the polling loop: the download step and the extraction. *)
Definition download_and_extract (url : string) (task_id : Z)
    (output_path : string) (keep_image_path : bool)
  : itree ioE (result (list string)) :=
  fetched <- fetch_archive url task_id output_path ;;
  match fetched with
  | Raise e => Ret (Raise e)
  | Ok buffer_or_file =>
      extract_images task_id output_path keep_image_path buffer_or_file
  end.

(** [download_images(task_id, output_path, keep_image_path)]. *)
Definition download_images (task_id : Z) (output_path : string)
    (keep_image_path : bool) : itree ioE (result (list string)) :=
  let url := dataset_url task_id in
  wait_export url ;;
  download_and_extract url task_id output_path keep_image_path.

End DownloadImages.

(* ===================================================================== *)
(** ** The world the program runs in *)
(* ===================================================================== *)

(** The server: what it answers to the n-th export request and to the
    download request. *)
Record Server : Type := mkServer {
  export_answers : nat -> Response;
  download_answer : Response
}.

(** The client side: the export requests made, the part of the streamed
    body not read yet, the directories and files on disk (the newest write of
    a path first) and the events performed so far. A directory or a file is
    known by the path it was created with: paths are compared as strings, and
    of the directories [os.makedirs] makes only the one it was asked for is
    recorded, not its parents. *)
Record World : Type := mkWorld {
  polls : nat;
  unread : bytes;
  dirs : list string;
  files : list (string * bytes);
  trace : list event
}.

Definition read_file (path : string) (fs : list (string * bytes)) : option bytes :=
  option_map snd (find (fun f => String.eqb (fst f) path) fs).

Definition write_file (path : string) (data : bytes)
    (fs : list (string * bytes)) : list (string * bytes) :=
  (path, data) :: fs.

Definition append_file (path : string) (chunk : bytes)
    (fs : list (string * bytes)) : list (string * bytes) :=
  match read_file path fs with
  | Some data => write_file path (data ++ chunk) fs
  | None => write_file path chunk fs
  end.

Definition dir_exists (path : string) (ds : list string) : bool :=
  existsb (String.eqb path) ds.

(** The bytes [zipfile.ZipFile(buffer_or_file)] reads. *)
Definition source_bytes (source : ArchiveSource) (fs : list (string * bytes))
  : option bytes :=
  match source with
  | InMemory buffer => Some buffer
  | OnDisk path => read_file path fs
  end.

(** The directory the members are extracted to. *)
Definition output_task_path (output_path : string) (task_id : Z)
    (keep_image_path : bool) : string :=
  if keep_image_path then output_path
  else PyStr.path_join output_path (task_dir task_id).

(** The paths [download_images] returns for the extracted members. *)
Definition returned_paths (task_id : Z) (keep_image_path : bool)
    (members : list string) : list string :=
  if keep_image_path then members
  else map (PyStr.path_join (task_dir task_id)) members.

(** The request asks for the download, not for the export. *)
Definition is_download (params : list (string * string)) : bool :=
  existsb (fun p => String.eqb (fst p) "action" && String.eqb (snd p) "download")
          params.

(** The next chunk of at most [chunk_size] bytes and the rest. *)
Definition take_chunk (chunk_size : Z) (data : bytes) : option (bytes * bytes) :=
  match data with
  | [] => None
  | _ => Some (firstn (Z.to_nat chunk_size) data, skipn (Z.to_nat chunk_size) data)
  end.

(** The paths [os.makedirs] refuses whatever is on disk: the empty path
    ([FileNotFoundError]) and a path with a null character ([ValueError]).
    The limits a file system puts on the length of names are not modelled. *)
Definition path_error (path : string) : option exn :=
  if String.eqb path "" then Some (FileNotFoundError path)
  else if PyStr.contains Ascii.zero path then Some (ValueError path)
  else None.

Section Run.

Variable server : Server.

(** The decoder of zip payloads: the members of an archive, or [None] for
    bytes that are no archive. *)
Variable unzip : bytes -> option Archive.

(** The answer of the environment to an event and its effect on the world. *)
Definition handle {T} (e : ioE T) (w : World) : T * World :=
  match e in ioE T return T * World with
  | Get _ params stream =>
      if is_download params
      then (download_answer server,
            mkWorld (polls w) (body (download_answer server)) (dirs w)
                    (files w) (trace w))
      else (export_answers server (polls w),
            mkWorld (S (polls w)) (unread w) (dirs w) (files w) (trace w))
  | Sleep _ => (tt, w)
  | LogError _ _ => (tt, w)
  | LogDebug _ => (tt, w)
  | Content resp => (body resp, w)
  | IterContent _ chunk_size =>
      match take_chunk chunk_size (unread w) with
      | Some (chunk, rest) =>
          (Some chunk, mkWorld (polls w) rest (dirs w) (files w) (trace w))
      | None => (None, w)
      end
  | Makedirs path exist_ok =>
      match path_error path with
      | Some e => (Raise e, w)
      | None =>
          if dir_exists path (dirs w)
          then (if exist_ok then Ok tt else Raise (FileExistsError path), w)
          else (Ok tt,
                mkWorld (polls w) (unread w) (path :: dirs w) (files w)
                        (trace w))
      end
  | FileOpen path =>
      (tt, mkWorld (polls w) (unread w) (dirs w)
                   (write_file path [] (files w)) (trace w))
  | FileWrite path chunk =>
      (tt, mkWorld (polls w) (unread w) (dirs w)
                   (append_file path chunk (files w)) (trace w))
  | FileClose _ => (tt, w)
  | ZipFile source =>
      (match source with
       | InMemory buffer =>
           match unzip buffer with
           | Some zip_ref => Ok zip_ref
           | None => Raise BadZipFile
           end
       | OnDisk path =>
           match read_file path (files w) with
           | Some data =>
               match unzip data with
               | Some zip_ref => Ok zip_ref
               | None => Raise BadZipFile
               end
           | None => Raise (FileNotFoundError path)
           end
       end, w)
  | ExtractAll zip_ref path members =>
      (fst (extractall zip_ref path members (files w)),
       mkWorld (polls w) (unread w) (dirs w)
               (snd (extractall zip_ref path members (files w))) (trace w))
  end.

(** The event is appended to the trace once it has been answered. *)
Definition log {T} (e : ioE T) (w : World) : World :=
  mkWorld (polls w) (unread w) (dirs w) (files w) (trace w ++ [ev e]).

(** Running a program for at most [fuel] steps, a step being an event or a
    silent turn of a loop: the result, the world it leaves and the fuel that
    is left; [None] when the fuel does not suffice. *)
Fixpoint exec {R} (fuel : nat) (t : itree ioE R) (w : World)
  : option (R * World * nat) :=
  match observe t with
  | RetF r => Some (r, w, fuel)
  | TauF t' =>
      match fuel with
      | O => None
      | S n => exec n t' w
      end
  | VisF e k =>
      match fuel with
      | O => None
      | S n => exec n (k (fst (handle e w))) (log e (snd (handle e w)))
      end
  end.

Definition run {R} (fuel : nat) (t : itree ioE R) (w : World)
  : option (R * World) :=
  option_map fst (exec fuel t w).

(** The program returns [r] in world [w'] after exactly [steps] steps. *)
Definition takes {R} (t : itree ioE R) (w : World) (r : R) (w' : World)
    (steps : nat) : Prop :=
  forall n, exec (steps + n) t w = Some (r, w', n).

(** The program returns [r] in world [w']: every large enough fuel gives
    this result. *)
Definition runs {R} (t : itree ioE R) (w : World) (r : R) (w' : World) : Prop :=
  exists fuel0, forall fuel, (fuel0 <= fuel)%nat -> run fuel t w = Some (r, w').

(** The program never returns. *)
Definition diverges {R} (t : itree ioE R) (w : World) : Prop :=
  forall fuel, run fuel t w = None.

End Run.

(** The events of one round of the polling loop that got answer [resp]. *)
Definition round_events (url : string) (resp : Response) : list event :=
  ev (Get url export_params false)
  :: (if status_code resp =? 500
      then [ev (Content resp);
            ev (LogError "Error: receiver response 500 with content: "
                         (body resp))]
      else [])
  ++ [ev (Sleep 5)].

(** The events of the polling loop whose first [n] answers, from request
    number [first] on, were not 201 and whose next answer was. *)
Definition polling_events (url : string) (server : Server) (first n : nat)
  : list event :=
  flat_map (fun i => round_events url (export_answers server (first + i)))
           (seq 0 n)
  ++ [ev (Get url export_params false)].

(** The world after [n] more export requests that logged [events]. *)
Definition polled (w : World) (n : nat) (events : list event) : World :=
  mkWorld (polls w + n) (unread w) (dirs w) (files w) (trace w ++ events).

(** The body cut into chunks of [size] bytes, the last one possibly shorter;
    [fuel] bounds the number of chunks. *)
Fixpoint chunks_of (fuel : nat) (size : Z) (data : bytes) : list bytes :=
  match fuel with
  | O => []
  | S n =>
      match take_chunk size data with
      | Some (chunk, rest) => chunk :: chunks_of n size rest
      | None => []
      end
  end.

Definition chunks (size : Z) (data : bytes) : list bytes :=
  chunks_of (List.length data) size data.

(** The events of the streaming loop that received the chunks [cs]. *)
Definition stream_events (resp : Response) (path : string) (cs : list bytes)
  : list event :=
  flat_map (fun c => [ev (IterContent resp 8192); ev (FileWrite path c)]) cs
  ++ [ev (IterContent resp 8192)].

(* ===================================================================== *)
(** ** A concrete server and world *)
(* ===================================================================== *)

Module DownloadExamples.

Definition b (c : string) : bytes := list_byte_of_string c.

Definition no_headers : string -> option string := fun _ => None.

Definition length_header (n : string) : string -> option string :=
  fun key => if String.eqb key "Content-Length" then Some n else None.

Definition pending : Response := mkResponse 202 no_headers [].
Definition failing : Response := mkResponse 500 no_headers (b "oops").
Definition created : Response := mkResponse 201 no_headers [].

(** The payload: twelve bytes standing for a zip archive. *)
Definition payload : bytes := b "PK-a-b-c-d-e".

Definition download : Response := mkResponse 200 (length_header "12") payload.

(** Three answers other than 201 (one of them a 500), then 201. *)
Definition server : Server :=
  mkServer (fun i => match i with
                     | 0%nat => pending
                     | 1%nat => failing
                     | 2%nat => pending
                     | _ => created
                     end)
           download.

(** The entries of the example archive: two images and two other members. *)
Definition entries : list (string * bytes) :=
  [("images/a.png", b "A"); ("annotations.xml", b "<x/>");
   ("images/b.jpg", b "B"); ("README.txt", b "r")].

(** The extraction of the example archive, member by member in the order
    asked for: the names of its entries are plain relative paths, which are
    written below the directory as they are; a name that is not in the
    archive stops the extraction with a [KeyError]. *)
Fixpoint extract (path : string) (names : list string)
    (fs : list (string * bytes)) : result unit * list (string * bytes) :=
  match names with
  | [] => (Ok tt, fs)
  | m :: rest =>
      match read_file m entries with
      | Some data =>
          extract path rest (write_file (PyStr.path_join path m) data fs)
      | None => (Raise (KeyError m), fs)
      end
  end.

Definition members : Archive := mkArchive (map fst entries) extract.

Definition unzip (data : bytes) : option Archive :=
  if list_eq_dec Byte.byte_eq_dec data payload then Some members else None.

Fixpoint ends_with (suffix s : string) : bool :=
  (String.eqb s suffix
   || match s with
      | EmptyString => false
      | String _ rest => ends_with suffix rest
      end)%bool.

Definition is_image (name : string) : bool :=
  (ends_with ".png" name || ends_with ".jpg" name)%bool.

(** [float] on the two header values the examples use. *)
Definition py_float (text : string) : option float :=
  if String.eqb text "12" then Some 12%float
  else if String.eqb text "5000000000" then Some 5000000000%float
  else None.

Definition empty_world : World := mkWorld 0 [] [] [] [].

(** A threshold of one gigabyte, and one of a single byte. *)
Definition one_gb : float := 1%float.
#[warnings="-inexact-float"] Definition one_byte : float := 1e-9%float.

End DownloadExamples.

(* ===================================================================== *)
(** ** More download responses *)
(* ===================================================================== *)

Module DownloadErrorExamples.

(** A server whose export is ready at the first request. *)
Definition ready (download : Response) : Server :=
  mkServer (fun _ => DownloadExamples.created) download.

(** A download response without a [Content-Length] header. *)
Definition no_length : Response :=
  mkResponse 200 DownloadExamples.no_headers DownloadExamples.payload.

(** A download response whose [Content-Length] is no number. *)
Definition bad_length : Response :=
  mkResponse 200 (DownloadExamples.length_header "twelve")
             DownloadExamples.payload.


End DownloadErrorExamples.

(* ===================================================================== *)
(** ** The loaders that talk to the API *)
(* ===================================================================== *)

(** [s[-1]]; [None] stands for the [IndexError] of the empty string. *)
Fixpoint str_last (s : string) : option ascii :=
  match s with
  | EmptyString => None
  | String c EmptyString => Some c
  | String _ rest => str_last rest
  end.

(** [s[:-1]]. *)
Fixpoint str_but_last (s : string) : string :=
  match s with
  | EmptyString => EmptyString
  | String _ EmptyString => EmptyString
  | String c rest => String c (str_but_last rest)
  end.

(** Modelled from the spec: [FullProject], the project record; only the field
    [load_project_data] reads, the ordered task ids. *)
Record FullProject : Type := mkFullProject {
  fp_tasks : list Z
}.

(** The exceptions of the loaders: those of [exn], the [IndexError] and the
    [TypeError] of indexing, and the exceptions of [api_requests.get] and of
    the model constructors, whose code is not part of the sources. *)
Inductive api_exn (foreign : Type) : Type :=
| Loader (e : exn)
| IndexError (msg : string)
| TypeError (msg : string)
| Foreign (e : foreign).
Arguments Loader {foreign} e.
Arguments IndexError {foreign} msg.
Arguments TypeError {foreign} msg.
Arguments Foreign {foreign} e.

Inductive outcome (E A : Type) : Type :=
| Return (a : A)
| Throw (e : E).
Arguments Return {E A} a.
Arguments Throw {E A} e.

(** A value stored in a dictionary handed to [load_annotations]: an [int], a
    [str], or a value of another type (a list, [None], a float, ...), of
    which [other] is the type. *)
Inductive PyValue (other : Type) : Type :=
| IntValue (z : Z)
| StrValue (s : string)
| OtherValue (v : other).
Arguments IntValue {other} z.
Arguments StrValue {other} s.
Arguments OtherValue {other} v.

(** A [dict] with string keys, in insertion order. *)
Definition PyDict (other : Type) : Type := list (string * PyValue other).

(** [d.get(key)]; [key in d] is whether it is not [None]. *)
Fixpoint dict_get {other} (key : string) (d : PyDict other)
  : option (PyValue other) :=
  match d with
  | [] => None
  | (k, v) :: rest => if String.eqb k key then Some v else dict_get key rest
  end.

(** Modelled from the spec: [Job.dict()], the fields of a job by name. *)
Definition job_dict {other} (job : Job) : PyDict other :=
  [("id", IntValue (id job)); ("status", StrValue (status job));
   ("url", StrValue (url job)); ("start_frame", IntValue (start_frame job));
   ("stop_frame", IntValue (stop_frame job))].

(** The argument of [load_annotations]: a [Job] or a [dict]. *)
Inductive JobArg (other : Type) : Type :=
| JobObject (job : Job)
| JobDict (job : PyDict other).
Arguments JobObject {other} job.
Arguments JobDict {other} job.

(** What a loader leaves behind: the URLs it requested and the warnings it
    emitted, both in order. *)
Record ApiState : Type := mkApiState {
  requests : list string;
  warnings : list string
}.

(** A computation that requests and warns, and returns or raises. *)
Definition Api (E A : Type) : Type := ApiState -> outcome E A * ApiState.

Definition ret {E A} (a : A) : Api E A := fun s => (Return a, s).

Definition throw {E A} (e : E) : Api E A := fun s => (Throw e, s).

Definition bind {E A B} (m : Api E A) (k : A -> Api E B) : Api E B :=
  fun s =>
    match m s with
    | (Return a, s') => k a s'
    | (Throw e, s') => (Throw e, s')
    end.

Declare Scope api_scope.
Delimit Scope api_scope with api.
Notation "x <- m ;;; k" := (bind m (fun x => k))
  (at level 61, m at next level, right associativity) : api_scope.
Notation "m ;;; k" := (bind m (fun _ => k))
  (at level 61, right associativity) : api_scope.

(** A value or an exception that is already there. *)
Definition of_outcome {E A} (o : outcome E A) : Api E A := fun s => (o, s).

(** [warnings.warn(msg)]. *)
Definition warn {E} (msg : string) : Api E unit :=
  fun s => (Return tt, mkApiState (requests s) (warnings s ++ [msg])).

(** The list comprehension [[f(x) for x in xs]] of a function that requests:
    left to right, stopping at the first exception. *)
Fixpoint for_list {E A B} (xs : list A) (f : A -> Api E B) : Api E (list B) :=
  match xs with
  | [] => ret []
  | x :: rest =>
      (y <- f x ;;;
       ys <- for_list rest f ;;;
       ret (y :: ys))%api
  end.

Module Api.

Section Loaders.

(** The parsed JSON object [api_requests.get] returns, its comparison [!=],
    and the exceptions of the code that is not part of the sources. *)
Variable Json : Type.
Variable json_eqb : Json -> Json -> bool.
Variable foreign : Type.

Local Abbreviation E := (api_exn foreign).

(** A pydantic model: the constructor called on the fields of a JSON object,
    which validates and may raise, and [m.dict()]. *)
Class PydanticModel (M : Type) : Type := {
  construct : Json -> outcome E M;
  dict : M -> Json
}.

(** [Task] and [FullAnnotations], of which the loaders read no field. *)
Variable Task : Type.
Variable FullAnnotations : Type.

Context {project_model : PydanticModel FullProject}.
Context {full_task_model : PydanticModel FullTask}.
Context {metadata_model : PydanticModel FullTaskMetadata}.
Context {task_model : PydanticModel Task}.
Context {annotations_model : PydanticModel FullAnnotations}.

(** [config.API_URL]. *)
Variable API_URL : string.

(** What [api_requests.get] returns or raises for a URL, given the URLs
    requested before. *)
Variable respond : list string -> string -> outcome E Json.

(** [api_requests.get(url)]. *)
Definition get (url : string) : Api E Json :=
  fun s => (respond (requests s) url,
            mkApiState (requests s ++ [url]) (warnings s)).

Definition project_url (project_id : Z) : string :=
  (API_URL ++ "/projects/" ++ PyStr.str_of_int project_id)%string.

Definition task_url (task_id : Z) : string :=
  (API_URL ++ "/tasks/" ++ PyStr.str_of_int task_id)%string.

Definition task_meta_url (task_id : Z) : string :=
  (API_URL ++ "/tasks/" ++ PyStr.str_of_int task_id ++ "/data/meta")%string.

Definition _load_project (project_id : Z) : Api E FullProject :=
  (project_dict <- get (project_url project_id) ;;;
   project <- of_outcome (construct project_dict) ;;;
   (if negb (json_eqb (dict project) project_dict)
    then warn "Project model in the library doesn't equal to the model returned by CVAT API."
    else ret tt) ;;;
   ret project)%api.

Definition _load_task (task_id : Z) : Api E FullTask :=
  (task_dict <- get (task_url task_id) ;;;
   task <- of_outcome (construct task_dict) ;;;
   (if negb (json_eqb (dict task) task_dict)
    then warn "Task model in the library doesn't equal to the model returned by CVAT API."
    else ret tt) ;;;
   ret task)%api.

Definition _load_task_metadata (task_id : Z) : Api E FullTaskMetadata :=
  (meta_dict <- get (task_meta_url task_id) ;;;
   meta <- of_outcome (construct meta_dict) ;;;
   (if negb (json_eqb (dict meta) meta_dict)
    then warn "Task Metadata model in the library doesn't equal to the model returned by CVAT API."
    else ret tt) ;;;
   ret meta)%api.

(** [load_project_data(project_id)]; [return_dict] only changes the
    representation of the two results and is left [False]. *)
Definition load_project_data (project_id : Z)
  : Api E (FullProject * list Task) :=
  (project <- _load_project project_id ;;;
   tasks <- for_list (fp_tasks project)
              (fun task_id =>
                 task <- _load_task task_id ;;;
                 of_outcome (construct (dict task))) ;;;
   ret (project, tasks))%api.

(** [load_task_data(task_id)] with its two requests. *)
Definition load_task_data (task_id : Z)
  : Api E (FullTask * list Job * FrameIndex) :=
  (task <- _load_task task_id ;;;
   meta <- _load_task_metadata task_id ;;;
   match load_task_data task_id task meta with
   | Ok r => ret r
   | Raise e => throw (Loader e)
   end)%api.

(** The values that are neither an [int] nor a [str], and what the three
    operations [load_annotations] applies to a url give on them, each a
    value or the exception raised: whether [v[-1] == "/"] holds, the value
    [v[:-1]], and the text of [v] in an f-string. *)
Variable other : Type.
Variable last_is_slash : other -> outcome E bool.
Variable but_last : other -> outcome E (PyValue other).
Variable formatted : other -> outcome E string.

(** [f"{v}"]. *)
Definition py_format (v : PyValue other) : outcome E string :=
  match v with
  | IntValue z => Return (PyStr.str_of_int z)
  | StrValue s => Return s
  | OtherValue v => formatted v
  end.

(** The first lines of [load_annotations]: the url of the job, without its
    final slash. *)
Definition stripped_job_url (job : JobArg other) : Api E (PyValue other) :=
  (job_url <- match job with
              | JobObject job => ret (StrValue (url job))
              | JobDict job =>
                  match dict_get "url" job with
                  | Some value => ret value
                  | None => throw (Loader (AssertionError ""))
                  end
              end ;;;
   match job_url with
   | StrValue s =>
       match str_last s with
       | None => throw (IndexError "string index out of range")
       | Some c =>
           ret (StrValue (if Ascii.eqb c "/" then str_but_last s else s))
       end
   | IntValue _ => throw (TypeError "'int' object is not subscriptable")
   | OtherValue v =>
       strip <- of_outcome (last_is_slash v) ;;;
       if strip : bool then of_outcome (but_last v) else ret job_url
   end)%api.

(** [load_annotations(job)]; [return_dict] is left [False]. *)
Definition load_annotations (job : JobArg other) : Api E FullAnnotations :=
  (job_url <- stripped_job_url job ;;;
   prefix <- of_outcome (py_format job_url) ;;;
   annotations_dict <- get (prefix ++ "/annotations")%string ;;;
   annotations <- of_outcome (construct annotations_dict) ;;;
   (if negb (json_eqb (dict annotations) annotations_dict)
    then warn "Annotations model in the library doesn't equal to the model returned by CVAT API."
    else ret tt) ;;;
   ret annotations)%api.

End Loaders.

End Api.

(** *** A scripted API *)

Module ApiExamples.

(** The JSON objects of the scripted API, by what they decode to. *)
Inductive Json : Type :=
| JProject (p : FullProject)
| JTask (t : FullTask)
| JMeta (m : FullTaskMetadata)
| JAnnotations (shapes : list Z).

(** The foreign exceptions, by their message. *)
Definition foreign : Type := string.

(** No decoded record differs from its JSON object. *)
Definition json_eqb (a b : Json) : bool := true.

Definition invalid {M} : outcome (api_exn foreign) M :=
  Throw (Foreign "validation error").

Definition project_model : Api.PydanticModel Json foreign FullProject :=
  {| Api.construct := fun d => match d with
                               | JProject p => Return p
                               | _ => invalid
                               end;
     Api.dict := JProject |}.

Definition full_task_model : Api.PydanticModel Json foreign FullTask :=
  {| Api.construct := fun d => match d with
                               | JTask t => Return t
                               | _ => invalid
                               end;
     Api.dict := JTask |}.

Definition metadata_model : Api.PydanticModel Json foreign FullTaskMetadata :=
  {| Api.construct := fun d => match d with
                               | JMeta m => Return m
                               | _ => invalid
                               end;
     Api.dict := JMeta |}.

(** The short task record: the name of the task. *)
Definition task_model : Api.PydanticModel Json foreign string :=
  {| Api.construct := fun d => match d with
                               | JTask t => Return (ft_name t)
                               | _ => invalid
                               end;
     Api.dict := fun name => JTask (mkFullTask name []) |}.

Definition annotations_model : Api.PydanticModel Json foreign (list Z) :=
  {| Api.construct := fun d => match d with
                               | JAnnotations shapes => Return shapes
                               | _ => invalid
                               end;
     Api.dict := JAnnotations |}.

Definition API_URL : string := "http://cvat/api".

(** Project 1 has the tasks 5, 6 and 8, of which task 6 is gone. *)
Definition respond (_ : list string) (url : string)
  : outcome (api_exn foreign) Json :=
  if String.eqb url "http://cvat/api/projects/1"
  then Return (JProject (mkFullProject [5; 6; 8]))
  else if String.eqb url "http://cvat/api/projects/2"
  then Return (JProject (mkFullProject [5; 8]))
  else if String.eqb url "http://cvat/api/tasks/5"
  then Return (JTask Examples.task2)
  else if String.eqb url "http://cvat/api/tasks/8"
  then Return (JTask Examples.task_gap)
  else if String.eqb url "http://cvat/api/tasks/5/data/meta"
  then Return (JMeta Examples.meta10)
  else if String.eqb url "http://cvat/api/tasks/8/data/meta"
  then Return (JMeta Examples.meta10)
  else if String.eqb url "http://cvat/api/jobs/12/annotations"
  then Return (JAnnotations [1; 2; 3])
  else Throw (Foreign "404 Not Found").

(** Two kinds of values that are neither an [int] nor a [str]: [None], and
    the lists of integers. *)
Inductive other : Type :=
| PyNone
| PyList (items : list Z).

(** [v[-1] == "/"]: [None] cannot be indexed, the empty list has no last
    element, and no integer equals a string. *)
Definition last_is_slash (v : other) : outcome (api_exn foreign) bool :=
  match v with
  | PyNone => Throw (TypeError "'NoneType' object is not subscriptable")
  | PyList [] => Throw (IndexError "list index out of range")
  | PyList _ => Return false
  end.

(** [v[:-1]]. *)
Definition but_last (v : other) : outcome (api_exn foreign) (PyValue other) :=
  match v with
  | PyNone => Throw (TypeError "'NoneType' object is not subscriptable")
  | PyList items => Return (OtherValue (PyList (removelast items)))
  end.

(** [", ".join(items)]. *)
Fixpoint comma_join (items : list string) : string :=
  match items with
  | [] => ""
  | [x] => x
  | x :: rest => x ++ ", " ++ comma_join rest
  end.

(** [f"{v}"]. *)
Definition formatted (v : other) : outcome (api_exn foreign) string :=
  match v with
  | PyNone => Return "None"
  | PyList items =>
      Return ("[" ++ comma_join (map PyStr.str_of_int items) ++ "]")%string
  end.

Definition start : ApiState := mkApiState [] [].

Definition job12 : Job := mkJob 12 "annotation" "http://cvat/api/jobs/12" 5 9.

End ApiExamples.
Example split_ex1 : PyStr.split "." "dir/img.png" = ["dir/img"; "png"].
Proof. reflexivity. Qed.

Example split_ex2 : PyStr.split "." "a..b." = ["a"; ""; "b"; ""].
Proof. reflexivity. Qed.

Example str_of_int_ex : PyStr.str_of_int (-42) = "-42" /\ PyStr.str_of_int 0 = "0".
Proof. split; reflexivity. Qed.

Example path_join_ex :
  PyStr.path_join "out" "task-7.zip" = "out/task-7.zip"
  /\ PyStr.path_join "out/" "a.png" = "out/a.png"
  /\ PyStr.path_join "task-7" "/abs/a.png" = "/abs/a.png".
Proof. repeat split; reflexivity. Qed.

Example range_ex : range 3 6 = [3; 4; 5] /\ range 4 4 = [] /\ range 5 2 = [].
Proof. repeat split; reflexivity. Qed.

Example load_scenario_runs :
  match load_task_data 5 Examples.task2 Examples.meta10 with
  | Ok (_, jobs, frames) =>
      map id jobs = [11; 12]
      /\ map (fun e => (fst e, job_id (snd e))) frames
         = [(0, Some 11); (1, Some 11); (2, Some 11); (3, Some 11); (4, Some 11);
            (5, Some 12); (6, Some 12); (7, Some 12); (8, Some 12); (9, Some 12)]
  | Raise _ => False
  end.
Proof. vm_compute. split; reflexivity. Qed.

Example load_errors_run :
  load_task_data 5 Examples.task_two_jobs Examples.meta10
    = Raise (AssertionError "Unexpected CVAT data: one segment has multiple jobs.")
  /\ load_task_data 5 Examples.task_past Examples.meta10
    = Raise (AssertionError "Unexpected CVAT data: job (12) is missing a frame (10).")
  /\ load_task_data 5 Examples.task_gap Examples.meta10
    = Raise (AssertionError "Unexpected CVAT data: frame (5) is missing job id.").
Proof. repeat split; vm_compute; reflexivity. Qed.

(* ===================================================================== *)
(** ** Facts about [split], [join] and the image id *)
(* ===================================================================== *)

Lemma append_assoc (a b c : string) : ((a ++ b) ++ c = a ++ b ++ c)%string.
Proof. induction a as [|x a IH]; simpl; [reflexivity | now rewrite IH]. Qed.

Lemma append_length (a b : string) :
  String.length (a ++ b)%string = (String.length a + String.length b)%nat.
Proof. induction a; simpl; auto. Qed.

Section SplitFacts.

Variable sep : ascii.

Lemma split_not_nil (s : string) : PyStr.split sep s <> [].
Proof.
  destruct s as [|c rest]; simpl; [discriminate|].
  destruct (Ascii.eqb c sep); [discriminate|].
  destruct (PyStr.split sep rest); discriminate.
Qed.

Lemma split_app (a b : string) :
  PyStr.split sep (a ++ String sep b)%string = PyStr.split sep a ++ PyStr.split sep b.
Proof.
  induction a as [|c a IH]; simpl.
  - rewrite Ascii.eqb_refl. reflexivity.
  - destruct (Ascii.eqb c sep).
    + rewrite IH. reflexivity.
    + rewrite IH.
      destruct (PyStr.split sep a) as [|p ps] eqn:E.
      * exfalso. exact (split_not_nil a E).
      * reflexivity.
Qed.

Lemma split_no_sep (s : string) :
  PyStr.contains sep s = false -> PyStr.split sep s = [s].
Proof.
  induction s as [|c s IH]; simpl; intros H; [reflexivity|].
  apply orb_false_iff in H. destruct H as [Hc Hs].
  rewrite Hc, (IH Hs). reflexivity.
Qed.

Lemma concat_cons_char (c : ascii) (p : string) (ps : list string) (d : string) :
  String.concat d (String c p :: ps) = String c (String.concat d (p :: ps)).
Proof. destruct ps; reflexivity. Qed.

Lemma join_split (s : string) :
  PyStr.join (String sep EmptyString) (PyStr.split sep s) = s.
Proof.
  unfold PyStr.join.
  induction s as [|c s IH]; simpl; [reflexivity|].
  destruct (Ascii.eqb_spec c sep) as [->|Hne].
  - destruct (PyStr.split sep s) as [|p ps] eqn:E.
    + exfalso. exact (split_not_nil s E).
    + change (String.concat (String sep "") ("" :: p :: ps))
        with (String sep (String.concat (String sep "") (p :: ps))).
      rewrite IH. reflexivity.
  - destruct (PyStr.split sep s) as [|p ps] eqn:E.
    + exfalso. exact (split_not_nil s E).
    + rewrite concat_cons_char, IH. reflexivity.
Qed.

Lemma concat_snoc (d : string) (l : list string) (e : string) :
  l <> [] ->
  String.concat d (l ++ [e]) = (String.concat d l ++ d ++ e)%string.
Proof.
  induction l as [|x l IH]; intros Hl; [contradiction|].
  destruct l as [|y l].
  - reflexivity.
  - change (String.concat d ((x :: y :: l) ++ [e]))
      with (x ++ d ++ String.concat d ((y :: l) ++ [e]))%string.
    rewrite IH by discriminate.
    change (String.concat d (x :: y :: l)) with (x ++ d ++ String.concat d (y :: l))%string.
    rewrite !append_assoc. reflexivity.
Qed.

Lemma split_last_some (s : string) :
  exists e, PyStr.last_item (PyStr.split sep s) = Some e.
Proof.
  unfold PyStr.last_item.
  destruct (rev (PyStr.split sep s)) as [|x l] eqn:E.
  - exfalso. apply (split_not_nil s).
    rewrite <- (rev_involutive (PyStr.split sep s)), E. reflexivity.
  - eauto.
Qed.

End SplitFacts.

(** The image id of a path without a dot is empty. *)
Lemma image_id_no_dot (p : string) :
  PyStr.contains "." p = false -> image_path_to_image_id p = "".
Proof.
  intros H. unfold image_path_to_image_id.
  rewrite (split_no_sep _ _ H). reflexivity.
Qed.

(** The image id of [a.e], where [e] has no dot, is [a]. *)
Lemma image_id_strips_last (a e : string) :
  PyStr.contains "." e = false ->
  image_path_to_image_id (a ++ String "." e)%string = a.
Proof.
  intros H. unfold image_path_to_image_id, PyStr.but_last.
  rewrite split_app, (split_no_sep _ _ H), removelast_last.
  apply join_split.
Qed.

(** The image id is strictly shorter than a non-empty path. *)
Lemma image_id_shorter (p : string) :
  p <> "" -> (String.length (image_path_to_image_id p) < String.length p)%nat.
Proof.
  intros Hp. unfold image_path_to_image_id, PyStr.but_last, PyStr.join.
  pose proof (join_split "." p) as J. unfold PyStr.join in J.
  destruct (exists_last (split_not_nil "." p)) as [l [e El]].
  rewrite El in *. rewrite removelast_last.
  destruct l as [|x l].
  - simpl in *. subst e. destruct p; [contradiction | simpl; lia].
  - rewrite concat_snoc in J by discriminate.
    rewrite <- J. rewrite !append_length. simpl. lia.
Qed.

Lemma image_id_fixpoint (q : string) : image_path_to_image_id q = q -> q = "".
Proof.
  intros H. destruct (string_dec q "") as [E|E]; [exact E|].
  pose proof (image_id_shorter q E) as L. rewrite H in L. lia.
Qed.

(* ===================================================================== *)
(** ** Facts about [range] and the dictionary *)
(* ===================================================================== *)

Lemma range_In (lo hi k : Z) : In k (range lo hi) <-> lo <= k < hi.
Proof.
  unfold range. rewrite in_map_iff. split.
  - intros [i [<- Hi]]. apply in_seq in Hi. lia.
  - intros H. exists (Z.to_nat (k - lo)). split; [lia|].
    apply in_seq. lia.
Qed.

Lemma range_length (lo hi : Z) : List.length (range lo hi) = Z.to_nat (hi - lo).
Proof. unfold range. now rewrite length_map, length_seq. Qed.

Lemma range_NoDup (lo hi : Z) : NoDup (range lo hi).
Proof.
  unfold range. apply Injective_map_NoDup.
  - intros i j H. lia.
  - apply seq_NoDup.
Qed.

Lemma range_inclusive_In (lo hi k : Z) : In k (range lo (hi + 1)) <-> lo <= k <= hi.
Proof. rewrite range_In. lia. Qed.

Lemma In_firstn {A} (n : nat) (l : list A) (x : A) :
  In x (firstn n l) -> In x l.
Proof.
  revert n. induction l as [|y l IH]; intros [|n]; simpl; try tauto.
  intros [E|H]; [now left | right; eapply IH; eauto].
Qed.

Lemma firstn_NoDup {A} (n : nat) (l : list A) : NoDup l -> NoDup (firstn n l).
Proof.
  revert n. induction l as [|x l IH]; intros [|n] H; simpl; try constructor.
  - inversion H; subst. intros Hin. apply In_firstn in Hin. contradiction.
  - inversion H; subst. now apply IH.
Qed.

Lemma map_fst_combine {A B} (l : list A) (l' : list B) :
  map fst (combine l l') = firstn (List.length l') l.
Proof.
  revert l'. induction l as [|x l IH]; intros [|y l']; simpl; try reflexivity.
  now rewrite IH.
Qed.

Lemma forallb_ext {A} (f g : A -> bool) (l : list A) :
  (forall x, f x = g x) -> forallb f l = forallb g l.
Proof.
  intros H. induction l as [|x l IH]; simpl; [reflexivity|].
  now rewrite H, IH.
Qed.

Module DictFacts.

Import Dict.

Lemma get_In_keys (k : Z) (d : FrameIndex) :
  mem k d = true <-> In k (keys d).
Proof.
  unfold mem, keys. induction d as [|[k' v] d IH]; simpl.
  - split; [discriminate | contradiction].
  - destruct (Z.eqb_spec k' k) as [->|Hne].
    + split; auto.
    + rewrite IH. split; [auto | intros [E|H]; [contradiction | exact H]].
Qed.

Lemma mem_false_iff (k : Z) (d : FrameIndex) :
  mem k d = false <-> ~ In k (keys d).
Proof.
  rewrite <- get_In_keys. destruct (mem k d); split; congruence.
Qed.

Lemma get_Some_In (k : Z) (v : Frame) (d : FrameIndex) :
  NoDup (keys d) -> (get k d = Some v <-> In (k, v) d).
Proof.
  unfold keys. induction d as [|[k' v'] d IH]; simpl; intros ND.
  - split; [discriminate | contradiction].
  - inversion ND as [|? ? Hnotin ND']; subst.
    destruct (Z.eqb_spec k' k) as [->|Hne].
    + split.
      * intros [= ->]. now left.
      * intros [[= ->]|Hin]; [reflexivity|].
        exfalso. apply Hnotin. apply in_map_iff. now exists (k, v).
    + rewrite (IH ND'). split; [auto|].
      intros [[= E _]|Hin]; [contradiction | exact Hin].
Qed.

Lemma set_item_fresh (k : Z) (v : Frame) (d : FrameIndex) :
  ~ In k (keys d) -> set_item k v d = d ++ [(k, v)].
Proof.
  unfold keys. induction d as [|[k' v'] d IH]; simpl; intros H; [reflexivity|].
  destruct (Z.eqb_spec k' k) as [->|Hne]; [tauto|].
  rewrite IH by tauto. reflexivity.
Qed.

Lemma of_items_acc (items acc : FrameIndex) :
  NoDup (keys (acc ++ items)) ->
  fold_left (fun d kv => set_item (fst kv) (snd kv) d) items acc
  = acc ++ items.
Proof.
  revert acc. induction items as [|[k v] items IH]; intros acc ND; simpl.
  - now rewrite app_nil_r.
  - rewrite set_item_fresh.
    + rewrite IH; rewrite <- app_assoc; [reflexivity | exact ND].
    + unfold keys in *. rewrite map_app in ND.
      apply NoDup_remove_2 in ND. intros Hin. apply ND.
      apply in_or_app. now left.
Qed.

(** With pairwise distinct keys the comprehension keeps every item. *)
Lemma of_items_NoDup (items : FrameIndex) :
  NoDup (keys items) -> of_items items = items.
Proof. intros ND. unfold of_items. now rewrite of_items_acc. Qed.

Lemma keys_assign (k j : Z) (s : string) (d : FrameIndex) :
  keys (assign k j s d) = keys d.
Proof.
  unfold keys. induction d as [|[k' v] d IH]; simpl; [reflexivity|].
  destruct (Z.eqb k' k); simpl; [reflexivity | now rewrite IH].
Qed.

Lemma mem_assign (k' k j : Z) (s : string) (d : FrameIndex) :
  mem k' (assign k j s d) = mem k' d.
Proof.
  destruct (mem k' d) eqn:E.
  - apply get_In_keys. rewrite keys_assign. now apply get_In_keys.
  - apply mem_false_iff. rewrite keys_assign. now apply mem_false_iff.
Qed.

End DictFacts.

(* ===================================================================== *)
(** ** The two passes of [load_task_data] in closed form *)
(* ===================================================================== *)

Lemma covers_range (j : Job) (k : Z) :
  covers j k = true <-> In k (range (start_frame j) (stop_frame j + 1)).
Proof.
  unfold covers. rewrite range_inclusive_In, andb_true_iff, !Z.leb_le. tauto.
Qed.

Lemma covers_iff (j : Job) (k : Z) :
  covers j k = true <-> start_frame j <= k <= stop_frame j.
Proof. rewrite covers_range. apply range_inclusive_In. Qed.

Lemma fst_stamp (j : Job) (kv : Z * Frame) : fst (stamp j kv) = fst kv.
Proof. unfold stamp. destruct (covers j (fst kv)); reflexivity. Qed.

Lemma fst_stamp_all (jobs : list Job) (kv : Z * Frame) :
  fst (stamp_all jobs kv) = fst kv.
Proof.
  unfold stamp_all. revert kv.
  induction jobs as [|j jobs IH]; intros kv; simpl; [reflexivity|].
  now rewrite IH, fst_stamp.
Qed.

Lemma keys_map_stamp (j : Job) (d : FrameIndex) :
  Dict.keys (map (stamp j) d) = Dict.keys d.
Proof.
  unfold Dict.keys. rewrite map_map. apply map_ext. intros kv. apply fst_stamp.
Qed.

Lemma stamp_all_app (l1 l2 : list Job) (kv : Z * Frame) :
  stamp_all (l1 ++ l2) kv = stamp_all l2 (stamp_all l1 kv).
Proof. unfold stamp_all. apply fold_left_app. Qed.

Lemma stamp_all_none (jobs : list Job) (kv : Z * Frame) :
  (forall j, In j jobs -> covers j (fst kv) = false) -> stamp_all jobs kv = kv.
Proof.
  unfold stamp_all. induction jobs as [|j jobs IH]; intros H; simpl; [reflexivity|].
  unfold stamp at 2. rewrite (H j (or_introl eq_refl)).
  apply IH. intros j' Hj'. apply H. now right.
Qed.

(** Last write wins: the last job that covers the key decides. *)
Lemma stamp_all_last (l1 l2 : list Job) (j : Job) (kv : Z * Frame) :
  covers j (fst kv) = true ->
  (forall j', In j' l2 -> covers j' (fst kv) = false) ->
  stamp_all (l1 ++ j :: l2) kv
  = (fst kv, with_job j (snd (stamp_all l1 kv))).
Proof.
  intros Hj Hl2. rewrite stamp_all_app.
  change (stamp_all (j :: l2) (stamp_all l1 kv))
    with (stamp_all l2 (stamp j (stamp_all l1 kv))).
  rewrite stamp_all_none.
  - unfold stamp. now rewrite fst_stamp_all, Hj.
  - intros j' Hj'. rewrite fst_stamp, fst_stamp_all. now apply Hl2.
Qed.

(** A list either has no element with [p], or a last one. *)
Lemma last_such {A} (p : A -> bool) (l : list A) :
  (forall x, In x l -> p x = false)
  \/ exists l1 x l2, l = l1 ++ x :: l2 /\ p x = true
                     /\ forall y, In y l2 -> p y = false.
Proof.
  induction l as [|a l IH].
  - left. intros x [].
  - destruct IH as [Hnone|[l1 [x [l2 [-> [Hx Hl2]]]]]].
    + destruct (p a) eqn:Ea.
      * right. exists [], a, l. repeat split; auto.
      * left. intros x [<-|Hx]; auto.
    + right. exists (a :: l1), x, l2. repeat split; auto.
Qed.

Lemma stamp_all_cases (jobs : list Job) (kv : Z * Frame) :
  ((forall j, In j jobs -> covers j (fst kv) = false) /\ stamp_all jobs kv = kv)
  \/ exists l1 j l2, jobs = l1 ++ j :: l2 /\ covers j (fst kv) = true
       /\ (forall j', In j' l2 -> covers j' (fst kv) = false)
       /\ stamp_all jobs kv = (fst kv, with_job j (snd (stamp_all l1 kv))).
Proof.
  destruct (last_such (fun j => covers j (fst kv)) jobs)
    as [Hnone|[l1 [j [l2 [-> [Hj Hl2]]]]]].
  - left. split; [exact Hnone | now apply stamp_all_none].
  - right. exists l1, j, l2. repeat split; auto. now apply stamp_all_last.
Qed.

Section Passes.

Import Dict DictFacts.

Lemma assign_as_map (j : Job) (k : Z) (d : FrameIndex) :
  NoDup (keys d) ->
  assign k (id j) (status j) d
  = map (fun kv => if Z.eqb (fst kv) k then (fst kv, with_job j (snd kv)) else kv) d.
Proof.
  unfold keys. induction d as [|[k' v] d IH]; simpl; intros ND; [reflexivity|].
  inversion ND as [|? ? Hnotin ND']; subst.
  destruct (Z.eqb_spec k' k) as [->|Hne].
  - f_equal. symmetry. rewrite <- (map_id d) at 2. apply map_ext_in.
    intros [k2 v2] Hin. simpl.
    destruct (Z.eqb_spec k2 k) as [->|]; [|reflexivity].
    exfalso. apply Hnotin. apply in_map_iff. now exists (k, v2).
  - now rewrite IH.
Qed.

(** The inner loop when every id is a key. *)
Lemma inner_loop_ok (j : Job) (ids : list Z) (d : FrameIndex) :
  NoDup (keys d) ->
  forallb (fun k => mem k d) ids = true ->
  for_each ids (assign_frame j) d
  = Ok (map (fun kv => if existsb (Z.eqb (fst kv)) ids
                       then (fst kv, with_job j (snd kv)) else kv) d).
Proof.
  revert d. induction ids as [|k ids IH]; intros d ND Hall; simpl.
  - rewrite <- (map_id d) at 1. reflexivity.
  - simpl in Hall. apply andb_true_iff in Hall. destruct Hall as [Hk Hall].
    unfold assign_frame at 1. rewrite Hk. simpl.
    rewrite IH.
    + rewrite assign_as_map by exact ND. rewrite map_map. f_equal.
      apply map_ext. intros [k' v]. simpl.
      destruct (Z.eqb k' k); simpl; [|reflexivity].
      destruct (existsb (Z.eqb k') ids); reflexivity.
    + now rewrite keys_assign.
    + rewrite <- Hall. apply forallb_ext. intros k'. apply mem_assign.
Qed.

(** The inner loop when some id is not a key: the assertion fails at one. *)
Lemma inner_loop_fail (j : Job) (ids : list Z) (d : FrameIndex) :
  forallb (fun k => mem k d) ids = false ->
  exists k, In k ids /\ mem k d = false
    /\ for_each ids (assign_frame j) d
       = Raise (AssertionError (missing_frame_msg (id j) k)).
Proof.
  revert d. induction ids as [|k ids IH]; intros d Hall; simpl in *; [discriminate|].
  destruct (mem k d) eqn:Hk; simpl in Hall.
  - destruct (IH (assign k (id j) (status j) d)) as [k' [Hin [Hmem Hrun]]].
    + rewrite <- Hall. apply forallb_ext. intros k'. apply mem_assign.
    + exists k'. rewrite mem_assign in Hmem. repeat split; auto.
      unfold assign_frame at 1. rewrite Hk. simpl. exact Hrun.
  - exists k. repeat split; auto.
    unfold assign_frame at 1. rewrite Hk. reflexivity.
Qed.

Lemma assign_job_ok (j : Job) (d : FrameIndex) :
  NoDup (keys d) -> job_fits d j = true ->
  assign_job j d = Ok (map (stamp j) d).
Proof.
  intros ND Hfit. unfold assign_job. rewrite inner_loop_ok by assumption.
  f_equal. apply map_ext. intros kv. unfold stamp.
  destruct (covers j (fst kv)) eqn:Hc.
  - apply covers_range in Hc.
    assert (E : existsb (Z.eqb (fst kv))
                  (range (start_frame j) (stop_frame j + 1)) = true).
    { apply existsb_exists. exists (fst kv). split; [exact Hc | apply Z.eqb_refl]. }
    now rewrite E.
  - destruct (existsb _ _) eqn:E; [|reflexivity].
    apply existsb_exists in E. destruct E as [k [Hin Hk]].
    apply Z.eqb_eq in Hk. subst k. apply covers_range in Hin. congruence.
Qed.

Lemma assign_job_fail (j : Job) (d : FrameIndex) :
  job_fits d j = false ->
  exists k, covers j k = true /\ mem k d = false
    /\ assign_job j d = Raise (AssertionError (missing_frame_msg (id j) k)).
Proof.
  intros Hfit. destruct (inner_loop_fail j _ d Hfit) as [k [Hin [Hmem Hrun]]].
  exists k. repeat split; auto. now apply covers_range.
Qed.

Lemma job_fits_stamp (j j' : Job) (d : FrameIndex) :
  job_fits (map (stamp j) d) j' = job_fits d j'.
Proof.
  unfold job_fits. apply forallb_ext. intros k.
  destruct (mem k d) eqn:E.
  - apply get_In_keys. rewrite keys_map_stamp. now apply get_In_keys.
  - apply mem_false_iff. rewrite keys_map_stamp. now apply mem_false_iff.
Qed.

(** The first pass when every job fits. *)
Lemma first_pass_ok (jobs : list Job) (d : FrameIndex) :
  NoDup (keys d) -> forallb (job_fits d) jobs = true ->
  for_each jobs assign_job d = Ok (map (stamp_all jobs) d).
Proof.
  revert d. induction jobs as [|j jobs IH]; intros d ND Hall; simpl.
  - unfold stamp_all. simpl. now rewrite map_id.
  - simpl in Hall. apply andb_true_iff in Hall. destruct Hall as [Hj Hall].
    rewrite assign_job_ok by assumption. simpl.
    rewrite IH.
    + now rewrite map_map.
    + now rewrite keys_map_stamp.
    + rewrite <- Hall. apply forallb_ext. intros j'. apply job_fits_stamp.
Qed.

(** The first pass when some job does not fit: the first such job raises. *)
Lemma first_pass_fail (jobs : list Job) (d : FrameIndex) :
  NoDup (keys d) -> forallb (job_fits d) jobs = false ->
  exists l1 j l2 k, jobs = l1 ++ j :: l2
    /\ forallb (job_fits d) l1 = true
    /\ covers j k = true /\ mem k d = false
    /\ for_each jobs assign_job d
       = Raise (AssertionError (missing_frame_msg (id j) k)).
Proof.
  revert d. induction jobs as [|j jobs IH]; intros d ND Hall; simpl in *; [discriminate|].
  destruct (job_fits d j) eqn:Hj; simpl in Hall.
  - destruct (IH (map (stamp j) d)) as [l1 [j' [l2 [k [-> [Hl1 [Hc [Hmem Hrun]]]]]]]].
    + now rewrite keys_map_stamp.
    + rewrite <- Hall. apply forallb_ext. intros j'. apply job_fits_stamp.
    + exists (j :: l1), j', l2, k. repeat split; auto.
      * simpl. rewrite Hj. simpl. rewrite <- Hl1.
        apply forallb_ext. intros x. symmetry. apply job_fits_stamp.
      * destruct (mem k d) eqn:E; [|reflexivity].
        apply get_In_keys in E. rewrite <- (keys_map_stamp j) in E.
        apply get_In_keys in E. congruence.
      * rewrite assign_job_ok by assumption. exact Hrun.
  - destruct (assign_job_fail j d Hj) as [k [Hc [Hmem Hrun]]].
    exists [], j, jobs, k. repeat split; auto. now rewrite Hrun.
Qed.

(** The second pass. *)
Lemma second_pass_ok (d : FrameIndex) :
  forallb has_job d = true -> for_each d check_frame tt = Ok tt.
Proof.
  induction d as [|kv d IH]; simpl; intros H; [reflexivity|].
  apply andb_true_iff in H. destruct H as [Hkv Hd].
  unfold check_frame at 1. unfold has_job in Hkv.
  destruct (job_id (snd kv)); [|discriminate]. simpl. now apply IH.
Qed.

Lemma second_pass_fail (d : FrameIndex) :
  forallb has_job d = false ->
  exists d1 kv d2, d = d1 ++ kv :: d2
    /\ forallb has_job d1 = true /\ job_id (snd kv) = None
    /\ for_each d check_frame tt
       = Raise (AssertionError (missing_job_msg (fst kv))).
Proof.
  induction d as [|kv d IH]; simpl; intros H; [discriminate|].
  destruct (has_job kv) eqn:Hkv; simpl in H.
  - destruct (IH H) as [d1 [kv' [d2 [-> [Hd1 [Hnone Hrun]]]]]].
    exists (kv :: d1), kv', d2. repeat split; auto.
    + simpl. now rewrite Hkv.
    + unfold check_frame at 1. unfold has_job in Hkv.
      destruct (job_id (snd kv)); [|discriminate]. exact Hrun.
  - exists [], kv, d. unfold has_job in Hkv. unfold check_frame at 1.
    destruct (job_id (snd kv)); [discriminate|]. repeat split; auto.
Qed.

End Passes.

(* ===================================================================== *)
(** ** The frame index before the passes *)
(* ===================================================================== *)

Lemma firstn_seq (n a len : nat) : firstn n (seq a len) = seq a (Nat.min n len).
Proof.
  revert a len. induction n as [|n IH]; intros a [|len]; simpl; try reflexivity.
  now rewrite IH.
Qed.

Lemma firstn_range (n : nat) (lo hi : Z) :
  firstn n (range lo hi) = range lo (Z.min hi (lo + Z.of_nat n)).
Proof.
  unfold range. rewrite firstn_map, firstn_seq. do 2 f_equal. lia.
Qed.

Lemma nth_error_range (lo hi : Z) (i : nat) :
  nth_error (range lo hi) i
  = if (i <? Z.to_nat (hi - lo))%nat then Some (lo + Z.of_nat i) else None.
Proof.
  unfold range. rewrite nth_error_map.
  destruct (Nat.ltb_spec i (Z.to_nat (hi - lo))) as [H|H].
  - rewrite nth_error_seq. apply Nat.ltb_lt in H. rewrite H. reflexivity.
  - rewrite nth_error_seq. apply Nat.ltb_ge in H. rewrite H. reflexivity.
Qed.

Lemma nth_error_combine {A B} (l : list A) (l' : list B) (i : nat) :
  nth_error (combine l l') i
  = match nth_error l i, nth_error l' i with
    | Some a, Some b => Some (a, b)
    | _, _ => None
    end.
Proof.
  revert l l'. induction i as [|i IH]; intros [|a l] [|b l']; simpl; try reflexivity.
  - destruct (nth_error l i); reflexivity.
  - apply IH.
Qed.

Section BuildFrames.

Variables (tid : Z) (task : FullTask) (meta : FullTaskMetadata).

Let ids : list Z := range (tm_start_frame meta) (tm_stop_frame meta + 1).

Lemma build_frames_items :
  build_frames tid task meta
  = map (fun p => (fst p, make_frame tid task (fst p) (snd p)))
        (combine ids (tm_frames meta)).
Proof.
  unfold build_frames. apply DictFacts.of_items_NoDup.
  unfold Dict.keys. rewrite map_map. simpl.
  rewrite map_fst_combine. apply firstn_NoDup, range_NoDup.
Qed.

Lemma keys_build_frames :
  Dict.keys (build_frames tid task meta)
  = firstn (List.length (tm_frames meta)) ids.
Proof.
  rewrite build_frames_items. unfold Dict.keys. rewrite map_map. simpl.
  apply map_fst_combine.
Qed.

Lemma keys_build_frames_NoDup : NoDup (Dict.keys (build_frames tid task meta)).
Proof. rewrite keys_build_frames. apply firstn_NoDup, range_NoDup. Qed.

Lemma keys_build_frames_iff (k : Z) :
  In k (Dict.keys (build_frames tid task meta)) <-> in_index meta k.
Proof.
  rewrite keys_build_frames. unfold ids, in_index.
  rewrite firstn_range, range_In. lia.
Qed.

Lemma build_frames_fresh (kv : Z * Frame) :
  In kv (build_frames tid task meta) ->
  job_id (snd kv) = None /\ frame_status (snd kv) = None.
Proof.
  rewrite build_frames_items. intros H. apply in_map_iff in H.
  destruct H as [p [<- _]]. split; reflexivity.
Qed.

Lemma nth_error_build_frames (i : nat) :
  nth_error (build_frames tid task meta) i
  = match nth_error ids i, nth_error (tm_frames meta) i with
    | Some k, Some x => Some (k, make_frame tid task k x)
    | _, _ => None
    end.
Proof.
  rewrite build_frames_items, nth_error_map, nth_error_combine.
  destruct (nth_error ids i); [|reflexivity].
  destruct (nth_error (tm_frames meta) i); reflexivity.
Qed.

End BuildFrames.

Lemma image_id_with_job (j : Job) (v : Frame) : image_id (with_job j v) = image_id v.
Proof. reflexivity. Qed.

Lemma image_id_stamp_all (jobs : list Job) (kv : Z * Frame) :
  image_id (snd (stamp_all jobs kv)) = image_id (snd kv).
Proof.
  unfold stamp_all. revert kv.
  induction jobs as [|j jobs IH]; intros kv; simpl; [reflexivity|].
  rewrite IH. unfold stamp. destruct (covers j (fst kv)); reflexivity.
Qed.

(** After the first pass an entry that started without a job has one exactly
    when some job covers its key. *)
Lemma has_job_stamp_all (jobs : list Job) (kv : Z * Frame) :
  job_id (snd kv) = None ->
  has_job (stamp_all jobs kv) = existsb (fun j => covers j (fst kv)) jobs.
Proof.
  intros Hnone.
  destruct (stamp_all_cases jobs kv) as [[Hno E]|[l1 [j [l2 [-> [Hj [Hl2 E]]]]]]].
  - rewrite E. unfold has_job. rewrite Hnone. symmetry.
    destruct (existsb _ jobs) eqn:X; [|reflexivity].
    apply existsb_exists in X. destruct X as [j [Hin Hc]].
    rewrite (Hno j Hin) in Hc. discriminate.
  - rewrite E. unfold has_job. simpl. symmetry.
    apply existsb_exists. exists j. split; [|exact Hj].
    apply in_or_app. right. now left.
Qed.

(* ===================================================================== *)
(** ** The outcomes of [load_task_data] *)
(* ===================================================================== *)

Lemma single_jobs_iff (task : FullTask) :
  single_jobs task = true
  <-> Forall (fun s => List.length (seg_jobs s) = 1%nat) (ft_segments task).
Proof.
  unfold single_jobs. rewrite forallb_forall, Forall_forall.
  split; intros H s Hs; apply Nat.eqb_eq; auto.
Qed.

Lemma single_jobs_false_iff (task : FullTask) :
  single_jobs task = false
  <-> exists s, In s (ft_segments task) /\ List.length (seg_jobs s) <> 1%nat.
Proof.
  unfold single_jobs. split.
  - intros H. induction (ft_segments task) as [|s l IH]; simpl in H; [discriminate|].
    destruct (Nat.eqb_spec (List.length (seg_jobs s)) 1) as [E|E]; simpl in H.
    + destruct (IH H) as [s' [Hin Hs']]. exists s'. split; [now right | exact Hs'].
    + exists s. split; [now left | exact E].
  - intros [s [Hin Hs]]. destruct (forallb _ _) eqn:E; [|reflexivity].
    rewrite forallb_forall in E. apply E in Hin. apply Nat.eqb_eq in Hin. contradiction.
Qed.

(** With one job per segment the job list has one job per segment. *)
Lemma derive_jobs_length (task : FullTask) :
  single_jobs task = true ->
  List.length (derive_jobs task) = List.length (ft_segments task).
Proof.
  unfold single_jobs, derive_jobs.
  induction (ft_segments task) as [|s l IH]; simpl; intros H; [reflexivity|].
  apply andb_true_iff in H. destruct H as [Hs Hl]. apply Nat.eqb_eq in Hs.
  rewrite length_app, length_map, Hs, (IH Hl). reflexivity.
Qed.

Section Outcomes.

Variables (tid : Z) (task : FullTask) (meta : FullTaskMetadata).

Let d0 : FrameIndex := build_frames tid task meta.
Let jobs : list Job := derive_jobs task.

Lemma load_multi_job :
  single_jobs task = false ->
  load_task_data tid task meta = Raise (AssertionError multi_job_msg).
Proof.
  intros H. unfold load_task_data. fold (single_jobs task). now rewrite H.
Qed.

Lemma load_missing_frame :
  single_jobs task = true ->
  forallb (job_fits d0) jobs = false ->
  exists l1 j l2 k, jobs = l1 ++ j :: l2
    /\ forallb (job_fits d0) l1 = true
    /\ covers j k = true /\ ~ In k (Dict.keys d0)
    /\ load_task_data tid task meta
       = Raise (AssertionError (missing_frame_msg (id j) k)).
Proof.
  intros H1 H3.
  destruct (first_pass_fail jobs d0 (keys_build_frames_NoDup tid task meta) H3)
    as [l1 [j [l2 [k [E [Hl1 [Hc [Hmem Hrun]]]]]]]].
  exists l1, j, l2, k. repeat split; auto.
  - now apply DictFacts.mem_false_iff.
  - unfold load_task_data. fold (single_jobs task). rewrite H1. simpl.
    fold jobs. fold d0. now rewrite Hrun.
Qed.

Lemma load_missing_job :
  single_jobs task = true ->
  forallb (job_fits d0) jobs = true ->
  forallb has_job (map (stamp_all jobs) d0) = false ->
  exists k, In k (Dict.keys d0)
    /\ (forall j, In j jobs -> covers j k = false)
    /\ load_task_data tid task meta
       = Raise (AssertionError (missing_job_msg k)).
Proof.
  intros H1 H3 H4.
  destruct (second_pass_fail _ H4) as [d1 [kv [d2 [E [_ [Hnone Hrun]]]]]].
  assert (Hin : In kv (map (stamp_all jobs) d0)).
  { rewrite E. apply in_or_app. right. now left. }
  apply in_map_iff in Hin. destruct Hin as [kv0 [Ekv Hin0]].
  exists (fst kv). repeat split.
  - rewrite <- Ekv, fst_stamp_all. apply in_map. exact Hin0.
  - intros j Hj.
    pose proof (has_job_stamp_all jobs kv0
                  (proj1 (build_frames_fresh tid task meta kv0 Hin0))) as Hh.
    rewrite Ekv in Hh. unfold has_job in Hh at 1. rewrite Hnone in Hh.
    rewrite <- Ekv, fst_stamp_all.
    destruct (covers j (fst kv0)) eqn:Hc; [|reflexivity].
    symmetry in Hh. assert (X : existsb (fun j0 => covers j0 (fst kv0)) jobs = true).
    { apply existsb_exists. now exists j. }
    congruence.
  - unfold load_task_data. fold (single_jobs task). rewrite H1. simpl.
    fold jobs. fold d0.
    rewrite (first_pass_ok jobs d0 (keys_build_frames_NoDup tid task meta) H3).
    simpl. now rewrite Hrun.
Qed.

Lemma load_ok :
  single_jobs task = true ->
  forallb (job_fits d0) jobs = true ->
  forallb has_job (map (stamp_all jobs) d0) = true ->
  load_task_data tid task meta = Ok (task, jobs, map (stamp_all jobs) d0).
Proof.
  intros H1 H3 H4.
  unfold load_task_data. fold (single_jobs task). rewrite H1. simpl.
  fold jobs. fold d0.
  rewrite (first_pass_ok jobs d0 (keys_build_frames_NoDup tid task meta) H3).
  simpl. now rewrite (second_pass_ok _ H4).
Qed.

(** Whatever [load_task_data] returns is the stamped initial index. *)
Lemma load_ok_inv (t : FullTask) (js : list Job) (frames : FrameIndex) :
  load_task_data tid task meta = Ok (t, js, frames) ->
  t = task /\ js = jobs /\ frames = map (stamp_all jobs) d0
  /\ single_jobs task = true
  /\ forallb (job_fits d0) jobs = true
  /\ forallb has_job frames = true.
Proof.
  intros H.
  destruct (single_jobs task) eqn:H1; [|rewrite load_multi_job in H; congruence].
  destruct (forallb (job_fits d0) jobs) eqn:H3.
  - destruct (forallb has_job (map (stamp_all jobs) d0)) eqn:H4.
    + rewrite (load_ok H1 H3 H4) in H. inversion H; subst. repeat split; auto.
    + destruct (load_missing_job H1 H3 H4) as [k [_ [_ E]]]. congruence.
  - destruct (load_missing_frame H1 H3) as [l1 [j [l2 [k [_ [_ [_ [_ E]]]]]]]].
    congruence.
Qed.

Lemma job_fits_all_iff :
  forallb (job_fits d0) jobs = true
  <-> forall j k, In j jobs -> covers j k = true -> In k (Dict.keys d0).
Proof.
  rewrite forallb_forall. split.
  - intros H j k Hj Hc. specialize (H j Hj). unfold job_fits in H.
    rewrite forallb_forall in H. apply DictFacts.get_In_keys. apply H.
    now apply covers_range.
  - intros H j Hj. unfold job_fits. apply forallb_forall. intros k Hk.
    apply DictFacts.get_In_keys. apply (H j k Hj). now apply covers_range.
Qed.

Lemma has_job_all_iff :
  forallb has_job (map (stamp_all jobs) d0) = true
  <-> forall k, In k (Dict.keys d0) -> exists j, In j jobs /\ covers j k = true.
Proof.
  rewrite forallb_forall. split.
  - intros H k Hk. apply in_map_iff in Hk. destruct Hk as [kv [<- Hin]].
    specialize (H (stamp_all jobs kv) (in_map _ _ _ Hin)).
    rewrite has_job_stamp_all in H
      by apply (build_frames_fresh tid task meta kv Hin).
    apply existsb_exists in H. exact H.
  - intros H kv' Hin'. apply in_map_iff in Hin'. destruct Hin' as [kv [<- Hin]].
    rewrite has_job_stamp_all
      by apply (build_frames_fresh tid task meta kv Hin).
    apply existsb_exists. apply H. now apply in_map.
Qed.

(** Every entry of a returned index carries the id and the status of the last
    job of the list that covers its key. *)
Lemma load_ok_entry (t : FullTask) (js : list Job) (frames : FrameIndex)
    (k : Z) (v : Frame) :
  load_task_data tid task meta = Ok (t, js, frames) ->
  In (k, v) frames ->
  exists l1 j l2, js = l1 ++ j :: l2 /\ covers j k = true
    /\ (forall j', In j' l2 -> covers j' k = false)
    /\ job_id v = Some (id j) /\ frame_status v = Some (status j).
Proof.
  intros H Hin.
  destruct (load_ok_inv t js frames H) as [-> [-> [-> [_ [_ H4]]]]].
  pose proof Hin as Hin'.
  apply in_map_iff in Hin. destruct Hin as [kv [E Hin0]].
  assert (Ek : fst kv = k) by (rewrite <- (fst_stamp_all jobs kv), E; reflexivity).
  destruct (stamp_all_cases jobs kv) as [[Hno E']|[l1 [j [l2 [Ej [Hj [Hl2 E']]]]]]].
  - exfalso. rewrite forallb_forall in H4. specialize (H4 _ Hin').
    unfold has_job in H4. simpl in H4.
    rewrite E' in E. subst kv.
    pose proof (proj1 (build_frames_fresh tid task meta _ Hin0)) as X.
    simpl in X. rewrite X in H4. discriminate.
  - exists l1, j, l2. rewrite Ek in *. repeat split; auto.
    + rewrite E' in E. inversion E; subst. reflexivity.
    + rewrite E' in E. inversion E; subst. reflexivity.
Qed.

End Outcomes.


Lemma in_index_full (meta : FullTaskMetadata) (k : Z) :
  frame_count_matches meta ->
  (in_index meta k <-> tm_start_frame meta <= k <= tm_stop_frame meta).
Proof. unfold frame_count_matches, in_index. lia. Qed.

(** The loader returns the stamped index whenever invariants 1, 3 and 4
    hold; the frame count plays no part. *)
Lemma load_valid (tid : Z) (task : FullTask) (meta : FullTaskMetadata) :
  one_job_per_segment task ->
  jobs_within_index task meta ->
  index_covered task meta ->
  load_task_data tid task meta
  = Ok (task, derive_jobs task,
        map (stamp_all (derive_jobs task)) (build_frames tid task meta)).
Proof.
  intros H1 H3 H4. apply load_ok.
  - now apply single_jobs_iff.
  - apply job_fits_all_iff. intros j k Hj Hc.
    apply keys_build_frames_iff. apply (H3 j k Hj). now apply covers_iff.
  - apply has_job_all_iff. intros k Hk. apply keys_build_frames_iff in Hk.
    destruct (H4 k Hk) as [j [Hj Hc]]. exists j. split; [exact Hj|].
    now apply covers_iff.
Qed.

Lemma keys_map_stamp_all (jobs : list Job) (d : FrameIndex) :
  Dict.keys (map (stamp_all jobs) d) = Dict.keys d.
Proof.
  unfold Dict.keys. rewrite map_map. apply map_ext. intros kv.
  apply fst_stamp_all.
Qed.

(** Every exception of the loader is one of its three assertions. *)
Lemma load_raise_inv (tid : Z) (task : FullTask) (meta : FullTaskMetadata)
    (e : exn) :
  load_task_data tid task meta = Raise e ->
  e = AssertionError multi_job_msg
  \/ (exists j k, In j (derive_jobs task) /\ covers j k = true
        /\ ~ in_index meta k
        /\ e = AssertionError (missing_frame_msg (id j) k))
  \/ (exists k, in_index meta k
        /\ (forall j, In j (derive_jobs task) -> covers j k = false)
        /\ e = AssertionError (missing_job_msg k)).
Proof.
  intros H.
  destruct (single_jobs task) eqn:H1;
    [|rewrite load_multi_job in H by exact H1; left; congruence].
  destruct (forallb (job_fits (build_frames tid task meta)) (derive_jobs task)) eqn:H3.
  - destruct (forallb has_job (map (stamp_all (derive_jobs task))
                                   (build_frames tid task meta))) eqn:H4.
    + rewrite (load_ok tid task meta H1 H3 H4) in H. discriminate.
    + destruct (load_missing_job tid task meta H1 H3 H4) as [k [Hk [Hno E]]].
      right. right. exists k. split; [|split].
      * now apply keys_build_frames_iff in Hk.
      * exact Hno.
      * congruence.
  - destruct (load_missing_frame tid task meta H1 H3)
      as [l1 [j [l2 [k [Ej [_ [Hc [Hk E]]]]]]]].
    right. left. exists j, k. split; [|split; [|split]].
    + rewrite Ej. apply in_or_app. right. now left.
    + exact Hc.
    + intros X. apply Hk. now apply keys_build_frames_iff.
    + congruence.
Qed.

(* ===================================================================== *)
(** ** Facts about running interaction trees *)
(* ===================================================================== *)

Local Open Scope itree_scope.

Section RunFacts.

Variable server : Server.
Variable unzip : bytes -> option Archive.

Local Abbreviation exec := (exec server unzip).
Local Abbreviation run := (run server unzip).
Local Abbreviation takes := (takes server unzip).
Local Abbreviation runs := (runs server unzip).
Local Abbreviation diverges := (diverges server unzip).
Local Abbreviation handle := (handle server unzip).

Lemma exec_ret {R} (n : nat) (r : R) (w : World) :
  exec n (Ret r) w = Some (r, w, n).
Proof. destruct n; reflexivity. Qed.

Lemma exec_tau {R} (n : nat) (t : itree ioE R) (w : World) :
  exec (S n) (Tau t) w = exec n t w.
Proof. reflexivity. Qed.

Lemma exec_trigger {T} (n : nat) (e : ioE T) (w : World) :
  exec (S n) (ITree.trigger e) w
  = Some (fst (handle e w), log e (snd (handle e w)), n).
Proof. simpl. apply exec_ret. Qed.

(** Running [t] and then [k] is running [k] on what is left of the fuel. *)
Lemma exec_bind {R S} (n : nat) (t : itree ioE R) (k : R -> itree ioE S)
    (w : World) :
  exec n (ITree.bind t k) w
  = match exec n t w with
    | Some (r, w', m) => exec m (k r) w'
    | None => None
    end.
Proof.
  revert t w. induction n as [|n IH]; intros t w.
  - simpl. destruct (observe t) eqn:E; simpl; reflexivity.
  - simpl. destruct (observe t) eqn:E; simpl.
    + reflexivity.
    + apply IH.
    + apply IH.
Qed.

Lemma exec_iter {I R} (n : nat) (body : I -> itree ioE (I + R)) (i : I)
    (w : World) :
  exec n (ITree.iter body i) w
  = match exec n (body i) w with
    | Some (inl i', w', S m) => exec m (ITree.iter body i') w'
    | Some (inl _, _, O) => None
    | Some (inr r, w', m) => Some (r, w', m)
    | None => None
    end.
Proof.
  transitivity
    (exec n (ITree.bind (body i)
               (fun lr => match lr with
                          | inl l => Tau (ITree.iter body l)
                          | inr r => Ret r
                          end)) w).
  - destruct n; reflexivity.
  - rewrite exec_bind.
    destruct (exec n (body i) w) as [[[[i'|r] w'] m]|]; [| |reflexivity].
    + destruct m; reflexivity.
    + apply exec_ret.
Qed.

(** The fuel left never exceeds the fuel given. *)
Lemma exec_left_le {R} (n : nat) (t : itree ioE R) (w : World) x m :
  exec n t w = Some (x, m) -> (m <= n)%nat.
Proof.
  revert t w. induction n as [|n IH]; intros t w; simpl;
    destruct (observe t); intros H; try discriminate.
  - inversion H; lia.
  - inversion H; lia.
  - apply IH in H. lia.
  - apply IH in H. lia.
Qed.

(** More fuel changes nothing but the fuel left. *)
Lemma exec_more {R} (n d : nat) (t : itree ioE R) (w : World) x m :
  exec n t w = Some (x, m) -> exec (n + d) t w = Some (x, m + d)%nat.
Proof.
  revert t w. induction n as [|n IH]; intros t w; simpl;
    destruct (observe t) eqn:E; intros H; try discriminate.
  - inversion H; subst. destruct d; simpl; rewrite E; reflexivity.
  - inversion H; subst. reflexivity.
  - now apply IH.
  - now apply IH.
Qed.

Lemma takes_runs {R} (t : itree ioE R) (w : World) (r : R) (w' : World) c :
  takes t w r w' c -> runs t w r w'.
Proof.
  intros H. exists c. intros fuel Hf. unfold run.
  replace fuel with (c + (fuel - c))%nat by lia. now rewrite H.
Qed.

Lemma takes_short {R} (t : itree ioE R) (w : World) (r : R) (w' : World) c n :
  takes t w r w' c -> (n < c)%nat -> exec n t w = None.
Proof.
  intros H Hn. destruct (exec n t w) as [[x m]|] eqn:E; [|reflexivity].
  apply (exec_more n (c - n)) in E.
  replace (n + (c - n))%nat with (c + 0)%nat in E by lia.
  rewrite H in E. inversion E. lia.
Qed.

Lemma takes_exact {R} (t : itree ioE R) (w : World) (r : R) (w' : World) c n :
  takes t w r w' c -> (c <= n)%nat -> exec n t w = Some (r, w', (n - c)%nat).
Proof.
  intros H Hn. replace n with (c + (n - c))%nat at 1 by lia. apply H.
Qed.

Lemma takes_ret {R} (r : R) (w : World) : takes (Ret r) w r w 0.
Proof. intros n. apply exec_ret. Qed.

Lemma takes_trigger {T} (e : ioE T) (w : World) :
  takes (ITree.trigger e) w (fst (handle e w)) (log e (snd (handle e w))) 1.
Proof. intros n. apply exec_trigger. Qed.

Lemma takes_bind {R S} (t : itree ioE R) (k : R -> itree ioE S)
    (w w1 w2 : World) (r : R) (s : S) (c1 c2 : nat) :
  takes t w r w1 c1 -> takes (k r) w1 s w2 c2 ->
  takes (ITree.bind t k) w s w2 (c1 + c2).
Proof.
  intros H1 H2 n. rewrite exec_bind, <- Nat.add_assoc, H1. apply H2.
Qed.

Lemma takes_iter_stop {I R} (body : I -> itree ioE (I + R)) (i : I)
    (w w1 : World) (r : R) (c : nat) :
  takes (body i) w (inr r) w1 c -> takes (ITree.iter body i) w r w1 c.
Proof. intros H n. now rewrite exec_iter, H. Qed.

Lemma takes_iter_again {I R} (body : I -> itree ioE (I + R)) (i i' : I)
    (w w1 w2 : World) (r : R) (c1 c2 : nat) :
  takes (body i) w (inl i') w1 c1 ->
  takes (ITree.iter body i') w1 r w2 c2 ->
  takes (ITree.iter body i) w r w2 (c1 + S c2).
Proof.
  intros H1 H2 n. rewrite exec_iter, <- Nat.add_assoc, H1. simpl. apply H2.
Qed.

(** A program returns at most one result. *)
Lemma runs_unique {R} (t : itree ioE R) (w : World) (r r' : R) (w1 w2 : World) :
  runs t w r w1 -> runs t w r' w2 -> r = r' /\ w1 = w2.
Proof.
  intros [f1 H1] [f2 H2].
  specialize (H1 (Nat.max f1 f2) (Nat.le_max_l _ _)).
  specialize (H2 (Nat.max f1 f2) (Nat.le_max_r _ _)).
  rewrite H1 in H2. inversion H2. auto.
Qed.

Lemma runs_not_diverges {R} (t : itree ioE R) (w : World) (r : R) (w' : World) :
  runs t w r w' -> ~ diverges t w.
Proof. intros [f H] D. specialize (H f (Nat.le_refl f)). rewrite D in H. discriminate. Qed.

(** An event followed by the rest of the program. *)
Lemma exec_bind_trigger {T U} (n : nat) (e : ioE T) (k : T -> itree ioE U)
    (w : World) :
  exec (S n) (ITree.bind (ITree.trigger e) k) w
  = exec n (k (fst (handle e w))) (log e (snd (handle e w))).
Proof. rewrite exec_bind, exec_trigger. reflexivity. Qed.

Lemma exec_bind_ret {R U} (n : nat) (r : R) (k : R -> itree ioE U) (w : World) :
  exec n (ITree.bind (Ret r) k) w = exec n (k r) w.
Proof. rewrite exec_bind, exec_ret. reflexivity. Qed.

End RunFacts.

Arguments exec server unzip {R} fuel t w : simpl never.

(* ===================================================================== *)
(** ** Facts about traces, chunks and files *)
(* ===================================================================== *)

Lemma sleeps_app (l1 l2 : list event) :
  sleeps (l1 ++ l2) = (sleeps l1 + sleeps l2)%nat.
Proof. unfold sleeps. now rewrite filter_app, length_app. Qed.

Lemma sleeps_round (url : string) (resp : Response) :
  sleeps (round_events url resp) = 1%nat.
Proof.
  unfold round_events. destruct (status_code resp =? 500); reflexivity.
Qed.

Lemma flat_map_seq_shift {A} (f : nat -> list A) (a n : nat) :
  flat_map f (seq (S a) n) = flat_map (fun i => f (S i)) (seq a n).
Proof.
  revert a. induction n as [|n IH]; intros a; simpl; [reflexivity|].
  now rewrite IH.
Qed.

Lemma polling_events_S (url : string) (server : Server) (first n : nat) :
  polling_events url server first (S n)
  = round_events url (export_answers server first)
    ++ polling_events url server (S first) n.
Proof.
  unfold polling_events. simpl. rewrite Nat.add_0_r, <- app_assoc.
  rewrite flat_map_seq_shift.
  rewrite (flat_map_ext (fun i => round_events url (export_answers server (first + S i)))
                        (fun i => round_events url (export_answers server (S (first + i))))).
  - reflexivity.
  - intros i. now rewrite Nat.add_succ_r.
Qed.

Lemma sleeps_polling (url : string) (server : Server) (first n : nat) :
  sleeps (polling_events url server first n) = n.
Proof.
  revert first. induction n as [|n IH]; intros first.
  - reflexivity.
  - rewrite polling_events_S, sleeps_app, sleeps_round, IH. reflexivity.
Qed.

Lemma extracted_app (l1 l2 : list event) :
  extracted (l1 ++ l2) = extracted l1 ++ extracted l2.
Proof. unfold extracted. apply flat_map_app. Qed.



Lemma extracted_stream (resp : Response) (path : string) (cs : list bytes) :
  extracted (stream_events resp path cs) = [].
Proof.
  unfold stream_events. rewrite extracted_app. simpl. rewrite app_nil_r.
  induction cs as [|c cs IH]; simpl; [reflexivity | exact IH].
Qed.







Lemma writes_only_stream (resp : Response) (path : string) (cs : list bytes) :
  forallb (writes_only path) (stream_events resp path cs) = true.
Proof.
  unfold stream_events. rewrite forallb_app. simpl. rewrite andb_true_r.
  induction cs as [|c cs IH]; simpl; [reflexivity|].
  unfold writes_only at 1. simpl. now rewrite String.eqb_refl.
Qed.

Section Chunks.

Variable size : Z.
Hypothesis size_pos : 0 < size.

Lemma take_chunk_cons (data : bytes) :
  data <> [] ->
  take_chunk size data
  = Some (firstn (Z.to_nat size) data, skipn (Z.to_nat size) data).
Proof. destruct data; [contradiction | reflexivity]. Qed.

Lemma take_chunk_shrinks (data chunk rest : bytes) :
  take_chunk size data = Some (chunk, rest) ->
  (List.length rest < List.length data)%nat
  /\ chunk ++ rest = data
  /\ (0 < List.length chunk <= Z.to_nat size)%nat.
Proof.
  destruct data as [|x data]; [discriminate|].
  unfold take_chunk. intros H. inversion H; subst; clear H.
  assert (Hn : (0 < Z.to_nat size)%nat) by lia.
  split; [|split].
  - rewrite length_skipn. cbn [List.length]. lia.
  - apply firstn_skipn.
  - rewrite length_firstn. cbn [List.length]. lia.
Qed.

Lemma chunks_of_enough (fuel : nat) (data : bytes) :
  (List.length data <= fuel)%nat ->
  chunks_of fuel size data = chunks size data.
Proof.
  unfold chunks.
  remember (List.length data) as n eqn:En.
  revert fuel data En.
  induction n as [n IH] using lt_wf_ind. intros fuel data En Hf.
  destruct data as [|x data].
  - subst n. destruct fuel; reflexivity.
  - destruct fuel as [|fuel]; [simpl in En; lia|].
    destruct n as [|n]; [discriminate|].
    simpl chunks_of.
    pose proof (take_chunk_shrinks (x :: data) _ _ eq_refl) as [Hlt _].
    set (rest := skipn (Z.to_nat size) (x :: data)) in *.
    f_equal.
    rewrite (IH (List.length rest)) with (fuel := fuel) (data := rest);
      [|simpl in *; lia|reflexivity|simpl in *; lia].
    rewrite (IH (List.length rest)) with (fuel := n) (data := rest);
      [reflexivity|simpl in *; lia|reflexivity|simpl in *; lia].
Qed.

Lemma chunks_nil : chunks size [] = [].
Proof. reflexivity. Qed.

Lemma chunks_step (data chunk rest : bytes) :
  take_chunk size data = Some (chunk, rest) ->
  chunks size data = chunk :: chunks size rest.
Proof.
  intros H. pose proof (take_chunk_shrinks _ _ _ H) as [Hlt _].
  unfold chunks at 1. destruct data as [|x data]; [discriminate|].
  cbn [List.length chunks_of]. rewrite H. f_equal.
  apply chunks_of_enough. cbn [List.length] in Hlt. lia.
Qed.


End Chunks.

Lemma read_write_file (path : string) (data : bytes) (fs : list (string * bytes)) :
  read_file path (write_file path data fs) = Some data.
Proof. unfold read_file, write_file. simpl. now rewrite String.eqb_refl. Qed.

Lemma read_append_file (path : string) (acc chunk : bytes)
    (fs : list (string * bytes)) :
  read_file path fs = Some acc ->
  read_file path (append_file path chunk fs) = Some (acc ++ chunk).
Proof. intros H. unfold append_file. rewrite H. apply read_write_file. Qed.


(* ===================================================================== *)
(** ** The polling loop *)
(* ===================================================================== *)

Section Polling.

Variable server : Server.
Variable unzip : bytes -> option Archive.
Variable url : string.

Local Abbreviation exec := (exec server unzip).
Local Abbreviation takes := (takes server unzip).

(** A round that got an answer other than 201 sleeps once and goes on. *)
Lemma poll_once_again (w : World) :
  status_code (export_answers server (polls w)) <> 201 ->
  exists c, (0 < c)%nat /\
    takes (poll_once url tt) w (inl tt)
          (polled w 1 (round_events url (export_answers server (polls w)))) c.
Proof.
  intros H. apply Z.eqb_neq in H.
  destruct (status_code (export_answers server (polls w)) =? 500) eqn:E500.
  - exists 4%nat. split; [lia|]. intros n. unfold poll_once.
    cbn [Nat.add]. rewrite exec_bind_trigger. cbn.
    rewrite H, E500.
    rewrite exec_bind, exec_bind_trigger. cbn.
    rewrite exec_trigger. cbn. rewrite exec_bind_trigger. cbn.
    rewrite exec_ret.
    unfold polled, round_events, log. cbn. rewrite E500.
    rewrite Nat.add_1_r, <- !app_assoc. reflexivity.
  - exists 2%nat. split; [lia|]. intros n. unfold poll_once.
    cbn [Nat.add]. rewrite exec_bind_trigger. cbn.
    rewrite H, E500.
    rewrite exec_bind_ret, exec_bind_trigger. cbn. rewrite exec_ret.
    unfold polled, round_events, log. cbn. rewrite E500.
    rewrite Nat.add_1_r, <- !app_assoc. reflexivity.
Qed.

(** A round that got 201 leaves the loop without sleeping. *)
Lemma poll_once_stop (w : World) :
  status_code (export_answers server (polls w)) = 201 ->
  takes (poll_once url tt) w (inr tt)
        (polled w 1 [ev (Get url export_params false)]) 1.
Proof.
  intros H. apply Z.eqb_eq in H. intros n. unfold poll_once.
  cbn [Nat.add]. rewrite exec_bind_trigger. cbn.
  rewrite H, exec_ret. unfold polled, log. cbn. rewrite Nat.add_1_r. reflexivity.
Qed.

Lemma polled_polled (w : World) (n m : nat) (e1 e2 : list event) :
  polled (polled w n e1) m e2 = polled w (n + m) (e1 ++ e2).
Proof. unfold polled. simpl. now rewrite Nat.add_assoc, app_assoc. Qed.

(** After [n] answers other than 201 and one 201 the loop is left. *)
Lemma wait_export_takes (n : nat) (w : World) :
  (forall i, (i < n)%nat ->
             status_code (export_answers server (polls w + i)) <> 201) ->
  status_code (export_answers server (polls w + n)) = 201 ->
  exists c,
    takes (wait_export url) w tt
          (polled w (S n) (polling_events url server (polls w) n)) c.
Proof.
  revert w. induction n as [|n IH]; intros w Hno Hyes.
  - rewrite Nat.add_0_r in Hyes. exists 1%nat.
    apply takes_iter_stop. apply (poll_once_stop w Hyes).
  - assert (H0 : status_code (export_answers server (polls w)) <> 201).
    { specialize (Hno 0%nat ltac:(lia)). now rewrite Nat.add_0_r in Hno. }
    destruct (poll_once_again w H0) as [c1 [_ H1]].
    set (w1 := polled w 1 (round_events url (export_answers server (polls w)))) in *.
    destruct (IH w1) as [c2 H2].
    + intros i Hi. simpl. rewrite <- Nat.add_assoc. apply Hno. lia.
    + simpl. now rewrite <- Nat.add_assoc.
    + exists (c1 + S c2)%nat.
      unfold wait_export.
      replace (polled w (S (S n)) (polling_events url server (polls w) (S n)))
        with (polled w1 (S n) (polling_events url server (polls w1) n)).
      * eapply takes_iter_again; [exact H1 | exact H2].
      * unfold w1. rewrite polled_polled, polling_events_S. simpl.
        now rewrite Nat.add_1_r.
Qed.

(** Without a 201 the loop never ends, whatever the answers are. *)
Lemma wait_export_never (fuel : nat) (w : World) :
  (forall i, status_code (export_answers server (polls w + i)) <> 201) ->
  exec fuel (wait_export url) w = None.
Proof.
  revert w. induction fuel as [fuel IH] using lt_wf_ind. intros w Hno.
  unfold wait_export. rewrite exec_iter.
  assert (H0 : status_code (export_answers server (polls w)) <> 201).
  { specialize (Hno 0%nat). now rewrite Nat.add_0_r in Hno. }
  destruct (poll_once_again w H0) as [c [Hc H1]].
  destruct (Nat.lt_ge_cases fuel c) as [Hlt|Hge].
  - now rewrite (takes_short server unzip _ _ _ _ _ _ H1 Hlt).
  - rewrite (takes_exact server unzip _ _ _ _ _ _ H1 Hge).
    destruct (fuel - c)%nat as [|m] eqn:Em; [reflexivity|].
    apply IH; [lia|].
    intros i. simpl. rewrite <- Nat.add_assoc. apply Hno.
Qed.

End Polling.

Arguments take_chunk chunk_size data : simpl never.
Arguments keep_in_memory DOWNLOAD_THRESHOLD_GB content_length : simpl never.
Arguments raise_for_status resp : simpl never.
Arguments dir_exists path ds : simpl never.
Arguments zip_path output_path task_id : simpl never.
Arguments task_dir task_id : simpl never.
Arguments PyStr.path_join a b : simpl never.
Arguments stream_events resp path cs : simpl never.
Arguments chunks size data : simpl never.
Arguments extracted_msg n output_task_path : simpl never.
Arguments path_error path : simpl never.

(* ===================================================================== *)
(** ** Fetching the archive *)
(* ===================================================================== *)



Section Fetch.

Variable server : Server.
Variable unzip : bytes -> option Archive.
Variable DOWNLOAD_THRESHOLD_GB : float.
Variable py_float : string -> option float.
Variables (url : string) (task_id : Z) (output_path : string).

Local Abbreviation exec := (exec server unzip).
Local Abbreviation takes := (takes server unzip).
Local Abbreviation resp := (download_answer server).
Local Abbreviation zip := (zip_path output_path task_id).
Local Abbreviation fetch :=
  (fetch_archive DOWNLOAD_THRESHOLD_GB py_float url task_id output_path).

(** The streaming loop writes the unread body to the file, chunk by chunk. *)
Lemma stream_loop_takes (r : Response) (path : string) (data : bytes) :
  forall (w : World) (acc : bytes),
    unread w = data ->
    read_file path (files w) = Some acc ->
    exists c w',
      takes (ITree.iter (write_chunk r path) tt) w tt w' c
      /\ polls w' = polls w /\ unread w' = [] /\ dirs w' = dirs w
      /\ read_file path (files w') = Some (acc ++ data)
      /\ trace w' = trace w ++ stream_events r path (chunks 8192 data).
Proof.
  remember (List.length data) as n eqn:En. revert data En.
  induction n as [n IH] using lt_wf_ind. intros data En w acc Hu Hf.
  destruct w as [p u d f t]. cbn in Hu, Hf. subst u.
  destruct (take_chunk 8192 data) as [[chunk rest]|] eqn:E.
  - destruct (take_chunk_shrinks 8192 ltac:(lia) _ _ _ E) as [Hlt [Happ _]].
    set (w1 := mkWorld p rest d (append_file path chunk f)
                       (t ++ [ev (IterContent r 8192); ev (FileWrite path chunk)])).
    destruct (IH (List.length rest) ltac:(lia) rest eq_refl w1 (acc ++ chunk)
                 eq_refl (read_append_file _ _ _ _ Hf))
      as [c [w' [Ht [Hp [Hun [Hd [Hr Htr]]]]]]].
    exists (2 + S c)%nat, w'. split; [|repeat split; try assumption].
    + eapply takes_iter_again; [|exact Ht].
      intros m. unfold write_chunk. cbn [Nat.add].
      rewrite exec_bind_trigger. cbn. rewrite E. cbn.
      rewrite exec_bind_trigger. cbn. rewrite exec_ret.
      unfold w1, log. cbn. rewrite <- app_assoc. reflexivity.
    + rewrite Hr, <- app_assoc, Happ. reflexivity.
    + rewrite Htr. unfold w1. cbn [trace].
      rewrite (chunks_step 8192 ltac:(lia) _ _ _ E).
      unfold stream_events. cbn. rewrite <- !app_assoc. reflexivity.
  - assert (data = []) by (destruct data; [reflexivity | discriminate]). subst data.
    exists 1%nat, (mkWorld p [] d f (t ++ [ev (IterContent r 8192)])).
    split; [|repeat split].
    + apply takes_iter_stop. intros m. unfold write_chunk. cbn [Nat.add].
      rewrite exec_bind_trigger. cbn. rewrite E. cbn. rewrite exec_ret.
      reflexivity.
    + cbn. now rewrite app_nil_r.
Qed.

(** [stream_to_file]: the file is created, filled and closed. *)
Lemma stream_to_file_takes (r : Response) (path : string) (w : World) :
  exists c w',
    takes (stream_to_file r path) w tt w' c
    /\ polls w' = polls w /\ dirs w' = dirs w
    /\ read_file path (files w') = Some (unread w)
    /\ trace w'
       = trace w ++ [ev (FileOpen path)]
         ++ stream_events r path (chunks 8192 (unread w))
         ++ [ev (FileClose path)].
Proof.
  set (w1 := mkWorld (polls w) (unread w) (dirs w)
                     (write_file path [] (files w))
                     (trace w ++ [ev (FileOpen path)])).
  destruct (stream_loop_takes r path (unread w) w1 [] eq_refl
              (read_write_file _ _ _))
    as [c [w2 [Ht [Hp [Hun [Hd [Hr Htr]]]]]]].
  exists (1 + (c + 1))%nat, (log (FileClose path) w2).
  split; [|repeat split].
  - unfold stream_to_file.
    eapply takes_bind.
    + intros m. cbn [Nat.add]. rewrite exec_trigger. reflexivity.
    + eapply takes_bind; [exact Ht|].
      intros m. cbn [Nat.add]. rewrite exec_trigger. reflexivity.
  - exact Hp.
  - exact Hd.
  - cbn. exact Hr.
  - cbn. rewrite Htr. unfold w1. cbn. rewrite <- !app_assoc. reflexivity.
Qed.

(** Without a [Content-Length] header, or with one that is no number, the
    download step raises right after the request. *)
Lemma fetch_no_header (w : World) :
  headers resp "Content-Length" = None ->
  takes fetch w (Raise (KeyError "content-length"))
        (mkWorld (polls w) (body resp) (dirs w) (files w)
                 (trace w ++ [ev (Get url download_params true)])) 1.
Proof.
  intros Hh m. unfold fetch_archive. cbn [Nat.add].
  rewrite exec_bind_trigger. cbn. rewrite Hh, exec_ret. reflexivity.
Qed.

Lemma fetch_bad_header (w : World) (text : string) :
  headers resp "Content-Length" = Some text ->
  py_float text = None ->
  takes fetch w (Raise (ValueError text))
        (mkWorld (polls w) (body resp) (dirs w) (files w)
                 (trace w ++ [ev (Get url download_params true)])) 1.
Proof.
  intros Hh Hp m. unfold fetch_archive. cbn [Nat.add].
  rewrite exec_bind_trigger. cbn. rewrite Hh, Hp, exec_ret. reflexivity.
Qed.

Section WithLength.

Variables (text : string) (content_length : float).
Hypothesis header_present : headers resp "Content-Length" = Some text.
Hypothesis header_parsed : py_float text = Some content_length.

(** At or below the threshold: the body is read into memory, no file. *)
Lemma fetch_in_memory (w : World) :
  keep_in_memory DOWNLOAD_THRESHOLD_GB content_length = true ->
  takes fetch w (Ok (InMemory (body resp)))
        (mkWorld (polls w) (body resp) (dirs w) (files w)
                 (trace w ++ [ev (Get url download_params true);
                              ev (Content resp)])) 2.
Proof.
  intros Hk m. unfold fetch_archive. cbn [Nat.add].
  rewrite exec_bind_trigger. cbn.
  rewrite header_present, header_parsed, Hk.
  rewrite exec_bind_trigger. cbn. rewrite exec_ret.
  unfold log. cbn. rewrite <- app_assoc. reflexivity.
Qed.

(** Above the threshold with an error status: [raise_for_status] raises. *)
Lemma fetch_http_error (w : World) (e : exn) :
  keep_in_memory DOWNLOAD_THRESHOLD_GB content_length = false ->
  raise_for_status resp = Raise e ->
  takes fetch w (Raise e)
        (mkWorld (polls w) (body resp) (dirs w) (files w)
                 (trace w ++ [ev (Get url download_params true)])) 1.
Proof.
  intros Hk He m. unfold fetch_archive. cbn [Nat.add].
  rewrite exec_bind_trigger. cbn.
  rewrite header_present, header_parsed, Hk, He. rewrite exec_ret.
  reflexivity.
Qed.

(** Above the threshold with a path [os.makedirs] refuses: it raises. *)
Lemma fetch_makedirs_error (w : World) (e : exn) :
  keep_in_memory DOWNLOAD_THRESHOLD_GB content_length = false ->
  raise_for_status resp = Ok tt ->
  path_error output_path = Some e ->
  takes fetch w (Raise e)
        (mkWorld (polls w) (body resp) (dirs w) (files w)
                 (trace w ++ [ev (Get url download_params true);
                              ev (Makedirs output_path true)])) 2.
Proof.
  intros Hk Hs Hpath m. unfold fetch_archive. cbn [Nat.add].
  rewrite exec_bind_trigger. cbn.
  rewrite header_present, header_parsed, Hk, Hs.
  rewrite exec_bind_trigger. cbn. rewrite Hpath. cbn. rewrite exec_ret.
  unfold log. cbn. rewrite <- app_assoc. reflexivity.
Qed.

(** Above the threshold: the body is streamed to the zip file. *)
Lemma fetch_streamed (w : World) :
  keep_in_memory DOWNLOAD_THRESHOLD_GB content_length = false ->
  raise_for_status resp = Ok tt ->
  path_error output_path = None ->
  exists c w',
    takes fetch w (Ok (OnDisk zip)) w' c
    /\ polls w' = polls w
    /\ dirs w' = (if dir_exists output_path (dirs w) then dirs w
                  else output_path :: dirs w)
    /\ read_file zip (files w') = Some (body resp)
    /\ trace w'
       = trace w ++ [ev (Get url download_params true);
                     ev (Makedirs output_path true);
                     ev (FileOpen zip)]
         ++ stream_events resp zip (chunks 8192 (body resp))
         ++ [ev (FileClose zip)].
Proof.
  intros Hk Hs Hpath.
  set (w2 := mkWorld (polls w) (body resp)
                     (if dir_exists output_path (dirs w) then dirs w
                      else output_path :: dirs w)
                     (files w)
                     (trace w ++ [ev (Get url download_params true);
                                  ev (Makedirs output_path true)])).
  destruct (stream_to_file_takes resp zip w2) as [c [w' [Ht [Hp [Hd [Hr Htr]]]]]].
  exists (2 + (c + 0))%nat, w'. split; [|repeat split; try assumption].
  - intros m. unfold fetch_archive. cbn [Nat.add].
    rewrite exec_bind_trigger. cbn.
    rewrite header_present, header_parsed, Hk, Hs.
    rewrite exec_bind_trigger.
    assert (Hm : forall w0, fst (handle server unzip (Makedirs output_path true) w0)
                            = Ok tt).
    { intros w0. cbn. rewrite Hpath.
      destruct (dir_exists output_path (dirs w0)); reflexivity. }
    rewrite Hm.
    replace (log (Makedirs output_path true) _) with w2.
    + rewrite exec_bind, <- Nat.add_assoc, Ht. cbn. apply exec_ret.
    + unfold w2, log. cbn. rewrite Hpath.
      destruct (dir_exists output_path (dirs w)); cbn;
        rewrite <- app_assoc; reflexivity.
  - rewrite Htr. unfold w2. cbn. rewrite <- !app_assoc. reflexivity.
Qed.

End WithLength.

End Fetch.

(** A program that takes [c] steps to a result gives that result to every
    run that ends. *)
Lemma takes_exec_unique {R} (server : Server) (unzip : bytes -> option Archive)
    (t : itree ioE R) (w w' w2 : World) (r r2 : R) (c n m : nat) :
  takes server unzip t w r w' c ->
  exec server unzip n t w = Some (r2, w2, m) ->
  r2 = r /\ w2 = w'.
Proof.
  intros Ht He. destruct (Nat.lt_ge_cases n c) as [Hlt|Hge].
  - rewrite (takes_short server unzip _ _ _ _ _ _ Ht Hlt) in He. discriminate.
  - rewrite (takes_exact server unzip _ _ _ _ _ _ Ht Hge) in He.
    inversion He; subst. split; reflexivity.
Qed.

Lemma run_exec {R} (server : Server) (unzip : bytes -> option Archive)
    (fuel : nat) (t : itree ioE R) (w w' : World) (r : R) :
  run server unzip fuel t w = Some (r, w') <->
  exists m, exec server unzip fuel t w = Some (r, w', m).
Proof.
  unfold run. split.
  - destruct (exec server unzip fuel t w) as [[[r0 w0] m]|]; [|discriminate].
    intros H. inversion H; subst. now exists m.
  - intros [m ->]. reflexivity.
Qed.
(* ===================================================================== *)
(** ** Extracting the images, and the whole of [download_images] *)
(* ===================================================================== *)

Lemma path_join_longer (a b : string) :
  b <> "" -> PyStr.starts_with_char "/" b = false ->
  (String.length a < String.length (PyStr.path_join a b))%nat.
Proof.
  intros Hb Hs. unfold PyStr.path_join. rewrite Hs.
  assert (0 < String.length b)%nat by (destruct b; [contradiction | simpl; lia]).
  destruct ((a =? "")%string || PyStr.ends_with_char "/" a)%bool;
    rewrite ?append_length; simpl; lia.
Qed.

Lemma task_path_not_output (output_path : string) (task_id : Z) :
  output_task_path output_path task_id false <> output_path.
Proof.
  unfold output_task_path. intros E.
  pose proof (path_join_longer output_path (task_dir task_id)) as L.
  rewrite E in L. apply (Nat.lt_irrefl (String.length output_path)). apply L.
  - discriminate.
  - reflexivity.
Qed.

Lemma contains_app (c : ascii) (a b : string) :
  PyStr.contains c (a ++ b)
  = (PyStr.contains c a || PyStr.contains c b)%bool.
Proof.
  induction a as [|x a IH]; simpl; [reflexivity|].
  rewrite IH. apply orb_assoc.
Qed.

(** The decimal form of an integer holds no null character. *)
Lemma str_of_int_no_null (z : Z) :
  PyStr.contains Ascii.zero (PyStr.str_of_int z) = false.
Proof.
  assert (H : forall d, PyStr.contains Ascii.zero (NilEmpty.string_of_uint d)
                        = false)
    by (induction d; simpl; auto).
  assert (H0 : forall d, PyStr.contains Ascii.zero (NilZero.string_of_uint d)
                         = false)
    by (intros d; destruct d; try reflexivity; apply H).
  unfold PyStr.str_of_int, NilZero.string_of_int.
  destruct (Z.to_int z) as [d|d]; [apply H0|]. simpl. apply H0.
Qed.

Lemma path_error_none_iff (path : string) :
  path_error path = None
  <-> path <> "" /\ PyStr.contains Ascii.zero path = false.
Proof.
  unfold path_error. destruct (String.eqb_spec path "") as [->|Hne].
  - split; [discriminate | intros [H _]; contradiction].
  - destruct (PyStr.contains Ascii.zero path).
    + split; [discriminate | intros [_ H]; discriminate].
    + split; [now split | reflexivity].
Qed.

(** A usable output path makes the task directory below it usable. *)
Lemma path_error_task_path (output_path : string) (task_id : Z) (keep : bool) :
  path_error output_path = None ->
  path_error (output_task_path output_path task_id keep) = None.
Proof.
  intros H. unfold output_task_path. destruct keep; [exact H|].
  apply path_error_none_iff in H. destruct H as [Hne Hnul].
  assert (Ht : PyStr.contains Ascii.zero (task_dir task_id) = false).
  { unfold task_dir. rewrite contains_app, str_of_int_no_null. reflexivity. }
  apply path_error_none_iff. unfold PyStr.path_join.
  change (PyStr.starts_with_char "/" (task_dir task_id)) with false.
  cbv iota.
  destruct ((output_path =? "")%string || PyStr.ends_with_char "/" output_path)%bool.
  - split.
    + destruct output_path; [contradiction | discriminate].
    + now rewrite contains_app, Hnul, Ht.
  - split.
    + destruct output_path; [contradiction | discriminate].
    + now rewrite !contains_app, Hnul, Ht.
Qed.

(** Events that create and write no file leave every file alone. *)
Lemma no_writes_writes_only (path : string) (tr : list event) :
  forallb (fun x => negb (writes_file x)) tr = true ->
  forallb (writes_only path) tr = true.
Proof.
  intros H. rewrite forallb_forall in *. intros x Hx. specialize (H x Hx).
  destruct x as [T e]. destruct e; try reflexivity; discriminate.
Qed.


Lemma opened_app (l1 l2 : list event) : opened (l1 ++ l2) = opened l1 ++ opened l2.
Proof.
  induction l1 as [|x l1 IH]; simpl; [reflexivity|].
  destruct (opened_source x); simpl; now rewrite IH.
Qed.


Lemma opened_round (url : string) (resp : Response) :
  opened (round_events url resp) = [].
Proof.
  unfold round_events. destruct (status_code resp =? 500); reflexivity.
Qed.

Lemma opened_polling (url : string) (server : Server) (first n : nat) :
  opened (polling_events url server first n) = [].
Proof.
  revert first. induction n as [|n IH]; intros first.
  - reflexivity.
  - now rewrite polling_events_S, opened_app, opened_round, IH.
Qed.



Section Extract.

Variable server : Server.
Variable unzip : bytes -> option Archive.
Variable is_image : string -> bool.
Variables (task_id : Z) (output_path : string) (keep_image_path : bool).

Local Abbreviation takes := (takes server unzip).
Local Abbreviation otp := (output_task_path output_path task_id keep_image_path).
Local Abbreviation extract :=
  (extract_images is_image task_id output_path keep_image_path).

Lemma zip_file_opens (w : World) (source : ArchiveSource) (data : bytes)
    (zip_ref : Archive) :
  source_bytes source (files w) = Some data ->
  unzip data = Some zip_ref ->
  handle server unzip (ZipFile source) w = (Ok zip_ref, w).
Proof.
  intros Hsrc Hunzip. destruct source as [buffer|path]; cbn in *.
  - inversion Hsrc; subst. now rewrite Hunzip.
  - now rewrite Hsrc, Hunzip.
Qed.

Lemma zip_file_bad (w : World) (source : ArchiveSource) (data : bytes) :
  source_bytes source (files w) = Some data ->
  unzip data = None ->
  handle server unzip (ZipFile source) w = (Raise BadZipFile, w).
Proof.
  intros Hsrc Hunzip. destruct source as [buffer|path]; cbn in *.
  - inversion Hsrc; subst. now rewrite Hunzip.
  - now rewrite Hsrc, Hunzip.
Qed.

Lemma makedirs_ok (w : World) :
  path_error otp = None ->
  keep_image_path = true \/ dir_exists otp (dirs w) = false ->
  exists w1,
    handle server unzip (Makedirs otp keep_image_path) w = (Ok tt, w1)
    /\ polls w1 = polls w /\ files w1 = files w /\ trace w1 = trace w.
Proof.
  intros Hpath Hdir. cbn. rewrite Hpath.
  destruct (dir_exists otp (dirs w)) eqn:E.
  - destruct Hdir as [->|Hd]; [|discriminate]. eexists; repeat split.
  - eexists; repeat split.
Qed.

Lemma makedirs_conflict (w : World) :
  path_error otp = None ->
  keep_image_path = false -> dir_exists otp (dirs w) = true ->
  handle server unzip (Makedirs otp keep_image_path) w
  = (Raise (FileExistsError otp), w).
Proof. intros Hpath Hk Hd. cbn. now rewrite Hpath, Hd, Hk. Qed.

Lemma makedirs_invalid (w : World) (e : exn) :
  path_error otp = Some e ->
  handle server unzip (Makedirs otp keep_image_path) w = (Raise e, w).
Proof. intros Hpath. cbn. now rewrite Hpath. Qed.

(** The extraction stops at [os.makedirs] when it raises. *)
Lemma extract_images_makedirs_raises (w : World) (source : ArchiveSource)
    (e : exn) :
  handle server unzip (Makedirs otp keep_image_path) w = (Raise e, w) ->
  takes (extract source) w (Raise e) (log (Makedirs otp keep_image_path) w) 1.
Proof.
  intros H m. unfold extract_images. cbn [Nat.add].
  change (if keep_image_path then output_path
          else PyStr.path_join output_path (task_dir task_id)) with otp.
  rewrite exec_bind_trigger, H. cbn [fst snd]. rewrite exec_ret. reflexivity.
Qed.

(** Bytes that are no archive: [zipfile.ZipFile] raises. *)
Lemma extract_images_bad_zip (w : World) (source : ArchiveSource)
    (data : bytes) :
  source_bytes source (files w) = Some data ->
  unzip data = None ->
  path_error otp = None ->
  keep_image_path = true \/ dir_exists otp (dirs w) = false ->
  exists w',
    takes (extract source) w (Raise BadZipFile) w' 2
    /\ files w' = files w
    /\ trace w' = trace w ++ [ev (Makedirs otp keep_image_path);
                              ev (ZipFile source)].
Proof.
  intros Hsrc Hunzip Hpath Hdir.
  destruct (makedirs_ok w Hpath Hdir) as [w1 [Hmk [_ [Hf1 Ht1]]]].
  eexists. split; [|split].
  - intros m. unfold extract_images. cbn [Nat.add].
    change (if keep_image_path then output_path
            else PyStr.path_join output_path (task_dir task_id)) with otp.
    rewrite exec_bind_trigger, Hmk. cbn [fst snd].
    rewrite exec_bind_trigger.
    rewrite (zip_file_bad (log (Makedirs otp keep_image_path) w1) source data);
      [|unfold log; cbn [files]; now rewrite Hf1 | exact Hunzip].
    cbn [fst snd]. rewrite exec_ret. reflexivity.
  - unfold log. cbn [files]. exact Hf1.
  - unfold log. cbn [trace]. rewrite Ht1, <- app_assoc. reflexivity.
Qed.

(** The archive opens: its image members are handed to [extractall], and the
    call returns their paths unless [extractall] raises. *)
Lemma extract_images_opened (w : World) (source : ArchiveSource)
    (data : bytes) (zip_ref : Archive) :
  source_bytes source (files w) = Some data ->
  unzip data = Some zip_ref ->
  path_error otp = None ->
  keep_image_path = true \/ dir_exists otp (dirs w) = false ->
  let members := filter is_image (namelist zip_ref) in
  let paths := returned_paths task_id keep_image_path members in
  let done := extractall zip_ref otp members (files w) in
  exists w',
    takes (extract source) w
          (match fst done with
           | Ok _ => Ok paths
           | Raise e => Raise e
           end) w'
          (match fst done with
           | Ok _ => 4
           | Raise _ => 3
           end)
    /\ polls w' = polls w
    /\ files w' = snd done
    /\ trace w'
       = trace w ++ [ev (Makedirs otp keep_image_path);
                     ev (ZipFile source);
                     ev (ExtractAll zip_ref otp members)]
         ++ match fst done with
            | Ok _ => [ev (LogDebug (extracted_msg (List.length paths) otp))]
            | Raise _ => []
            end.
Proof.
  intros Hsrc Hunzip Hpath Hdir members paths done.
  destruct (makedirs_ok w Hpath Hdir) as [w1 [Hmk [Hp1 [Hf1 Ht1]]]].
  set (w2 := log (Makedirs otp keep_image_path) w1).
  assert (Hzip : handle server unzip (ZipFile source) w2 = (Ok zip_ref, w2)).
  { apply (zip_file_opens w2 source data zip_ref); [|exact Hunzip].
    unfold w2, log. cbn [files]. now rewrite Hf1. }
  set (w3 := log (ZipFile source) w2).
  assert (Hx : handle server unzip (ExtractAll zip_ref otp members) w3
               = (fst done,
                  mkWorld (polls w3) (unread w3) (dirs w3) (snd done)
                          (trace w3))).
  { unfold done. cbn. rewrite Hf1. reflexivity. }
  assert (Hstep : forall m,
             exec server unzip (3 + m) (extract source) w
             = exec server unzip m
                 (match fst done with
                  | Raise e => Ret (Raise e)
                  | Ok _ =>
                      ITree.bind
                        (ITree.trigger
                           (LogDebug (extracted_msg (List.length paths) otp)))
                        (fun _ => Ret (Ok paths))
                  end)
                 (log (ExtractAll zip_ref otp members)
                      (mkWorld (polls w3) (unread w3) (dirs w3) (snd done)
                               (trace w3)))).
  { intros m. unfold extract_images. cbn [Nat.add].
    change (if keep_image_path then output_path
            else PyStr.path_join output_path (task_dir task_id)) with otp.
    rewrite exec_bind_trigger, Hmk. cbn [fst snd]. fold w2.
    rewrite exec_bind_trigger, Hzip. cbn [fst snd]. fold w3.
    fold members. rewrite exec_bind_trigger, Hx. cbn [fst snd].
    reflexivity. }
  destruct (fst done) as [[]|e] eqn:Hdone.
  - eexists. split; [|split; [|split]].
    + intros m. change (4 + m)%nat with (3 + S m)%nat. rewrite Hstep.
      rewrite exec_bind_trigger. cbn [fst snd handle]. rewrite exec_ret.
      reflexivity.
    + unfold log. cbn [polls]. unfold w3, w2, log. cbn [polls]. exact Hp1.
    + unfold log. cbn [files]. reflexivity.
    + unfold log. cbn [trace]. unfold w3, w2, log. cbn [trace].
      rewrite Ht1, <- !app_assoc. reflexivity.
  - eexists. split; [|split; [|split]].
    + intros m. rewrite Hstep, exec_ret. reflexivity.
    + unfold log. cbn [polls]. unfold w3, w2, log. cbn [polls]. exact Hp1.
    + unfold log. cbn [files]. reflexivity.
    + unfold log. cbn [trace]. unfold w3, w2, log. cbn [trace].
      rewrite Ht1, <- !app_assoc, app_nil_r. reflexivity.
Qed.

(** When every step succeeds the image members are returned. *)
Lemma extract_images_takes (w : World) (source : ArchiveSource) (data : bytes)
    (zip_ref : Archive) :
  source_bytes source (files w) = Some data ->
  unzip data = Some zip_ref ->
  path_error otp = None ->
  keep_image_path = true \/ dir_exists otp (dirs w) = false ->
  let members := filter is_image (namelist zip_ref) in
  let paths := returned_paths task_id keep_image_path members in
  fst (extractall zip_ref otp members (files w)) = Ok tt ->
  exists w',
    takes (extract source) w (Ok paths) w' 4
    /\ polls w' = polls w
    /\ files w' = snd (extractall zip_ref otp members (files w))
    /\ trace w'
       = trace w ++ [ev (Makedirs otp keep_image_path);
                     ev (ZipFile source);
                     ev (ExtractAll zip_ref otp members);
                     ev (LogDebug (extracted_msg (List.length paths) otp))].
Proof.
  intros Hsrc Hunzip Hpath Hdir members paths Hext.
  destruct (extract_images_opened w source data zip_ref Hsrc Hunzip Hpath Hdir)
    as [w' [Ht [Hp [Hf Htr]]]].
  fold members paths in Ht, Hf, Htr. rewrite Hext in Ht, Htr.
  exists w'. split; [exact Ht|]. split; [exact Hp|]. split; [exact Hf|].
  exact Htr.
Qed.

(** Whatever the disk and the payload are, the extraction ends: with the
    image members, or with an exception. It creates and writes no file of its
    own, reads no response and opens no archive but its source; the members
    it hands to [extractall], if it gets that far, are the image members. *)
Lemma extract_images_total (w : World) (source : ArchiveSource) (data : bytes) :
  source_bytes source (files w) = Some data ->
  exists c r w' new,
    takes (extract source) w r w' c
    /\ trace w' = trace w ++ new
    /\ forallb (fun x => negb (writes_file x)) new = true
    /\ forallb (fun x => negb (is_content x)) new = true
    /\ forallb (asks_chunks_of 8192) new = true
    /\ (forall s, In s (opened new) -> s = source)
    /\ match r with
       | Ok paths =>
           exists zip_ref,
             unzip data = Some zip_ref
             /\ paths = returned_paths task_id keep_image_path
                          (filter is_image (namelist zip_ref))
             /\ extracted new = filter is_image (namelist zip_ref)
             /\ new = [ev (Makedirs otp keep_image_path);
                       ev (ZipFile source);
                       ev (ExtractAll zip_ref otp
                             (filter is_image (namelist zip_ref)));
                       ev (LogDebug (extracted_msg (List.length paths) otp))]
       | Raise _ =>
           extracted new = []
           \/ exists zip_ref,
                unzip data = Some zip_ref
                /\ extracted new = filter is_image (namelist zip_ref)
       end.
Proof.
  intros Hsrc.
  destruct (path_error otp) as [e|] eqn:Hpath.
  { exists 1%nat, (Raise e). do 2 eexists.
    split; [exact (extract_images_makedirs_raises w source e
                     (makedirs_invalid w e Hpath))|].
    split; [reflexivity|]. repeat (split; [reflexivity|]).
    split; [intros s []|]. left. reflexivity. }
  assert (Hcases : (keep_image_path = true \/ dir_exists otp (dirs w) = false)
                   \/ (keep_image_path = false /\ dir_exists otp (dirs w) = true)).
  { destruct keep_image_path; [left; now left|].
    destruct (dir_exists _ (dirs w)); [right; now split | left; now right]. }
  destruct Hcases as [Hdir|[Hk Hd]].
  - destruct (unzip data) as [zip_ref|] eqn:Eunzip.
    + destruct (extract_images_opened w source data zip_ref Hsrc Eunzip Hpath
                  Hdir) as [w' [Ht [_ [_ Htr]]]].
      cbv zeta in Ht, Htr.
      destruct (fst (extractall zip_ref otp (filter is_image (namelist zip_ref))
                       (files w))) as [[]|e].
      * do 4 eexists. split; [exact Ht|]. split; [exact Htr|].
        repeat (split; [reflexivity|]).
        split; [intros s [<-|[]]; reflexivity|].
        exists zip_ref. split; [reflexivity|]. split; [reflexivity|].
        split; [|reflexivity].
        unfold extracted. cbn. now rewrite app_nil_r.
      * do 4 eexists. split; [exact Ht|]. split; [exact Htr|].
        repeat (split; [reflexivity|]).
        split; [intros s [<-|[]]; reflexivity|].
        right. exists zip_ref. split; [reflexivity|].
        unfold extracted. cbn. now rewrite app_nil_r.
    + destruct (extract_images_bad_zip w source data Hsrc Eunzip Hpath Hdir)
        as [w' [Ht [_ Htr]]].
      do 4 eexists. split; [exact Ht|]. split; [exact Htr|].
      repeat (split; [reflexivity|]).
      split; [intros s [<-|[]]; reflexivity|]. left. reflexivity.
  - exists 1%nat, (Raise (FileExistsError otp)). do 2 eexists.
    split; [exact (extract_images_makedirs_raises w source _
                     (makedirs_conflict w Hpath Hk Hd))|].
    split; [reflexivity|]. repeat (split; [reflexivity|]).
    split; [intros s []|]. left. reflexivity.
Qed.

End Extract.

Section Whole.

Variable server : Server.
Variable unzip : bytes -> option Archive.
Variable DOWNLOAD_THRESHOLD_GB : float.
Variable is_image : string -> bool.
Variable py_float : string -> option float.
Variables (task_id : Z) (output_path : string) (keep_image_path : bool).

Local Abbreviation takes := (takes server unzip).
Local Abbreviation resp := (download_answer server).
Local Abbreviation otp := (output_task_path output_path task_id keep_image_path).

Variables (text : string) (content_length : float) (zip_ref : Archive).
Hypothesis header_present : headers resp "Content-Length" = Some text.
Hypothesis header_parsed : py_float text = Some content_length.
Hypothesis status_fine :
  keep_in_memory DOWNLOAD_THRESHOLD_GB content_length = true
  \/ raise_for_status resp = Ok tt.
Hypothesis payload_is_zip : unzip (body resp) = Some zip_ref.
Hypothesis path_fine : path_error output_path = None.
Hypothesis extraction_fine :
  forall fs,
    fst (extractall zip_ref otp (filter is_image (namelist zip_ref)) fs)
    = Ok tt.

Lemma dir_exists_cons (p q : string) (ds : list string) :
  dir_exists p (q :: ds) = ((p =? q)%string || dir_exists p ds)%bool.
Proof. reflexivity. Qed.

(** The download step and the extraction: they return the image members. *)
Lemma download_and_extract_takes (url : string) (w : World) :
  keep_image_path = true \/ dir_exists otp (dirs w) = false ->
  let members := filter is_image (namelist zip_ref) in
  exists c w' new,
    takes (download_and_extract DOWNLOAD_THRESHOLD_GB is_image py_float url
             task_id output_path keep_image_path)
          w (Ok (returned_paths task_id keep_image_path members)) w' c
    /\ trace w' = trace w ++ new
    /\ extracted new = members.
Proof.
  intros Hdir members.
  pose proof (path_error_task_path output_path task_id keep_image_path
                path_fine) as Hotp.
  destruct (keep_in_memory DOWNLOAD_THRESHOLD_GB content_length) eqn:Hk.
  - pose proof (fetch_in_memory server unzip DOWNLOAD_THRESHOLD_GB py_float url
                  task_id output_path text content_length
                  header_present header_parsed w Hk) as Hf.
    destruct (extract_images_takes server unzip is_image task_id output_path
                keep_image_path
                (mkWorld (polls w) (body resp) (dirs w) (files w)
                         (trace w ++ [ev (Get url download_params true);
                                      ev (Content resp)]))
                (InMemory (body resp)) (body resp) zip_ref
                eq_refl payload_is_zip Hotp Hdir (extraction_fine _))
      as [w' [Ht [_ [_ Htr]]]].
    eexists _, w', _. split; [|split].
    + unfold download_and_extract. eapply takes_bind; [exact Hf | exact Ht].
    + rewrite Htr. cbn [trace]. rewrite <- app_assoc. reflexivity.
    + unfold members, extracted. cbn. now rewrite app_nil_r.
  - destruct status_fine as [X|Hs]; [congruence|].
    destruct (fetch_streamed server unzip DOWNLOAD_THRESHOLD_GB py_float url
                task_id output_path text content_length
                header_present header_parsed w Hk Hs path_fine)
      as [c [w1 [Hf [_ [Hd [Hr Htr1]]]]]].
    destruct (extract_images_takes server unzip is_image task_id output_path
                keep_image_path w1 (OnDisk (zip_path output_path task_id))
                (body resp) zip_ref Hr payload_is_zip Hotp)
      as [w' [Ht [_ [_ Htr]]]]; [|apply extraction_fine|].
    { destruct keep_image_path eqn:Ekeep; [now left|]. right.
      destruct Hdir as [Hkeep|Hno]; [discriminate|]. rewrite Hd.
      destruct (dir_exists output_path (dirs w)); [exact Hno|].
      rewrite dir_exists_cons, Hno, orb_false_r.
      apply String.eqb_neq. apply task_path_not_output. }
    eexists _, w', _. split; [|split].
    + unfold download_and_extract. eapply takes_bind; [exact Hf | exact Ht].
    + rewrite Htr, Htr1. rewrite <- !app_assoc. reflexivity.
    + rewrite !extracted_app, extracted_stream.
      unfold members, extracted. cbn. now rewrite app_nil_r.
Qed.

End Whole.

Section Total.

Variable server : Server.
Variable unzip : bytes -> option Archive.
Variable DOWNLOAD_THRESHOLD_GB : float.
Variable is_image : string -> bool.
Variable py_float : string -> option float.
Variables (task_id : Z) (output_path : string) (keep_image_path : bool).

Local Abbreviation takes := (takes server unzip).
Local Abbreviation resp := (download_answer server).
Local Abbreviation zip := (zip_path output_path task_id).
Local Abbreviation after_waiting :=
  (download_and_extract DOWNLOAD_THRESHOLD_GB is_image py_float).

(** An exception of the download step ends the call. *)
Lemma download_and_extract_raises (url : string) (w w1 : World) (e : exn)
    (c : nat) :
  takes (fetch_archive DOWNLOAD_THRESHOLD_GB py_float url task_id output_path)
        w (Raise e) w1 c ->
  takes (after_waiting url task_id output_path keep_image_path) w (Raise e) w1
        (c + 0).
Proof.
  intros H. unfold download_and_extract.
  eapply takes_bind; [exact H | apply takes_ret].
Qed.


(** The download step and the extraction always end: with the image members
    of the payload, or with an exception. The only file the program creates
    or writes is the zip file, and the members it hands to [extractall], if
    it gets that far, are the image members. *)
Lemma download_and_extract_total (url : string) (w : World) :
  exists c r w' new,
    takes (after_waiting url task_id output_path keep_image_path) w r w' c
    /\ trace w' = trace w ++ new
    /\ forallb (writes_only zip) new = true
    /\ match r with
       | Ok paths =>
           exists zip_ref,
             unzip (body resp) = Some zip_ref
             /\ paths = returned_paths task_id keep_image_path
                          (filter is_image (namelist zip_ref))
             /\ extracted new = filter is_image (namelist zip_ref)
             /\ exists before,
                  new = before
                        ++ [ev (ExtractAll zip_ref
                                  (output_task_path output_path task_id
                                                    keep_image_path)
                                  (filter is_image (namelist zip_ref)));
                            ev (LogDebug
                                  (extracted_msg
                                     (List.length paths)
                                     (output_task_path output_path task_id
                                                       keep_image_path)))]
       | Raise _ =>
           extracted new = []
           \/ exists zip_ref,
                unzip (body resp) = Some zip_ref
                /\ extracted new = filter is_image (namelist zip_ref)
       end.
Proof.
  destruct (headers resp "Content-Length") as [text|] eqn:Hh.
  2:{ exists (1 + 0)%nat, (Raise (KeyError "content-length")). do 2 eexists.
      split; [|split; [|split]].
      - apply download_and_extract_raises. apply fetch_no_header. exact Hh.
      - cbn [trace]. reflexivity.
      - reflexivity.
      - left. reflexivity. }
  destruct (py_float text) as [len|] eqn:Hp.
  2:{ exists (1 + 0)%nat, (Raise (ValueError text)). do 2 eexists.
      split; [|split; [|split]].
      - apply download_and_extract_raises. apply fetch_bad_header; eassumption.
      - cbn [trace]. reflexivity.
      - reflexivity.
      - left. reflexivity. }
  destruct (keep_in_memory DOWNLOAD_THRESHOLD_GB len) eqn:Hk.
  - pose proof (fetch_in_memory server unzip DOWNLOAD_THRESHOLD_GB py_float url
                  task_id output_path text len Hh Hp w Hk) as Hf.
    destruct (extract_images_total server unzip is_image task_id output_path
                keep_image_path
                (mkWorld (polls w) (body resp) (dirs w) (files w)
                         (trace w ++ [ev (Get url download_params true);
                                      ev (Content resp)]))
                (InMemory (body resp)) (body resp) eq_refl)
      as [c [r [w' [new [Ht [Htr [Hnw [_ [_ [_ Hr]]]]]]]]]].
    exists (2 + c)%nat, r, w',
      ([ev (Get url download_params true); ev (Content resp)] ++ new).
    split; [|split; [|split]].
    + unfold download_and_extract. eapply takes_bind; [exact Hf | exact Ht].
    + rewrite Htr. cbn [trace]. rewrite <- app_assoc. reflexivity.
    + rewrite forallb_app, (no_writes_writes_only zip new Hnw). reflexivity.
    + destruct r as [paths|e].
      * destruct Hr as [zip_ref [H1 [H2 [H3 H4]]]]. exists zip_ref.
        split; [exact H1|]. split; [exact H2|]. split.
        -- rewrite extracted_app, H3. reflexivity.
        -- eexists. rewrite H4.
           change (?a ++ [?x1; ?x2; ?x3; ?x4])
             with (a ++ [x1; x2] ++ [x3; x4]).
           rewrite app_assoc. reflexivity.
      * destruct Hr as [Hr|[zip_ref [H1 H3]]].
        -- left. rewrite extracted_app, Hr. reflexivity.
        -- right. exists zip_ref. split; [exact H1|].
           rewrite extracted_app, H3. reflexivity.
  - destruct (raise_for_status resp) as [[]|e] eqn:Hs.
    + destruct (path_error output_path) as [e|] eqn:Hpath.
      { exists (2 + 0)%nat, (Raise e). do 2 eexists.
        split; [|split; [|split]].
        - apply download_and_extract_raises.
          eapply fetch_makedirs_error; eassumption.
        - cbn [trace]. reflexivity.
        - reflexivity.
        - left. reflexivity. }
      destruct (fetch_streamed server unzip DOWNLOAD_THRESHOLD_GB py_float url
                  task_id output_path text len Hh Hp w Hk Hs Hpath)
        as [c1 [w1 [Hf [_ [_ [Hrd Htr1]]]]]].
      destruct (extract_images_total server unzip is_image task_id output_path
                  keep_image_path w1 (OnDisk zip) (body resp) Hrd)
        as [c [r [w' [new [Ht [Htr [Hnw [_ [_ [_ Hr]]]]]]]]]].
      exists (c1 + c)%nat, r, w'. eexists.
      split; [|split; [|split]].
      * unfold download_and_extract. eapply takes_bind; [exact Hf | exact Ht].
      * rewrite Htr, Htr1, <- !app_assoc. reflexivity.
      * rewrite !forallb_app, writes_only_stream,
          (no_writes_writes_only zip new Hnw). cbn.
        unfold writes_only. cbn. now rewrite String.eqb_refl.
      * destruct r as [paths|e].
        -- destruct Hr as [zip_ref [H1 [H2 [H3 H4]]]]. exists zip_ref.
           split; [exact H1|]. split; [exact H2|]. split.
           ++ rewrite !extracted_app, extracted_stream, H3. reflexivity.
           ++ eexists. rewrite H4.
              change [?x1; ?x2; ?x3; ?x4] with ([x1; x2] ++ [x3; x4]).
              rewrite !app_assoc. reflexivity.
        -- destruct Hr as [Hr|[zip_ref [H1 H3]]].
           ++ left. rewrite !extracted_app, extracted_stream, Hr. reflexivity.
           ++ right. exists zip_ref. split; [exact H1|].
              rewrite !extracted_app, extracted_stream, H3. reflexivity.
    + exists (1 + 0)%nat, (Raise e). do 2 eexists.
      split; [|split; [|split]].
      * apply download_and_extract_raises.
        eapply fetch_http_error; eassumption.
      * cbn [trace]. reflexivity.
      * reflexivity.
      * left. reflexivity.
Qed.

(** Whatever [wait_export] returns, it returns after finitely many answers
    other than 201 and one 201. *)
Lemma wait_export_inv (url : string) (fuel : nat) :
  forall (w w' : World) (m : nat),
    exec server unzip fuel (wait_export url) w = Some (tt, w', m) ->
    exists n,
      (forall i, (i < n)%nat ->
                 status_code (export_answers server (polls w + i)) <> 201)
      /\ status_code (export_answers server (polls w + n)) = 201
      /\ w' = polled w (S n) (polling_events url server (polls w) n).
Proof.
  induction fuel as [fuel IH] using lt_wf_ind. intros w w' m H.
  destruct (Z.eq_dec (status_code (export_answers server (polls w))) 201) as [E|E].
  - exists 0%nat. split; [intros i Hi; lia|]. rewrite Nat.add_0_r. split; [exact E|].
    pose proof (takes_iter_stop server unzip _ tt _ _ _ _
                  (poll_once_stop server unzip url w E)) as Ht.
    fold (wait_export url) in Ht.
    destruct (Nat.lt_ge_cases fuel 1) as [Hlt|Hge].
    + rewrite (takes_short server unzip _ _ _ _ _ _ Ht Hlt) in H. discriminate.
    + rewrite (takes_exact server unzip _ _ _ _ _ _ Ht Hge) in H.
      inversion H; subst. reflexivity.
  - destruct (poll_once_again server unzip url w E) as [c [Hc H1]].
    unfold wait_export in H. rewrite exec_iter in H.
    destruct (Nat.lt_ge_cases fuel c) as [Hlt|Hge].
    + rewrite (takes_short server unzip _ _ _ _ _ _ H1 Hlt) in H. discriminate.
    + rewrite (takes_exact server unzip _ _ _ _ _ _ H1 Hge) in H.
      destruct (fuel - c)%nat as [|k] eqn:Ek; [discriminate|].
      destruct (IH k ltac:(lia) _ _ _ H) as [n [Hno [Hyes Hw]]].
      exists (S n). split; [|split].
      * intros [|i] Hi.
        -- now rewrite Nat.add_0_r.
        -- specialize (Hno i ltac:(lia)). simpl in Hno.
           now rewrite <- Nat.add_assoc in Hno.
      * simpl in Hyes. now rewrite <- Nat.add_assoc in Hyes.
      * rewrite Hw, polled_polled, polling_events_S. simpl.
        now rewrite Nat.add_1_r.
Qed.

End Total.

(* ===================================================================== *)
(** ** The specification's claims about [load_task_data] and
       [image_path_to_image_id] *)
(* ===================================================================== *)

(** C1. For a task and metadata that satisfy invariants 1 to 4,
    [load_task_data] returns, without raising, the task, its jobs and a frame
    index whose keys are exactly the ids [start_frame .. stop_frame] of the
    metadata, every entry carrying the id and status of a job whose range
    covers its key. In the scenario of two segments over the range [0, 9]
    this is two jobs and ten entries. *)
Theorem C1_load_task_data_valid (tid : Z) (task : FullTask)
    (meta : FullTaskMetadata) :
  one_job_per_segment task ->
  frame_count_matches meta ->
  jobs_within_index task meta ->
  index_covered task meta ->
  exists frames,
    load_task_data tid task meta = Ok (task, derive_jobs task, frames)
    /\ Dict.keys frames
       = range (tm_start_frame meta) (tm_stop_frame meta + 1)
    /\ (forall k, In k (Dict.keys frames)
                  <-> tm_start_frame meta <= k <= tm_stop_frame meta)
    /\ (forall k v, In (k, v) frames -> job_id v <> None)
    /\ (forall k v, In (k, v) frames ->
          exists j, In j (derive_jobs task)
                    /\ start_frame j <= k <= stop_frame j
                    /\ job_id v = Some (id j)
                    /\ frame_status v = Some (status j))
    /\ (List.length (ft_segments task) = 2%nat ->
        tm_start_frame meta = 0 -> tm_stop_frame meta = 9 ->
        List.length (derive_jobs task) = 2%nat
        /\ List.length frames = 10%nat).
Proof.
  intros H1 H2 H3 H4.
  pose proof (load_valid tid task meta H1 H3 H4) as Hload.
  set (frames := map (stamp_all (derive_jobs task)) (build_frames tid task meta)) in *.
  assert (Hkeys : Dict.keys frames
                  = range (tm_start_frame meta) (tm_stop_frame meta + 1)).
  { unfold frames. rewrite keys_map_stamp_all, keys_build_frames.
    apply firstn_all2. rewrite range_length.
    unfold frame_count_matches in H2. lia. }
  assert (Hentry : forall k v, In (k, v) frames ->
            exists j, In j (derive_jobs task)
                      /\ start_frame j <= k <= stop_frame j
                      /\ job_id v = Some (id j)
                      /\ frame_status v = Some (status j)).
  { intros k v Hin.
    destruct (load_ok_entry tid task meta _ _ _ k v Hload Hin)
      as [l1 [j [l2 [Ej [Hc [_ [Hid Hst]]]]]]].
    exists j. repeat split; try assumption.
    - rewrite Ej. apply in_or_app. right. now left.
    - now apply covers_iff in Hc.
    - now apply covers_iff in Hc. }
  exists frames. split; [exact Hload|]. split; [exact Hkeys|].
  split; [|split; [|split]].
  - intros k. rewrite Hkeys. apply range_inclusive_In.
  - intros k v Hin. destruct (Hentry k v Hin) as [j [_ [_ [E _]]]]. congruence.
  - exact Hentry.
  - intros Hseg Hs He. split.
    + rewrite derive_jobs_length; [exact Hseg | now apply single_jobs_iff].
    + assert (L : List.length (Dict.keys frames) = 10%nat).
      { rewrite Hkeys, range_length, Hs, He. reflexivity. }
      unfold Dict.keys in L. now rewrite length_map in L.
Qed.

Lemma C1_load_task_data_valid_witness :
  exists frames,
    load_task_data 5 Examples.task2 Examples.meta10
    = Ok (Examples.task2, derive_jobs Examples.task2, frames)
    /\ Dict.keys frames = range 0 (9 + 1)
    /\ (forall k, In k (Dict.keys frames) <-> 0 <= k <= 9)
    /\ (forall k v, In (k, v) frames -> job_id v <> None)
    /\ (forall k v, In (k, v) frames ->
          exists j, In j (derive_jobs Examples.task2)
                    /\ start_frame j <= k <= stop_frame j
                    /\ job_id v = Some (id j)
                    /\ frame_status v = Some (status j))
    /\ (2%nat = 2%nat -> 0 = 0 -> 9 = 9 ->
        List.length (derive_jobs Examples.task2) = 2%nat
        /\ List.length frames = 10%nat).
Proof.
  apply (C1_load_task_data_valid 5 Examples.task2 Examples.meta10).
  - repeat constructor.
  - reflexivity.
  - intros j k Hj Hk. unfold in_index. simpl in *.
    destruct Hj as [<-|[<-|[]]]; simpl in *; lia.
  - intros k [Hk _]. simpl in Hk.
    destruct (Z_le_gt_dec k 4) as [L|G].
    + exists (mkJob 11 "completed" "http://cvat/api/jobs/11" 0 4).
      split; [left; reflexivity | simpl; lia].
    + exists (mkJob 12 "annotation" "http://cvat/api/jobs/12" 5 9).
      split; [right; left; reflexivity | simpl; lia].
Defined.

(** C2, as amended. [load_task_data] does not compare the number of frame
    descriptors with the length of the frame range. The index is the
    positional zip of the two, so its keys are the first
    [min(count, range length)] ids of the range; whenever invariants 1, 3
    and 4 hold for that index it is returned, and the only exceptions are the
    three assertions. *)
Theorem C2_no_frame_count_check (tid : Z) (task : FullTask)
    (meta : FullTaskMetadata) :
  (one_job_per_segment task -> jobs_within_index task meta ->
   index_covered task meta ->
   exists frames,
     load_task_data tid task meta = Ok (task, derive_jobs task, frames)
     /\ Dict.keys frames
        = firstn (List.length (tm_frames meta))
                 (range (tm_start_frame meta) (tm_stop_frame meta + 1)))
  /\ (forall t jobs frames,
        load_task_data tid task meta = Ok (t, jobs, frames) ->
        Dict.keys frames
        = firstn (List.length (tm_frames meta))
                 (range (tm_start_frame meta) (tm_stop_frame meta + 1)))
  /\ (forall e,
        load_task_data tid task meta = Raise e ->
        e = AssertionError multi_job_msg
        \/ (exists j k, In j (derive_jobs task) /\ covers j k = true
              /\ ~ in_index meta k
              /\ e = AssertionError (missing_frame_msg (id j) k))
        \/ (exists k, in_index meta k
              /\ (forall j, In j (derive_jobs task) -> covers j k = false)
              /\ e = AssertionError (missing_job_msg k))).
Proof.
  split; [|split].
  - intros H1 H3 H4. eexists. split; [now apply load_valid|].
    rewrite keys_map_stamp_all. apply keys_build_frames.
  - intros t jobs frames H.
    destruct (load_ok_inv tid task meta t jobs frames H) as [_ [_ [-> _]]].
    rewrite keys_map_stamp_all. apply keys_build_frames.
  - apply load_raise_inv.
Qed.

Lemma C2_no_frame_count_check_witness :
  exists frames,
    load_task_data 5 Examples.task01 Examples.meta_long
    = Ok (Examples.task01, derive_jobs Examples.task01, frames)
    /\ Dict.keys frames = firstn 3 (range 0 (1 + 1)).
Proof.
  apply (proj1 (C2_no_frame_count_check 5 Examples.task01 Examples.meta_long)).
  - repeat constructor.
  - intros j k Hj Hk. unfold in_index. simpl in *.
    destruct Hj as [<-|[]]; simpl in *; lia.
  - intros k [Hk _]. simpl in Hk.
    exists (mkJob 7 "completed" "http://cvat/api/jobs/7" 0 1).
    split; [left; reflexivity | simpl; lia].
Defined.

(** C2, as stated, fails: with three descriptors for the two-frame range
    [0, 1], and with two descriptors for the three-frame range [0, 2], the
    loader raises nothing and returns a two-entry index. *)
Lemma C2_counterexample :
  ~ frame_count_matches Examples.meta_long
  /\ ~ frame_count_matches Examples.meta_short
  /\ (exists frames,
        load_task_data 5 Examples.task01 Examples.meta_long
        = Ok (Examples.task01, derive_jobs Examples.task01, frames)
        /\ Dict.keys frames = [0; 1])
  /\ (exists frames,
        load_task_data 5 Examples.task01 Examples.meta_short
        = Ok (Examples.task01, derive_jobs Examples.task01, frames)
        /\ Dict.keys frames = [0; 1]).
Proof.
  split; [|split; [|split]].
  - unfold frame_count_matches. simpl. lia.
  - unfold frame_count_matches. simpl. lia.
  - eexists. split; vm_compute; reflexivity.
  - eexists. split; vm_compute; reflexivity.
Qed.

(** C3, as amended. [image_path_to_image_id] strips the last dot-delimited
    segment: "dir/img.png" has id "dir/img" and file name "img.png". It is not
    idempotent: a second application strips a further segment, and
    [f (f p) = f p] holds exactly when [f p] is the empty string. *)
Theorem C3_image_id_strips_extension :
  image_path_to_image_id "dir/img.png" = "dir/img"
  /\ path_file_name "dir/img.png" = "img.png"
  /\ (forall a e, PyStr.contains "." e = false ->
        image_path_to_image_id (a ++ "." ++ e)%string = a)
  /\ (forall p, image_path_to_image_id (image_path_to_image_id p)
                = image_path_to_image_id p
                <-> image_path_to_image_id p = "").
Proof.
  split; [reflexivity|]. split; [reflexivity|]. split.
  - intros a e H. apply (image_id_strips_last a e H).
  - intros p. split.
    + apply image_id_fixpoint.
    + intros ->. reflexivity.
Qed.

Lemma C3_image_id_strips_extension_witness :
  image_path_to_image_id ("a.b/img" ++ "." ++ "tar")%string = "a.b/img"
  /\ (image_path_to_image_id (image_path_to_image_id "scan")
      = image_path_to_image_id "scan"
      <-> image_path_to_image_id "scan" = "").
Proof.
  destruct C3_image_id_strips_extension as [_ [_ [Hstrip Hidem]]].
  split.
  - apply Hstrip. reflexivity.
  - apply Hidem.
Defined.

(** C3, as stated, fails: the derivation is not idempotent on
    "dir/img.png". *)
Lemma C3_counterexample :
  image_path_to_image_id (image_path_to_image_id "dir/img.png") = ""
  /\ image_path_to_image_id "dir/img.png" = "dir/img"
  /\ image_path_to_image_id (image_path_to_image_id "dir/img.png")
     <> image_path_to_image_id "dir/img.png".
Proof. repeat split; vm_compute; congruence. Qed.

(** C6, as amended. If some segment has a number of jobs other than one,
    [load_task_data] raises an [AssertionError] with the fixed message
    "Unexpected CVAT data: one segment has multiple jobs.", which names no
    segment. *)
Theorem C6_multi_job_error (tid : Z) (task : FullTask)
    (meta : FullTaskMetadata) :
  (exists s, In s (ft_segments task) /\ List.length (seg_jobs s) <> 1%nat) ->
  load_task_data tid task meta
  = Raise (AssertionError "Unexpected CVAT data: one segment has multiple jobs.").
Proof.
  intros H. apply load_multi_job. now apply single_jobs_false_iff.
Qed.

Lemma C6_multi_job_error_witness :
  load_task_data 5 Examples.task_two_jobs Examples.meta10
  = Raise (AssertionError "Unexpected CVAT data: one segment has multiple jobs.").
Proof.
  apply (C6_multi_job_error 5 Examples.task_two_jobs Examples.meta10).
  exists (mkSegment 5 9 [Examples.jd 12 "annotation"; Examples.jd 13 "annotation"]).
  split; [right; left; reflexivity | simpl; lia].
Defined.

(** C6, as stated, fails: two tasks whose offending segments differ (frames
    5..9 with jobs 12 and 13; frames 0..4 with jobs 21 and 22) raise the very
    same message, so the message identifies neither. *)
Lemma C6_counterexample :
  offending_segments Examples.task_two_jobs
  = [mkSegment 5 9 [Examples.jd 12 "annotation"; Examples.jd 13 "annotation"]]
  /\ offending_segments Examples.task_two_jobs'
  = [mkSegment 0 4 [Examples.jd 21 "completed"; Examples.jd 22 "validation"]]
  /\ load_task_data 5 Examples.task_two_jobs Examples.meta10
     = Raise (AssertionError "Unexpected CVAT data: one segment has multiple jobs.")
  /\ load_task_data 5 Examples.task_two_jobs' Examples.meta10
     = load_task_data 5 Examples.task_two_jobs Examples.meta10.
Proof. repeat split; vm_compute; reflexivity. Qed.

(** C7. If some job covers a frame id that has no entry in the frame index,
    [load_task_data] raises an [AssertionError]; the segments having passed
    the one-job assertion, which comes first, its message carries the id of
    such a job and the missing frame id. If every job stays within the index
    but some entry is covered by no job, it raises an [AssertionError] whose
    message, under the same condition, carries the id of such a frame. *)
Theorem C7_missing_frame_and_missing_job (tid : Z) (task : FullTask)
    (meta : FullTaskMetadata) :
  ((exists j k, In j (derive_jobs task)
                /\ start_frame j <= k <= stop_frame j /\ ~ in_index meta k) ->
   exists msg,
     load_task_data tid task meta = Raise (AssertionError msg)
     /\ (one_job_per_segment task ->
         exists j k, In j (derive_jobs task)
           /\ start_frame j <= k <= stop_frame j /\ ~ in_index meta k
           /\ msg = ("Unexpected CVAT data: job (" ++ PyStr.str_of_int (id j)
                     ++ ") is missing a frame (" ++ PyStr.str_of_int k
                     ++ ").")%string))
  /\ (jobs_within_index task meta ->
      (exists k, in_index meta k
         /\ forall j, In j (derive_jobs task) ->
                      ~ (start_frame j <= k <= stop_frame j)) ->
      exists msg,
        load_task_data tid task meta = Raise (AssertionError msg)
        /\ (one_job_per_segment task ->
            exists k, in_index meta k
              /\ (forall j, In j (derive_jobs task) ->
                            ~ (start_frame j <= k <= stop_frame j))
              /\ msg = ("Unexpected CVAT data: frame (" ++ PyStr.str_of_int k
                        ++ ") is missing job id.")%string)).
Proof.
  split.
  - intros [j [k [Hj [Hk Hout]]]].
    destruct (single_jobs task) eqn:H1.
    2:{ exists multi_job_msg. split; [now apply load_multi_job|].
        intros X. apply single_jobs_iff in X. congruence. }
    assert (H3 : forallb (job_fits (build_frames tid task meta))
                         (derive_jobs task) = false).
    { destruct (forallb _ _) eqn:E; [|reflexivity]. exfalso. apply Hout.
      apply (proj1 (keys_build_frames_iff tid task meta k)).
      apply (proj1 (job_fits_all_iff tid task meta) E j k Hj).
      now apply covers_iff. }
    destruct (load_missing_frame tid task meta H1 H3)
      as [l1 [j' [l2 [k' [Ej [_ [Hc [Hk' E]]]]]]]].
    exists (missing_frame_msg (id j') k'). split; [exact E|]. intros _.
    exists j', k'. split; [|split; [|split]].
    + rewrite Ej. apply in_or_app. right. now left.
    + now apply covers_iff.
    + intros X. apply Hk'. now apply keys_build_frames_iff.
    + reflexivity.
  - intros H3 [k [Hk Hno]].
    destruct (single_jobs task) eqn:H1.
    2:{ exists multi_job_msg. split; [now apply load_multi_job|].
        intros X. apply single_jobs_iff in X. congruence. }
    assert (H3' : forallb (job_fits (build_frames tid task meta))
                          (derive_jobs task) = true).
    { apply job_fits_all_iff. intros j k' Hj Hc.
      apply keys_build_frames_iff. apply (H3 j k' Hj). now apply covers_iff. }
    assert (H4 : forallb has_job (map (stamp_all (derive_jobs task))
                                      (build_frames tid task meta)) = false).
    { destruct (forallb has_job _) eqn:E; [|reflexivity]. exfalso.
      apply (proj2 (keys_build_frames_iff tid task meta k)) in Hk.
      destruct (proj1 (has_job_all_iff tid task meta) E k Hk) as [j [Hj Hc]].
      apply (Hno j Hj). now apply covers_iff. }
    destruct (load_missing_job tid task meta H1 H3' H4) as [k' [Hk' [Hno' E]]].
    exists (missing_job_msg k'). split; [exact E|]. intros _.
    exists k'. split; [|split].
    + now apply (proj1 (keys_build_frames_iff tid task meta k')).
    + intros j Hj Hc. apply covers_iff in Hc.
      rewrite (Hno' j Hj) in Hc. discriminate.
    + reflexivity.
Qed.

Lemma C7_missing_frame_and_missing_job_witness :
  (exists msg,
     load_task_data 5 Examples.task_past Examples.meta10
     = Raise (AssertionError msg)
     /\ (one_job_per_segment Examples.task_past ->
         exists j k, In j (derive_jobs Examples.task_past)
           /\ start_frame j <= k <= stop_frame j
           /\ ~ in_index Examples.meta10 k
           /\ msg = ("Unexpected CVAT data: job (" ++ PyStr.str_of_int (id j)
                     ++ ") is missing a frame (" ++ PyStr.str_of_int k
                     ++ ").")%string))
  /\ (exists msg,
        load_task_data 5 Examples.task_gap Examples.meta10
        = Raise (AssertionError msg)
        /\ (one_job_per_segment Examples.task_gap ->
            exists k, in_index Examples.meta10 k
              /\ (forall j, In j (derive_jobs Examples.task_gap) ->
                            ~ (start_frame j <= k <= stop_frame j))
              /\ msg = ("Unexpected CVAT data: frame (" ++ PyStr.str_of_int k
                        ++ ") is missing job id.")%string)).
Proof.
  split.
  - apply (proj1 (C7_missing_frame_and_missing_job 5 Examples.task_past
                    Examples.meta10)).
    exists (mkJob 12 "annotation" "http://cvat/api/jobs/12" 5 10), 10.
    split; [right; left; reflexivity|].
    split; [simpl; lia|]. unfold in_index. simpl. lia.
  - apply (proj2 (C7_missing_frame_and_missing_job 5 Examples.task_gap
                    Examples.meta10)).
    + intros j k Hj Hk. unfold in_index. simpl in *.
      destruct Hj as [<-|[<-|[]]]; simpl in *; lia.
    + exists 5. split; [unfold in_index; simpl; lia|].
      intros j Hj. simpl in Hj.
      destruct Hj as [<-|[<-|[]]]; simpl; lia.
Defined.

(** The two messages on the concrete inputs. *)
Example C7_messages :
  load_task_data 5 Examples.task_past Examples.meta10
  = Raise (AssertionError "Unexpected CVAT data: job (12) is missing a frame (10).")
  /\ load_task_data 5 Examples.task_gap Examples.meta10
  = Raise (AssertionError "Unexpected CVAT data: frame (5) is missing job id.").
Proof. split; vm_compute; reflexivity. Qed.



(** C10. The image id of a path without a dot is the empty string, so the
    entries that [load_task_data] builds from extensionless frame paths all
    carry the same, empty, image id. *)
Theorem C10_no_dot_empty_image_id :
  (forall p, PyStr.contains "." p = false -> image_path_to_image_id p = "")
  /\ (forall p q, PyStr.contains "." p = false -> PyStr.contains "." q = false ->
        image_path_to_image_id p = image_path_to_image_id q)
  /\ (forall tid task meta t jobs frames i x kv,
        load_task_data tid task meta = Ok (t, jobs, frames) ->
        nth_error (tm_frames meta) i = Some x ->
        PyStr.contains "." (fm_name x) = false ->
        nth_error frames i = Some kv ->
        image_id (snd kv) = "").
Proof.
  split; [exact image_id_no_dot|]. split.
  - intros p q Hp Hq. now rewrite !image_id_no_dot.
  - intros tid task meta t jobs frames i x kv H Hx Hdot Hkv.
    destruct (load_ok_inv tid task meta t jobs frames H) as [_ [_ [Ef _]]].
    rewrite Ef, nth_error_map, nth_error_build_frames, Hx in Hkv.
    destruct (nth_error (range _ _) i) as [k|]; [|discriminate].
    simpl in Hkv. inversion Hkv; subst kv.
    rewrite image_id_stamp_all. simpl. now apply image_id_no_dot.
Qed.

Lemma C10_no_dot_empty_image_id_witness :
  image_path_to_image_id "dir/scan_b" = ""
  /\ image_path_to_image_id "scan_a" = image_path_to_image_id "dir/scan_b"
  /\ exists t jobs frames kv,
       load_task_data 5 Examples.task01 Examples.meta_noext = Ok (t, jobs, frames)
       /\ nth_error frames 1 = Some kv
       /\ image_id (snd kv) = "".
Proof.
  destruct C10_no_dot_empty_image_id as [H1 [H2 H3]].
  split; [apply H1; reflexivity|].
  split; [apply H2; reflexivity|].
  do 4 eexists. split; [vm_compute; reflexivity|].
  split; [reflexivity|].
  eapply (H3 5 Examples.task01 Examples.meta_noext _ _ _ 1%nat
             (Examples.fm "dir/scan_b")).
  - vm_compute. reflexivity.
  - reflexivity.
  - reflexivity.
  - reflexivity.
Defined.

(* ===================================================================== *)
(** ** The specification's claims about [download_images] *)
(* ===================================================================== *)

(** C5. In the polling loop every answer other than 201 is followed by
    exactly one [sleep(5)] before the next request; a 500 is logged first
    and does not end the loop. After [n] such answers and one 201 the loop is
    left with exactly [n] sleeps performed, and [download_images] goes on
    with the download step in that world (three answers: three sleeps).
    Without a 201 the loop, and with it [download_images], never
    returns. *)
Theorem C5_polling_sleeps_once_per_answer
    (server : Server) (unzip : bytes -> option Archive) (API_URL : string)
    (threshold : float) (is_image : string -> bool)
    (py_float : string -> option float) (task_id : Z) (output_path : string)
    (keep_image_path : bool) (w : World) :
  let url := dataset_url API_URL task_id in
  let prog := download_images API_URL threshold is_image py_float
                              task_id output_path keep_image_path in
  (forall resp,
      round_events url resp
      = if status_code resp =? 500
        then [ev (Get url export_params false); ev (Content resp);
              ev (LogError "Error: receiver response 500 with content: "
                           (body resp));
              ev (Sleep 5)]
        else [ev (Get url export_params false); ev (Sleep 5)])
  /\ (forall n,
        (forall i, (i < n)%nat ->
                   status_code (export_answers server (polls w + i)) <> 201) ->
        status_code (export_answers server (polls w + n)) = 201 ->
        let events :=
          flat_map (fun i => round_events url (export_answers server (polls w + i)))
                   (seq 0 n)
          ++ [ev (Get url export_params false)] in
        let w' := mkWorld (polls w + S n) (unread w) (dirs w) (files w)
                          (trace w ++ events) in
        runs server unzip (wait_export url) w tt w'
        /\ sleeps events = n
        /\ exists c, forall m,
             run server unzip (c + m) prog w
             = run server unzip m
                   (download_and_extract threshold is_image py_float url
                      task_id output_path keep_image_path) w')
  /\ ((forall i, status_code (export_answers server (polls w + i)) <> 201) ->
      diverges server unzip (wait_export url) w
      /\ diverges server unzip prog w).
Proof.
  intros url prog. split; [|split].
  - intros resp. unfold round_events.
    destruct (status_code resp =? 500); reflexivity.
  - intros n Hno Hyes events w'.
    destruct (wait_export_takes server unzip url n w Hno Hyes) as [c Ht].
    split; [exact (takes_runs server unzip _ _ _ _ _ Ht)|].
    split; [apply (sleeps_polling url server (polls w) n)|].
    exists c. intros m. unfold run, prog, download_images.
    rewrite exec_bind. fold url. rewrite Ht. reflexivity.
  - intros Hno. split.
    + intros fuel. unfold run.
      now rewrite (wait_export_never server unzip url fuel w Hno).
    + intros fuel. unfold run, prog, download_images.
      rewrite exec_bind. fold url.
      now rewrite (wait_export_never server unzip url fuel w Hno).
Qed.

Lemma C5_polling_sleeps_once_per_answer_witness :
  let url := dataset_url "http://cvat/api" 7 in
  let events :=
    flat_map (fun i => round_events url
                         (export_answers DownloadExamples.server (0 + i)))
             (seq 0 3)
    ++ [ev (Get url export_params false)] in
  let w' := mkWorld (0 + 4) [] [] [] ([] ++ events) in
  runs DownloadExamples.server DownloadExamples.unzip (wait_export url)
       DownloadExamples.empty_world tt w'
  /\ sleeps events = 3%nat
  /\ exists c, forall m,
       run DownloadExamples.server DownloadExamples.unzip (c + m)
           (download_images "http://cvat/api" DownloadExamples.one_gb
              DownloadExamples.is_image DownloadExamples.py_float 7 "out" true)
           DownloadExamples.empty_world
       = run DownloadExamples.server DownloadExamples.unzip m
             (download_and_extract DownloadExamples.one_gb
                DownloadExamples.is_image DownloadExamples.py_float url
                7 "out" true) w'.
Proof.
  apply (proj1 (proj2 (C5_polling_sleeps_once_per_answer
                         DownloadExamples.server DownloadExamples.unzip
                         "http://cvat/api" DownloadExamples.one_gb
                         DownloadExamples.is_image DownloadExamples.py_float
                         7 "out" true DownloadExamples.empty_world)) 3%nat).
  - intros i Hi. destruct i as [|[|[|i]]]; simpl; try discriminate. lia.
  - reflexivity.
Defined.





(* ===================================================================== *)
(** ** Further properties of the loader *)
(* ===================================================================== *)

Lemma split_pieces_no_sep (sep : ascii) (s p : string) :
  In p (PyStr.split sep s) -> PyStr.contains sep p = false.
Proof.
  revert p. induction s as [|c s IH]; intros p; simpl.
  - intros [<-|[]]. reflexivity.
  - destruct (Ascii.eqb c sep) eqn:E.
    + intros [<-|H]; [reflexivity | now apply IH].
    + destruct (PyStr.split sep s) as [|q qs] eqn:Es.
      * exfalso. exact (split_not_nil sep s Es).
      * intros [<-|H].
        -- simpl. rewrite E. apply IH. now left.
        -- apply IH. now right.
Qed.

(** A string is its pieces but the last, the separator and the last piece. *)
Lemma split_last_decompose (sep : ascii) (s : string) :
  exists l e,
    PyStr.split sep s = l ++ [e]
    /\ PyStr.contains sep e = false
    /\ s = match l with
           | [] => e
           | _ => (String.concat (String sep "") l ++ String sep e)%string
           end.
Proof.
  destruct (exists_last (split_not_nil sep s)) as [l [e El]].
  exists l, e. split; [exact El|]. split.
  - apply (split_pieces_no_sep sep s). rewrite El. apply in_or_app. right. now left.
  - pose proof (join_split sep s) as J. unfold PyStr.join in J. rewrite El in J.
    destruct l as [|x l]; [simpl in J; now symmetry|].
    rewrite concat_snoc in J by discriminate. now symmetry.
Qed.

Lemma last_item_snoc {A} (l : list A) (e : A) : PyStr.last_item (l ++ [e]) = Some e.
Proof. unfold PyStr.last_item. now rewrite rev_app_distr. Qed.

(** X1. The file name of a frame is the part of its path after the last
    slash: it contains no slash, and the path is the file name itself or a
    directory prefix, a slash and the file name. *)
Theorem X1_file_name_is_basename (name : string) :
  PyStr.contains "/" (path_file_name name) = false
  /\ (name = path_file_name name
      \/ exists dir, name = (dir ++ "/" ++ path_file_name name)%string)
  /\ (PyStr.contains "/" name = false -> path_file_name name = name).
Proof.
  destruct (split_last_decompose "/" name) as [l [e [El [He Hs]]]].
  assert (Hf : path_file_name name = e).
  { unfold path_file_name. now rewrite El, last_item_snoc. }
  rewrite Hf. split; [exact He|]. split.
  - destruct l as [|x l]; [now left|]. right.
    exists (String.concat "/" (x :: l)). exact Hs.
  - intros Hno. rewrite (split_no_sep "/" name Hno) in El.
    destruct l as [|x l].
    + simpl in El. now inversion El.
    + exfalso. destruct l; simpl in El; inversion El.
Qed.

(** X2. A path is recovered from its image id: a path with a dot is its
    image id, a dot and a dot-free extension; a path without a dot has the
    empty id. In both cases the id is a prefix of the path. *)
Theorem X2_image_id_and_extension (p : string) :
  (PyStr.contains "." p = true ->
   exists ext, p = (image_path_to_image_id p ++ "." ++ ext)%string
               /\ PyStr.contains "." ext = false)
  /\ (PyStr.contains "." p = false -> image_path_to_image_id p = "")
  /\ String.prefix (image_path_to_image_id p) p = true.
Proof.
  destruct (split_last_decompose "." p) as [l [e [El [He Hs]]]].
  assert (Hid : image_path_to_image_id p = String.concat "." l).
  { unfold image_path_to_image_id, PyStr.but_last, PyStr.join.
    now rewrite El, removelast_last. }
  assert (Hprefix : forall a b, String.prefix a (a ++ b)%string = true).
  { induction a as [|c a IH]; intros b; simpl.
    - destruct b; reflexivity.
    - destruct (Ascii.ascii_dec c c); [apply IH | contradiction]. }
  split; [|split].
  - intros Hdot. destruct l as [|x l].
    + subst p. congruence.
    + exists e. split; [|exact He]. rewrite Hid. exact Hs.
  - apply image_id_no_dot.
  - rewrite Hid. destruct l as [|x l].
    + simpl. destruct p; reflexivity.
    + rewrite Hs. apply Hprefix.
Qed.

Lemma X1_file_name_is_basename_witness : path_file_name "img.png" = "img.png".
Proof. apply (proj2 (proj2 (X1_file_name_is_basename "img.png"))). reflexivity. Defined.

Lemma X2_image_id_and_extension_witness :
  (exists ext, "a.b/img.tar.gz" = (image_path_to_image_id "a.b/img.tar.gz" ++ "." ++ ext)%string
               /\ PyStr.contains "." ext = false)
  /\ image_path_to_image_id "dir/scan" = "".
Proof.
  split.
  - apply (proj1 (X2_image_id_and_extension "a.b/img.tar.gz")). reflexivity.
  - apply (proj1 (proj2 (X2_image_id_and_extension "dir/scan"))). reflexivity.
Defined.

(** The first pass leaves every field but the job id and status as built. *)
Lemma stamp_all_keeps_descriptor (jobs : list Job) (kv : Z * Frame) :
  let v := snd kv in
  let v' := snd (stamp_all jobs kv) in
  image_id v' = image_id v /\ frame_id v' = frame_id v
  /\ file_name v' = file_name v /\ width v' = width v /\ height v' = height v
  /\ task_id v' = task_id v /\ task_name v' = task_name v.
Proof.
  unfold stamp_all. revert kv.
  induction jobs as [|j jobs IH]; intros kv; simpl; [repeat split|].
  destruct (IH (stamp j kv)) as [H1 [H2 [H3 [H4 [H5 [H6 H7]]]]]].
  rewrite H1, H2, H3, H4, H5, H6, H7.
  unfold stamp. destruct (covers j (fst kv)); repeat split.
Qed.

(** X3. The frame index joins frame ids and descriptors by position: the
    i-th entry of a returned index has key [start_frame + i], stores that key
    as its [frame_id], and takes image id, file name, width and height from
    the i-th descriptor and the task id and name from the call; the index
    has as many entries as the shorter of the range and the descriptor
    list. *)
Theorem X3_frames_join_by_position (tid : Z) (task : FullTask)
    (meta : FullTaskMetadata) (t : FullTask) (jobs : list Job)
    (frames : FrameIndex) :
  load_task_data tid task meta = Ok (t, jobs, frames) ->
  List.length frames
  = Nat.min (List.length (tm_frames meta))
            (Z.to_nat (tm_stop_frame meta + 1 - tm_start_frame meta))
  /\ forall i kv,
       nth_error frames i = Some kv ->
       exists x,
         nth_error (tm_frames meta) i = Some x
         /\ fst kv = tm_start_frame meta + Z.of_nat i
         /\ frame_id (snd kv) = fst kv
         /\ image_id (snd kv) = image_path_to_image_id (fm_name x)
         /\ file_name (snd kv) = path_file_name (fm_name x)
         /\ width (snd kv) = fm_width x /\ height (snd kv) = fm_height x
         /\ task_id (snd kv) = tid /\ task_name (snd kv) = ft_name task.
Proof.
  intros H.
  destruct (load_ok_inv tid task meta t jobs frames H) as [_ [_ [Ef _]]].
  split.
  - assert (L : List.length (Dict.keys frames) = List.length frames)
      by (unfold Dict.keys; apply length_map).
    rewrite <- L, Ef, keys_map_stamp_all, keys_build_frames.
    now rewrite length_firstn, range_length.
  - intros i kv Hkv.
    rewrite Ef, nth_error_map, nth_error_build_frames, nth_error_range in Hkv.
    destruct (i <? _)%nat; [|discriminate].
    destruct (nth_error (tm_frames meta) i) as [x|]; [|discriminate].
    simpl in Hkv. inversion Hkv as [E]. exists x. split; [reflexivity|].
    destruct (stamp_all_keeps_descriptor (derive_jobs task)
                (tm_start_frame meta + Z.of_nat i,
                 make_frame tid task (tm_start_frame meta + Z.of_nat i) x))
      as [H1 [H2 [H3 [H4 [H5 [H6 H7]]]]]].
    rewrite fst_stamp_all. simpl in *.
    rewrite H1, H2, H3, H4, H5, H6, H7. repeat split.
Qed.

Lemma X3_frames_join_by_position_witness :
  exists t jobs frames,
    load_task_data 5 Examples.task2 Examples.meta10 = Ok (t, jobs, frames)
    /\ List.length frames
       = Nat.min (List.length (tm_frames Examples.meta10))
                 (Z.to_nat (tm_stop_frame Examples.meta10 + 1
                            - tm_start_frame Examples.meta10))
    /\ forall i kv,
         nth_error frames i = Some kv ->
         exists x,
           nth_error (tm_frames Examples.meta10) i = Some x
           /\ fst kv = tm_start_frame Examples.meta10 + Z.of_nat i
           /\ frame_id (snd kv) = fst kv
           /\ image_id (snd kv) = image_path_to_image_id (fm_name x)
           /\ file_name (snd kv) = path_file_name (fm_name x)
           /\ width (snd kv) = fm_width x /\ height (snd kv) = fm_height x
           /\ task_id (snd kv) = 5 /\ task_name (snd kv) = ft_name Examples.task2.
Proof.
  destruct (load_task_data 5 Examples.task2 Examples.meta10)
    as [[[t jobs] frames]|e] eqn:E.
  - exists t, jobs, frames. split; [reflexivity|].
    exact (X3_frames_join_by_position 5 Examples.task2 Examples.meta10
             t jobs frames E).
  - vm_compute in E. discriminate.
Defined.

Lemma range_cons (lo hi : Z) : lo < hi -> range lo hi = lo :: range (lo + 1) hi.
Proof.
  intros H. unfold range.
  replace (Z.to_nat (hi - lo)) with (S (Z.to_nat (hi - (lo + 1)))) by lia.
  simpl. rewrite Z.add_0_r. f_equal.
  rewrite <- seq_shift, map_map. apply map_ext. intros i. lia.
Qed.

Lemma range_empty (lo hi : Z) : hi <= lo -> range lo hi = [].
Proof. intros H. unfold range. now replace (Z.to_nat (hi - lo)) with 0%nat by lia. Qed.

(** What precedes an element of a range is the range up to it. *)
Lemma range_split (l1 l2 : list Z) (k : Z) :
  forall lo hi, range lo hi = l1 ++ k :: l2 -> l1 = range lo k /\ lo <= k < hi.
Proof.
  induction l1 as [|a l1 IH]; intros lo hi H.
  - destruct (Z_lt_ge_dec lo hi) as [L|G].
    + rewrite range_cons in H by exact L. simpl in H. inversion H; subst.
      split; [now rewrite range_empty by lia | lia].
    + rewrite range_empty in H by lia. discriminate.
  - destruct (Z_lt_ge_dec lo hi) as [L|G].
    + rewrite range_cons in H by exact L. simpl in H. inversion H; subst.
      destruct (IH _ _ H2) as [E Hk]. split; [|lia].
      rewrite (range_cons a k) by lia. now rewrite <- E.
    + rewrite range_empty in H by lia. discriminate.
Qed.

Lemma for_each_app {A S} (l1 l2 : list A) (body : A -> S -> result S) (s : S) :
  for_each (l1 ++ l2) body s = rbind (for_each l1 body s) (for_each l2 body).
Proof.
  revert s. induction l1 as [|x l1 IH]; intros s; simpl; [reflexivity|].
  destruct (body x s); simpl; [apply IH | reflexivity].
Qed.

(** The inner loop stops at the first id that is no key. *)
Lemma inner_loop_fail_first (j : Job) (ids : list Z) (d : FrameIndex) :
  forallb (fun k => Dict.mem k d) ids = false ->
  exists l1 k l2, ids = l1 ++ k :: l2
    /\ forallb (fun k' => Dict.mem k' d) l1 = true
    /\ Dict.mem k d = false
    /\ for_each ids (assign_frame j) d
       = Raise (AssertionError (missing_frame_msg (id j) k)).
Proof.
  revert d. induction ids as [|k ids IH]; intros d Hall; simpl in *; [discriminate|].
  destruct (Dict.mem k d) eqn:Hk; simpl in Hall.
  - destruct (IH (Dict.assign k (id j) (status j) d)) as [l1 [k' [l2 [E [H1 [Hm Hr]]]]]].
    + rewrite <- Hall. apply forallb_ext. intros k'. apply DictFacts.mem_assign.
    + exists (k :: l1), k', l2. split; [now rewrite E|]. split; [|split].
      * simpl. rewrite Hk. simpl. rewrite <- H1. apply forallb_ext.
        intros x. symmetry. apply DictFacts.mem_assign.
      * now rewrite DictFacts.mem_assign in Hm.
      * unfold assign_frame at 1. rewrite Hk. simpl. exact Hr.
  - exists [], k, ids. repeat split; auto.
    unfold assign_frame at 1. rewrite Hk. reflexivity.
Qed.

Lemma mem_map_stamp_all (jobs : list Job) (d : FrameIndex) (k : Z) :
  Dict.mem k (map (stamp_all jobs) d) = Dict.mem k d.
Proof.
  destruct (Dict.mem k d) eqn:E.
  - apply DictFacts.get_In_keys. rewrite keys_map_stamp_all.
    now apply DictFacts.get_In_keys.
  - apply DictFacts.mem_false_iff. rewrite keys_map_stamp_all.
    now apply DictFacts.mem_false_iff.
Qed.

(** The first pass stops at the first job that leaves the index, at the
    smallest frame id of that job that is no key. *)
Lemma first_pass_fail_first (jobs : list Job) (d : FrameIndex) :
  NoDup (Dict.keys d) -> forallb (job_fits d) jobs = false ->
  exists l1 j l2 k, jobs = l1 ++ j :: l2
    /\ forallb (job_fits d) l1 = true
    /\ covers j k = true /\ Dict.mem k d = false
    /\ (forall k', start_frame j <= k' < k -> Dict.mem k' d = true)
    /\ for_each jobs assign_job d
       = Raise (AssertionError (missing_frame_msg (id j) k)).
Proof.
  intros ND Hall.
  destruct (last_such (fun j => negb (job_fits d j)) (rev jobs))
    as [Hnone|[r1 [j [r2 [Erev [Hj Hr2]]]]]].
  - exfalso. assert (X : forallb (job_fits d) jobs = true).
    { apply forallb_forall. intros x Hx. apply in_rev in Hx.
      specialize (Hnone x Hx). now destruct (job_fits d x). }
    congruence.
  - assert (Ejobs : jobs = rev r2 ++ j :: rev r1).
    { rewrite <- (rev_involutive jobs), Erev, rev_app_distr. simpl.
      now rewrite <- app_assoc. }
    assert (Hl1 : forallb (job_fits d) (rev r2) = true).
    { apply forallb_forall. intros x Hx. apply in_rev in Hx.
      specialize (Hr2 x Hx). now destruct (job_fits d x). }
    apply negb_true_iff in Hj.
    set (d1 := map (stamp_all (rev r2)) d).
    assert (Hfit1 : forallb (fun k => Dict.mem k d1)
                            (range (start_frame j) (stop_frame j + 1)) = false).
    { rewrite <- Hj. unfold job_fits. apply forallb_ext. intros k.
      apply mem_map_stamp_all. }
    destruct (inner_loop_fail_first j _ d1 Hfit1) as [i1 [k [i2 [Ei [Hi1 [Hk Hrun]]]]]].
    destruct (range_split _ _ _ _ _ Ei) as [Ei1 Hkr].
    exists (rev r2), j, (rev r1), k. split; [exact Ejobs|]. split; [exact Hl1|].
    split; [|split; [|split]].
    + apply covers_iff. lia.
    + unfold d1 in Hk. now rewrite mem_map_stamp_all in Hk.
    + intros k' Hk'. rewrite forallb_forall in Hi1.
      rewrite <- (mem_map_stamp_all (rev r2) d k'). apply Hi1.
      rewrite Ei1. apply range_In. lia.
    + rewrite Ejobs, for_each_app, (first_pass_ok _ d ND Hl1). simpl.
      fold d1. unfold assign_job at 1. now rewrite Hrun.
Qed.

(** X4. Which job and frame the missing-frame error names: the first job,
    in list order, that covers a frame id outside the index, and the smallest
    such frame id of that job. The error is raised whether or not other
    frames are left without a job. *)
Theorem X4_missing_frame_names_first (tid : Z) (task : FullTask)
    (meta : FullTaskMetadata) :
  one_job_per_segment task ->
  (exists j k, In j (derive_jobs task)
               /\ start_frame j <= k <= stop_frame j /\ ~ in_index meta k) ->
  exists l1 j l2 k,
    derive_jobs task = l1 ++ j :: l2
    /\ (forall j' k', In j' l1 -> start_frame j' <= k' <= stop_frame j' ->
                      in_index meta k')
    /\ start_frame j <= k <= stop_frame j
    /\ ~ in_index meta k
    /\ (forall k', start_frame j <= k' < k -> in_index meta k')
    /\ load_task_data tid task meta
       = Raise (AssertionError (missing_frame_msg (id j) k)).
Proof.
  intros H1 [j0 [k0 [Hj0 [Hk0 Hout]]]]. apply single_jobs_iff in H1.
  set (d0 := build_frames tid task meta).
  assert (H3 : forallb (job_fits d0) (derive_jobs task) = false).
  { destruct (forallb _ _) eqn:E; [|reflexivity]. exfalso. apply Hout.
    apply (proj1 (keys_build_frames_iff tid task meta k0)).
    apply (proj1 (job_fits_all_iff tid task meta) E j0 k0 Hj0).
    now apply covers_iff. }
  destruct (first_pass_fail_first _ d0 (keys_build_frames_NoDup tid task meta) H3)
    as [l1 [j [l2 [k [Ej [Hl1 [Hc [Hk [Hmin Hrun]]]]]]]]].
  exists l1, j, l2, k. split; [exact Ej|]. split; [|split; [|split; [|split]]].
  - intros j' k' Hj' Hk'. rewrite forallb_forall in Hl1.
    specialize (Hl1 j' Hj'). unfold job_fits in Hl1. rewrite forallb_forall in Hl1.
    apply (proj1 (keys_build_frames_iff tid task meta k')).
    apply DictFacts.get_In_keys. apply Hl1. now apply range_inclusive_In.
  - now apply covers_iff.
  - intros X. apply (proj2 (keys_build_frames_iff tid task meta k)) in X.
    apply DictFacts.get_In_keys in X. fold d0 in X. congruence.
  - intros k' Hk'. apply (proj1 (keys_build_frames_iff tid task meta k')).
    apply DictFacts.get_In_keys. now apply Hmin.
  - unfold load_task_data. fold (single_jobs task). rewrite H1. simpl.
    fold d0. now rewrite Hrun.
Qed.

Lemma X4_missing_frame_names_first_witness :
  exists l1 j l2 k,
    derive_jobs Examples.task_past = l1 ++ j :: l2
    /\ (forall j' k', In j' l1 -> start_frame j' <= k' <= stop_frame j' ->
                      in_index Examples.meta10 k')
    /\ start_frame j <= k <= stop_frame j
    /\ ~ in_index Examples.meta10 k
    /\ (forall k', start_frame j <= k' < k -> in_index Examples.meta10 k')
    /\ load_task_data 5 Examples.task_past Examples.meta10
       = Raise (AssertionError (missing_frame_msg (id j) k)).
Proof.
  apply (X4_missing_frame_names_first 5 Examples.task_past Examples.meta10).
  - repeat constructor.
  - exists (mkJob 12 "annotation" "http://cvat/api/jobs/12" 5 10), 10.
    split; [right; left; reflexivity|].
    split; [simpl; lia|]. unfold in_index. simpl. lia.
Defined.



(** X6. The returned jobs are the jobs of the segments, one per segment and
    in segment order, each with the id, status and url of the segment's job
    and the frame bounds of the segment. *)
Theorem X6_jobs_follow_segments (tid : Z) (task : FullTask)
    (meta : FullTaskMetadata) (t : FullTask) (jobs : list Job)
    (frames : FrameIndex) :
  load_task_data tid task meta = Ok (t, jobs, frames) ->
  t = task
  /\ List.length jobs = List.length (ft_segments task)
  /\ forall i s,
       nth_error (ft_segments task) i = Some s ->
       exists jd,
         seg_jobs s = [jd]
         /\ nth_error jobs i
            = Some (mkJob (jd_id jd) (jd_status jd) (jd_url jd)
                          (seg_start_frame s) (seg_stop_frame s)).
Proof.
  intros H.
  destruct (load_ok_inv tid task meta t jobs frames H) as [-> [-> [_ [H1 _]]]].
  split; [reflexivity|]. split; [now apply derive_jobs_length|].
  unfold single_jobs in H1. unfold derive_jobs.
  induction (ft_segments task) as [|s0 segs IH]; intros i s Hi.
  - destruct i; discriminate.
  - simpl in H1. apply andb_true_iff in H1. destruct H1 as [Hs0 Hsegs].
    apply Nat.eqb_eq in Hs0.
    destruct (seg_jobs s0) as [|jd [|jd' rest]] eqn:Ej; try discriminate.
    destruct i as [|i]; simpl in Hi.
    + inversion Hi; subst s. exists jd. split; [exact Ej|].
      simpl. rewrite Ej. reflexivity.
    + destruct (IH Hsegs i s Hi) as [jd1 [E1 E2]].
      exists jd1. split; [exact E1|]. simpl. rewrite Ej. simpl. exact E2.
Qed.

Lemma X6_jobs_follow_segments_witness :
  exists t jobs frames,
    load_task_data 5 Examples.task2 Examples.meta10 = Ok (t, jobs, frames)
    /\ t = Examples.task2
    /\ List.length jobs = List.length (ft_segments Examples.task2)
    /\ forall i s,
         nth_error (ft_segments Examples.task2) i = Some s ->
         exists jd,
           seg_jobs s = [jd]
           /\ nth_error jobs i
              = Some (mkJob (jd_id jd) (jd_status jd) (jd_url jd)
                            (seg_start_frame s) (seg_stop_frame s)).
Proof.
  destruct (load_task_data 5 Examples.task2 Examples.meta10)
    as [[[t jobs] frames]|e] eqn:E.
  - exists t, jobs, frames. split; [reflexivity|].
    exact (X6_jobs_follow_segments 5 Examples.task2 Examples.meta10
             t jobs frames E).
  - vm_compute in E. discriminate.
Defined.

(** X7. A task without segments: with an empty frame index (no descriptor,
    or a frame range whose stop lies before its start) the loader returns no
    job and no frame; with any entry in the index it raises the missing-job
    error for the first frame id of the range. *)
Theorem X7_task_without_segments (tid : Z) (task : FullTask)
    (meta : FullTaskMetadata) :
  ft_segments task = [] ->
  ((tm_frames meta = [] \/ tm_stop_frame meta < tm_start_frame meta) ->
   load_task_data tid task meta = Ok (task, [], []))
  /\ (tm_frames meta <> [] -> tm_start_frame meta <= tm_stop_frame meta ->
      load_task_data tid task meta
      = Raise (AssertionError (missing_job_msg (tm_start_frame meta)))).
Proof.
  intros Hs. split.
  - intros Hempty. unfold load_task_data, derive_jobs. rewrite Hs. simpl.
    assert (E : build_frames tid task meta = []).
    { rewrite build_frames_items. destruct Hempty as [->|Hlt].
      - now rewrite combine_nil.
      - now rewrite range_empty by lia. }
    now rewrite E.
  - intros Hf Hr. unfold load_task_data, derive_jobs. rewrite Hs. simpl.
    rewrite build_frames_items, range_cons by lia.
    destruct (tm_frames meta) as [|x xs]; [contradiction|]. reflexivity.
Qed.

Lemma X7_task_without_segments_witness :
  load_task_data 5 (mkFullTask "t" []) (mkFullTaskMetadata 3 2 [Examples.fm "a.png"])
  = Ok (mkFullTask "t" [], [], [])
  /\ load_task_data 5 (mkFullTask "t" []) Examples.meta10
     = Raise (AssertionError (missing_job_msg 0)).
Proof.
  split.
  - apply (proj1 (X7_task_without_segments 5 (mkFullTask "t" [])
                    (mkFullTaskMetadata 3 2 [Examples.fm "a.png"]) eq_refl)).
    right. simpl. lia.
  - apply (proj2 (X7_task_without_segments 5 (mkFullTask "t" [])
                    Examples.meta10 eq_refl)).
    + discriminate.
    + simpl. lia.
Defined.

(* ===================================================================== *)
(** ** Further properties of [download_images] *)
(* ===================================================================== *)

Section DownloadMore.

Variable server : Server.
Variable unzip : bytes -> option Archive.
Variable API_URL : string.
Variable is_image : string -> bool.
Variable py_float : string -> option float.
Variables (task_id : Z) (output_path : string).

Local Abbreviation url := (dataset_url API_URL task_id).
Local Abbreviation resp := (download_answer server).

(** A run of [download_images] that ends has left the polling loop after
    finitely many answers and then run the download step to its end. *)
Lemma download_images_inv (threshold : float) (keep : bool) (fuel : nat)
    (w w' : World) (r : result (list string)) :
  run server unzip fuel
      (download_images API_URL threshold is_image py_float task_id
                       output_path keep) w = Some (r, w') ->
  exists n c,
    (forall i, (i < n)%nat ->
               status_code (export_answers server (polls w + i)) <> 201)
    /\ status_code (export_answers server (polls w + n)) = 201
    /\ takes server unzip
             (download_and_extract threshold is_image py_float url task_id
                                   output_path keep)
             (polled w (S n) (polling_events url server (polls w) n)) r w' c.
Proof.
  intros Hrun. apply run_exec in Hrun. destruct Hrun as [m Hexec].
  unfold download_images in Hexec. rewrite exec_bind in Hexec.
  destruct (exec server unzip fuel (wait_export url) w)
    as [[[[] w1] m1]|] eqn:Hwait; [|discriminate].
  destruct (wait_export_inv server unzip url fuel w w1 m1 Hwait)
    as [n [Hno [Hyes Hw1]]].
  destruct (download_and_extract_total server unzip threshold is_image
              py_float task_id output_path keep url w1)
    as [c [r0 [w0 [new [Ht _]]]]].
  destruct (takes_exec_unique server unzip _ _ _ _ _ _ _ _ _ Ht Hexec)
    as [-> ->].
  exists n, c. rewrite <- Hw1. repeat split; assumption.
Qed.

(** The first answer 201 among the answers up to one that is 201. *)
Lemma first_created (w : World) (i : nat) :
  status_code (export_answers server (polls w + i)) = 201 ->
  exists n, (n <= i)%nat
    /\ (forall m, (m < n)%nat ->
                  status_code (export_answers server (polls w + m)) <> 201)
    /\ status_code (export_answers server (polls w + n)) = 201.
Proof.
  induction i as [i IH] using lt_wf_ind. intros Hi.
  destruct (existsb (fun m => status_code (export_answers server (polls w + m))
                              =? 201) (seq 0 i)) eqn:E.
  - apply existsb_exists in E. destruct E as [m [Hm Hs]].
    apply in_seq in Hm. apply Z.eqb_eq in Hs.
    destruct (IH m ltac:(lia) Hs) as [n [Hn [Hno Hyes]]].
    exists n. split; [lia|]. split; assumption.
  - exists i. split; [lia|]. split; [|exact Hi].
    intros m Hm Hs.
    assert (X : existsb (fun m => status_code (export_answers server (polls w + m))
                                  =? 201) (seq 0 i) = true).
    { apply existsb_exists. exists m. split; [apply in_seq; lia|].
      now apply Z.eqb_eq. }
    congruence.
Qed.

(** X8. [download_images] fails to return exactly when the export request
    is never answered with 201: as soon as some answer is 201 the call ends,
    with a list of paths or with an exception. *)
Theorem X8_returns_iff_export_created (threshold : float) (keep : bool)
    (w : World) :
  let prog := download_images API_URL threshold is_image py_float task_id
                              output_path keep in
  ((exists i, status_code (export_answers server (polls w + i)) = 201) ->
   exists r w', runs server unzip prog w r w')
  /\ (diverges server unzip prog w <->
      forall i, status_code (export_answers server (polls w + i)) <> 201).
Proof.
  intros prog.
  assert (Hruns : (exists i, status_code (export_answers server (polls w + i)) = 201) ->
                  exists r w', runs server unzip prog w r w').
  { intros [i Hi]. destruct (first_created w i Hi) as [n [_ [Hno Hyes]]].
    destruct (wait_export_takes server unzip url n w Hno Hyes) as [c1 H1].
    destruct (download_and_extract_total server unzip threshold is_image
                py_float task_id output_path keep url
                (polled w (S n) (polling_events url server (polls w) n)))
      as [c2 [r [w' [new [H2 _]]]]].
    exists r, w'. apply (takes_runs server unzip _ _ _ _ (c1 + c2)).
    unfold prog, download_images. eapply takes_bind; [exact H1 | exact H2]. }
  split; [exact Hruns|]. split.
  - intros D i Hi. destruct (Hruns (ex_intro _ i Hi)) as [r [w' Hr]].
    exact (runs_not_diverges server unzip _ _ _ _ Hr D).
  - intros Hno fuel. unfold run, prog, download_images.
    rewrite exec_bind.
    now rewrite (wait_export_never server unzip url fuel w Hno).
Qed.

(** X9. The list [download_images] returns does not depend on the size
    threshold: two runs against the same server that both return a list
    return the same one. *)
Theorem X9_result_independent_of_threshold (t1 t2 : float) (keep : bool)
    (w1 w2 w1' w2' : World) (f1 f2 : nat) (p1 p2 : list string) :
  run server unzip f1
      (download_images API_URL t1 is_image py_float task_id output_path keep)
      w1 = Some (Ok p1, w1') ->
  run server unzip f2
      (download_images API_URL t2 is_image py_float task_id output_path keep)
      w2 = Some (Ok p2, w2') ->
  p1 = p2.
Proof.
  intros H1 H2.
  destruct (download_images_inv t1 keep f1 w1 w1' _ H1) as [n1 [c1 [_ [_ T1]]]].
  destruct (download_images_inv t2 keep f2 w2 w2' _ H2) as [n2 [c2 [_ [_ T2]]]].
  destruct (download_and_extract_total server unzip t1 is_image py_float
              task_id output_path keep url
              (polled w1 (S n1) (polling_events url server (polls w1) n1)))
    as [d1 [r1 [v1 [new1 [U1 [_ [_ R1]]]]]]].
  destruct (download_and_extract_total server unzip t2 is_image py_float
              task_id output_path keep url
              (polled w2 (S n2) (polling_events url server (polls w2) n2)))
    as [d2 [r2 [v2 [new2 [U2 [_ [_ R2]]]]]]].
  pose proof (T1 0%nat) as E1. rewrite Nat.add_0_r in E1.
  pose proof (T2 0%nat) as E2. rewrite Nat.add_0_r in E2.
  destruct (takes_exec_unique server unzip _ _ _ _ _ _ _ _ _ U1 E1) as [<- _].
  destruct (takes_exec_unique server unzip _ _ _ _ _ _ _ _ _ U2 E2) as [<- _].
  destruct R1 as [z1 [Z1 [P1 _]]]. destruct R2 as [z2 [Z2 [P2 _]]].
  rewrite Z1 in Z2. inversion Z2; subst. reflexivity.
Qed.

End DownloadMore.

Lemma X8_returns_iff_export_created_witness :
  exists r w',
    runs DownloadExamples.server DownloadExamples.unzip
         (download_images "http://cvat/api" DownloadExamples.one_gb
            DownloadExamples.is_image DownloadExamples.py_float 7 "out" true)
         DownloadExamples.empty_world r w'.
Proof.
  apply (proj1 (X8_returns_iff_export_created
                  DownloadExamples.server DownloadExamples.unzip
                  "http://cvat/api" DownloadExamples.is_image
                  DownloadExamples.py_float 7 "out" DownloadExamples.one_gb
                  true DownloadExamples.empty_world)).
  exists 3%nat. reflexivity.
Defined.

Lemma X9_result_independent_of_threshold_witness :
  exists p1 p2 w1 w2,
    run DownloadExamples.server DownloadExamples.unzip 100
        (download_images "http://cvat/api" DownloadExamples.one_gb
           DownloadExamples.is_image DownloadExamples.py_float 7 "out" true)
        DownloadExamples.empty_world = Some (Ok p1, w1)
    /\ run DownloadExamples.server DownloadExamples.unzip 100
           (download_images "http://cvat/api" DownloadExamples.one_byte
              DownloadExamples.is_image DownloadExamples.py_float 7 "out" true)
           DownloadExamples.empty_world = Some (Ok p2, w2)
    /\ p1 = p2.
Proof.
  destruct (run DownloadExamples.server DownloadExamples.unzip 100
              (download_images "http://cvat/api" DownloadExamples.one_gb
                 DownloadExamples.is_image DownloadExamples.py_float 7 "out" true)
              DownloadExamples.empty_world) as [[[p1|e1] w1]|] eqn:E1;
    [|vm_compute in E1; discriminate|vm_compute in E1; discriminate].
  destruct (run DownloadExamples.server DownloadExamples.unzip 100
              (download_images "http://cvat/api" DownloadExamples.one_byte
                 DownloadExamples.is_image DownloadExamples.py_float 7 "out" true)
              DownloadExamples.empty_world) as [[[p2|e2] w2]|] eqn:E2;
    [|vm_compute in E2; discriminate|vm_compute in E2; discriminate].
  exists p1, p2, w1, w2. split; [reflexivity|]. split; [reflexivity|].
  exact (X9_result_independent_of_threshold
           DownloadExamples.server DownloadExamples.unzip "http://cvat/api"
           DownloadExamples.is_image DownloadExamples.py_float 7 "out"
           DownloadExamples.one_gb DownloadExamples.one_byte true
           _ _ _ _ _ _ p1 p2 E1 E2).
Defined.

Lemma ends_with_char_app (c : ascii) (a b : string) :
  b <> "" -> PyStr.ends_with_char c (a ++ b) = PyStr.ends_with_char c b.
Proof.
  intros Hb. induction a as [|x a IH]; [reflexivity|].
  simpl. destruct (a ++ b)%string eqn:E.
  - destruct a; simpl in E; [contradiction | discriminate].
  - exact IH.
Qed.

Lemma starts_with_char_app (c : ascii) (a b : string) :
  a <> "" -> PyStr.starts_with_char c (a ++ b) = PyStr.starts_with_char c a.
Proof. intros Ha. destruct a; [contradiction | reflexivity]. Qed.

(** Joining relative components is associative. *)
Lemma path_join_assoc (a b c : string) :
  b <> "" ->
  PyStr.starts_with_char "/" b = false ->
  PyStr.starts_with_char "/" c = false ->
  PyStr.path_join a (PyStr.path_join b c) = PyStr.path_join (PyStr.path_join a b) c.
Proof.
  intros Hb Sb Sc.
  assert (Hbc : PyStr.path_join b c
                = if PyStr.ends_with_char "/" b then (b ++ c)%string
                  else (b ++ "/" ++ c)%string).
  { unfold PyStr.path_join. rewrite Sc.
    destruct b; [contradiction|]. reflexivity. }
  assert (Sbc : PyStr.starts_with_char "/" (PyStr.path_join b c) = false).
  { rewrite Hbc. destruct (PyStr.ends_with_char "/" b);
      now rewrite starts_with_char_app. }
  assert (Hab : exists pre, PyStr.path_join a b = (pre ++ b)%string
                            /\ forall r, PyStr.starts_with_char "/" r = false ->
                                         PyStr.path_join a r = (pre ++ r)%string).
  { unfold PyStr.path_join. rewrite Sb.
    destruct ((a =? "")%string || PyStr.ends_with_char "/" a)%bool eqn:E.
    - exists a. split; [reflexivity|]. intros r Hr. now rewrite Hr.
    - exists (a ++ "/")%string. split; [now rewrite append_assoc|].
      intros r Hr. rewrite Hr. now rewrite append_assoc. }
  destruct Hab as [pre [Eab Hpre]].
  rewrite (Hpre _ Sbc), Eab, Hbc.
  unfold PyStr.path_join at 1. rewrite Sc.
  assert (Hne : ((pre ++ b)%string =? "")%string = false).
  { apply String.eqb_neq. destruct pre; simpl; [exact Hb | discriminate]. }
  rewrite Hne, (ends_with_char_app "/" pre b Hb). simpl.
  destruct (PyStr.ends_with_char "/" b); now rewrite !append_assoc.
Qed.

(** The list [download_images] builds from the member names, joined to
    [output_path], is the member names joined to the directory of the
    extraction. *)
Lemma returned_paths_join (output_path : string) (task_id : Z)
    (keep_image_path : bool) (members : list string) :
  (Forall (fun m => PyStr.starts_with_char "/" m = false) members ->
   map (PyStr.path_join output_path)
       (returned_paths task_id keep_image_path members)
   = map (PyStr.path_join
            (output_task_path output_path task_id keep_image_path))
         members)
  /\ List.length (returned_paths task_id keep_image_path members)
     = List.length members
  /\ (forall m, In m members -> PyStr.starts_with_char "/" m = true ->
                In m (returned_paths task_id keep_image_path members)).
Proof.
  split; [|split].
  - intros Hrel. unfold returned_paths, output_task_path.
    destruct keep_image_path; [reflexivity|].
    rewrite map_map. apply map_ext_in. intros m Hm.
    rewrite Forall_forall in Hrel.
    apply path_join_assoc; [discriminate | reflexivity | now apply Hrel].
  - unfold returned_paths. destruct keep_image_path;
      [reflexivity | apply length_map].
  - intros m Hin Hm. unfold returned_paths.
    destruct keep_image_path; [exact Hin|].
    apply in_map_iff. exists m. split; [|exact Hin].
    unfold PyStr.path_join. now rewrite Hm.
Qed.

Section ReturnedPaths.

Variable server : Server.
Variable unzip : bytes -> option Archive.
Variable API_URL : string.
Variable threshold : float.
Variable is_image : string -> bool.
Variable py_float : string -> option float.
Variables (task_id : Z) (output_path : string).

(** X10. A call of [download_images] that returns ends with the call of
    [extractall] on the task directory and the image members, and the debug
    line. The list it returns has one path per member handed to
    [extractall]; joined to [output_path], the path returned for a member
    with a relative name is that name joined to the directory handed to
    [extractall], in both modes; a member with an absolute name is returned
    as it is, without the [task-{id}] prefix. *)
Theorem X10_returned_paths_resolve (keep : bool) (fuel : nat) (w w' : World)
    (paths : list string) :
  run server unzip fuel
      (download_images API_URL threshold is_image py_float task_id
                       output_path keep) w = Some (Ok paths, w') ->
  let dir := output_task_path output_path task_id keep in
  exists zip_ref before,
    let members := filter is_image (namelist zip_ref) in
    trace w'
    = trace w ++ before
      ++ [ev (ExtractAll zip_ref dir members);
          ev (LogDebug (extracted_msg (List.length paths) dir))]
    /\ paths = returned_paths task_id keep members
    /\ List.length paths = List.length members
    /\ (Forall (fun m => PyStr.starts_with_char "/" m = false) members ->
        map (PyStr.path_join output_path) paths
        = map (PyStr.path_join dir) members)
    /\ (forall m, In m members -> PyStr.starts_with_char "/" m = true ->
                  In m paths).
Proof.
  intros Hrun dir.
  destruct (download_images_inv server unzip API_URL is_image py_float task_id
              output_path threshold keep fuel w w' _ Hrun)
    as [n [c [_ [_ T]]]].
  destruct (download_and_extract_total server unzip threshold is_image
              py_float task_id output_path keep (dataset_url API_URL task_id)
              (polled w (S n)
                 (polling_events (dataset_url API_URL task_id) server
                    (polls w) n)))
    as [c0 [r0 [w0 [new [T0 [Htr [_ Hres]]]]]]].
  pose proof (T 0%nat) as E. rewrite Nat.add_0_r in E.
  destruct (takes_exec_unique server unzip _ _ _ _ _ _ _ _ _ T0 E)
    as [<- <-].
  destruct Hres as [zip_ref [_ [Hp [_ [before Hnew]]]]].
  exists zip_ref,
    (polling_events (dataset_url API_URL task_id) server (polls w) n ++ before).
  cbv zeta.
  destruct (returned_paths_join output_path task_id keep
              (filter is_image (namelist zip_ref))) as [H1 [H2 H3]].
  split; [|split; [exact Hp|]].
  - rewrite Htr, Hnew. unfold polled. cbn [trace].
    now rewrite <- !app_assoc.
  - rewrite Hp. split; [exact H2|]. split; [exact H1 | exact H3].
Qed.

End ReturnedPaths.

Lemma X10_returned_paths_resolve_witness :
  exists paths w' zip_ref before,
    run DownloadExamples.server DownloadExamples.unzip 100
        (download_images "http://cvat/api" DownloadExamples.one_gb
           DownloadExamples.is_image DownloadExamples.py_float 7 "out" false)
        DownloadExamples.empty_world = Some (Ok paths, w')
    /\ trace w'
       = trace DownloadExamples.empty_world ++ before
         ++ [ev (ExtractAll zip_ref (output_task_path "out" 7 false)
                   (filter DownloadExamples.is_image (namelist zip_ref)));
             ev (LogDebug (extracted_msg (List.length paths)
                                         (output_task_path "out" 7 false)))]
    /\ paths = returned_paths 7 false
                 (filter DownloadExamples.is_image (namelist zip_ref)).
Proof.
  destruct (run DownloadExamples.server DownloadExamples.unzip 100
              (download_images "http://cvat/api" DownloadExamples.one_gb
                 DownloadExamples.is_image DownloadExamples.py_float 7 "out"
                 false)
              DownloadExamples.empty_world) as [[[paths|e] w']|] eqn:E;
    [|vm_compute in E; discriminate|vm_compute in E; discriminate].
  pose proof (X10_returned_paths_resolve
                DownloadExamples.server DownloadExamples.unzip
                "http://cvat/api" DownloadExamples.one_gb
                DownloadExamples.is_image DownloadExamples.py_float 7 "out"
                false 100 DownloadExamples.empty_world w' paths E) as H.
  cbv zeta in H. destruct H as [zip_ref [before [Htr [Hp _]]]].
  exists paths, w', zip_ref, before. split; [reflexivity|].
  split; [exact Htr | exact Hp].
Defined.

(* ===================================================================== *)
(** ** [download_images]: errors of the download step, and a second call *)
(* ===================================================================== *)

Lemma exec_unfold {R} (server : Server) (unzip : bytes -> option Archive)
    (fuel : nat) (t : itree ioE R) (w : World) :
  exec server unzip fuel t w
  = match observe t with
    | RetF r => Some (r, w, fuel)
    | TauF t' =>
        match fuel with
        | O => None
        | S n => exec server unzip n t' w
        end
    | VisF e k =>
        match fuel with
        | O => None
        | S n => exec server unzip n (k (fst (handle server unzip e w)))
                      (log e (snd (handle server unzip e w)))
        end
    end.
Proof. destruct fuel; reflexivity. Qed.

Lemma exec_trigger_0 {T} (server : Server) (unzip : bytes -> option Archive)
    (e : ioE T) (w : World) :
  exec server unzip 0 (ITree.trigger e) w = None.
Proof. reflexivity. Qed.

(** No event removes a directory. *)
Lemma handle_dirs_grow {T} (server : Server) (unzip : bytes -> option Archive)
    (e : ioE T) (w : World) (p : string) :
  dir_exists p (dirs w) = true ->
  dir_exists p (dirs (snd (handle server unzip e w))) = true.
Proof.
  intros H. destruct e; cbn; try exact H.
  - destruct (is_download params); exact H.
  - destruct (take_chunk chunk_size (unread w)) as [[c r]|]; exact H.
  - destruct (path_error path); [exact H|].
    destruct (dir_exists path (dirs w)); [exact H|]. cbn.
    rewrite dir_exists_cons, H. apply orb_true_r.
Qed.

Lemma exec_dirs_grow {R} (server : Server) (unzip : bytes -> option Archive)
    (p : string) (fuel : nat) :
  forall (t : itree ioE R) (w w' : World) (r : R) (m : nat),
    exec server unzip fuel t w = Some (r, w', m) ->
    dir_exists p (dirs w) = true -> dir_exists p (dirs w') = true.
Proof.
  induction fuel as [|n IH]; intros t w w' r m H Hd; rewrite exec_unfold in H;
    destruct (observe t); try discriminate.
  - inversion H; subst; exact Hd.
  - inversion H; subst; exact Hd.
  - exact (IH _ _ _ _ _ H Hd).
  - apply (IH _ _ _ _ _ H). unfold log; cbn [dirs]. now apply handle_dirs_grow.
Qed.

(** [os.makedirs] that does not raise was given a path it accepts and leaves
    the directory on disk. *)
Lemma makedirs_creates (server : Server) (unzip : bytes -> option Archive)
    (p : string) (exist_ok : bool) (w : World) :
  fst (handle server unzip (Makedirs p exist_ok) w) = Ok tt ->
  path_error p = None
  /\ dir_exists p (dirs (snd (handle server unzip (Makedirs p exist_ok) w)))
     = true.
Proof.
  cbn. destruct (path_error p); [discriminate|].
  destruct (dir_exists p (dirs w)) eqn:E; cbn.
  - intros _. split; [reflexivity | exact E].
  - intros _. split; [reflexivity|].
    rewrite dir_exists_cons, String.eqb_refl. reflexivity.
Qed.

Section DownloadErrors.

Variable server : Server.
Variable unzip : bytes -> option Archive.
Variable API_URL : string.
Variable threshold : float.
Variable is_image : string -> bool.
Variable py_float : string -> option float.
Variables (task_id : Z) (output_path : string).

Local Abbreviation url := (dataset_url API_URL task_id).
Local Abbreviation resp := (download_answer server).
Local Abbreviation zip := (zip_path output_path task_id).
Local Abbreviation otp := (output_task_path output_path task_id).
Local Abbreviation prog :=
  (download_images API_URL threshold is_image py_float task_id output_path).
Local Abbreviation after_export :=
  (download_and_extract threshold is_image py_float url task_id output_path).
Local Abbreviation extract := (extract_images is_image task_id output_path).
Local Abbreviation fetch :=
  (fetch_archive threshold py_float url task_id output_path).

(** An extraction that returns was given a path [os.makedirs] accepts and
    leaves its directory on disk. *)
Lemma extract_images_leaves_dir (keep : bool) (source : ArchiveSource)
    (n m : nat) (w w' : World) (paths : list string) :
  exec server unzip n (extract keep source) w = Some (Ok paths, w', m) ->
  path_error (otp keep) = None /\ dir_exists (otp keep) (dirs w') = true.
Proof.
  intros H. unfold extract_images in H. cbv zeta in H.
  change (if keep then output_path
          else PyStr.path_join output_path (task_dir task_id))
    with (otp keep) in H.
  destruct n as [|n]; [rewrite exec_bind, exec_trigger_0 in H; discriminate|].
  rewrite exec_bind_trigger in H.
  destruct (fst (handle server unzip (Makedirs (otp keep) keep) w))
    as [[]|e] eqn:Hmk.
  - destruct (makedirs_creates server unzip _ _ _ Hmk) as [Hpath Hd].
    split; [exact Hpath|].
    apply (exec_dirs_grow server unzip (otp keep) _ _ _ _ _ _ H).
    unfold log; cbn [dirs]. exact Hd.
  - cbv beta iota in H. rewrite exec_ret in H. discriminate.
Qed.

(** Once some answer to the export request is 201, the call is the polling
    loop followed by the download step and the extraction. *)
Lemma after_polling (keep : bool) (w : World) :
  (exists i, status_code (export_answers server (polls w + i)) = 201) ->
  exists n,
    forall r w' c,
      takes server unzip (after_export keep)
            (polled w (S n) (polling_events url server (polls w) n)) r w' c ->
      runs server unzip (prog keep) w r w'.
Proof.
  intros [i Hi]. destruct (first_created server w i Hi) as [n [_ [Hno Hyes]]].
  destruct (wait_export_takes server unzip url n w Hno Hyes) as [c1 H1].
  exists n. intros r w' c H2. apply (takes_runs server unzip _ _ _ _ (c1 + c)).
  unfold download_images. eapply takes_bind; [exact H1 | exact H2].
Qed.

(** X11. The download response must carry a numeric [Content-Length]
    header: without the header the call raises the [KeyError] of the headers,
    whose key is [content-length] in lower case; with a value [float]
    rejects it raises [ValueError]. Either way the exception comes after the
    whole wait for the export and the download request, and the disk is left
    as it was. *)
Theorem X11_content_length_header_required (keep : bool) (w : World) :
  (exists i, status_code (export_answers server (polls w + i)) = 201) ->
  exists n,
    let after :=
      mkWorld (polls w + S n) (body resp) (dirs w) (files w)
              (trace w ++ polling_events url server (polls w) n
                       ++ [ev (Get url download_params true)]) in
    (headers resp "Content-Length" = None ->
     runs server unzip (prog keep) w (Raise (KeyError "content-length")) after)
    /\ (forall text,
          headers resp "Content-Length" = Some text ->
          py_float text = None ->
          runs server unzip (prog keep) w (Raise (ValueError text)) after).
Proof.
  intros Hex. destruct (after_polling keep w Hex) as [n Hn].
  exists n. intros after. split.
  - intros Hh. apply (Hn _ _ (1 + 0)%nat).
    apply download_and_extract_raises.
    unfold after. rewrite app_assoc.
    exact (fetch_no_header server unzip threshold py_float url task_id
             output_path
             (polled w (S n) (polling_events url server (polls w) n)) Hh).
  - intros text Hh Hp. apply (Hn _ _ (1 + 0)%nat).
    apply download_and_extract_raises.
    unfold after. rewrite app_assoc.
    exact (fetch_bad_header server unzip threshold py_float url task_id
             output_path
             (polled w (S n) (polling_events url server (polls w) n))
             text Hh Hp).
Qed.


(** What a call that returned a list tells about the download response and
    the disk. *)
Lemma after_export_ok_inv (keep : bool) (n m : nat) (w w' : World)
    (paths : list string) :
  exec server unzip n (after_export keep) w = Some (Ok paths, w', m) ->
  exists text len zip_ref,
    headers resp "Content-Length" = Some text
    /\ py_float text = Some len
    /\ (keep_in_memory threshold len = true
        \/ (raise_for_status resp = Ok tt /\ path_error output_path = None))
    /\ unzip (body resp) = Some zip_ref
    /\ paths = returned_paths task_id keep
                 (filter is_image (namelist zip_ref))
    /\ path_error (otp keep) = None
    /\ dir_exists (otp keep) (dirs w') = true.
Proof.
  intros H.
  assert (Hraise : forall e w1 c,
             takes server unzip fetch w (Raise e) w1 c -> False).
  { intros e w1 c T.
    pose proof (download_and_extract_raises server unzip threshold is_image
                  py_float task_id output_path keep url w w1 e c T) as T'.
    destruct (takes_exec_unique server unzip _ _ _ _ _ _ _ _ _ T' H)
      as [X _]. discriminate. }
  destruct (headers resp "Content-Length") as [text|] eqn:Hh.
  2:{ exfalso. exact (Hraise _ _ _
                        (fetch_no_header server unzip threshold py_float url
                           task_id output_path w Hh)). }
  destruct (py_float text) as [len|] eqn:Hp.
  2:{ exfalso. exact (Hraise _ _ _
                        (fetch_bad_header server unzip threshold py_float url
                           task_id output_path w text Hh Hp)). }
  assert (Hstatus : keep_in_memory threshold len = true
                    \/ (raise_for_status resp = Ok tt
                        /\ path_error output_path = None)).
  { destruct (keep_in_memory threshold len) eqn:Hk; [now left|]. right.
    destruct (raise_for_status resp) as [[]|e] eqn:Hs.
    - split; [reflexivity|].
      destruct (path_error output_path) as [e|] eqn:Hpath; [|reflexivity].
      exfalso. exact (Hraise _ _ _
                        (fetch_makedirs_error server unzip threshold py_float
                           url task_id output_path text len Hh Hp w e Hk Hs
                           Hpath)).
    - exfalso. exact (Hraise _ _ _
                        (fetch_http_error server unzip threshold py_float url
                           task_id output_path text len Hh Hp w e Hk Hs)). }
  destruct (download_and_extract_total server unzip threshold is_image
              py_float task_id output_path keep url w)
    as [c [r [w0 [new [T [_ [_ Hr]]]]]]].
  destruct (takes_exec_unique server unzip _ _ _ _ _ _ _ _ _ T H)
    as [<- _].
  destruct Hr as [zip_ref [Hz [Hpaths _]]].
  exists text, len, zip_ref.
  split; [reflexivity|]. split; [exact Hp|]. split; [exact Hstatus|].
  split; [exact Hz|]. split; [exact Hpaths|].
  unfold download_and_extract in H. rewrite exec_bind in H.
  destruct (exec server unzip n fetch w) as [[[[source|e] w1] m1]|];
    [|rewrite exec_ret in H; discriminate | discriminate].
  exact (extract_images_leaves_dir keep source _ _ _ _ _ H).
Qed.

(** With the task directory on disk, a call in isolated mode downloads its
    archive and then raises [FileExistsError]. *)
Lemma after_export_conflict (text : string) (len : float) (w : World) :
  headers resp "Content-Length" = Some text ->
  py_float text = Some len ->
  keep_in_memory threshold len = true
  \/ (raise_for_status resp = Ok tt /\ path_error output_path = None) ->
  path_error (otp false) = None ->
  dir_exists (otp false) (dirs w) = true ->
  exists c w' fetched,
    takes server unzip (after_export false) w
          (Raise (FileExistsError (otp false))) w' c
    /\ trace w'
       = trace w ++ ev (Get url download_params true)
                    :: fetched ++ [ev (Makedirs (otp false) false)]
    /\ (fetched = [ev (Content resp)]
        \/ fetched
           = [ev (Makedirs output_path true); ev (FileOpen zip)]
             ++ stream_events resp zip (chunks 8192 (body resp))
             ++ [ev (FileClose zip)]).
Proof.
  intros Hh Hp Hstatus Hpath Hd.
  destruct (keep_in_memory threshold len) eqn:Hk.
  - pose proof (fetch_in_memory server unzip threshold py_float url task_id
                  output_path text len Hh Hp w Hk) as Hf.
    eexists _, _, [ev (Content resp)]. split; [|split; [|now left]].
    + unfold download_and_extract. eapply takes_bind; [exact Hf|].
      apply extract_images_makedirs_raises.
      apply makedirs_conflict; [exact Hpath | reflexivity | exact Hd].
    + unfold log. cbn [trace]. rewrite <- app_assoc. reflexivity.
  - destruct Hstatus as [X|[Hs Hout]]; [discriminate|].
    destruct (fetch_streamed server unzip threshold py_float url task_id
                output_path text len Hh Hp w Hk Hs Hout)
      as [c [w1 [Hf [_ [Hd1 [_ Htr1]]]]]].
    eexists _, _, _. split; [|split; [|now right]].
    + unfold download_and_extract. eapply takes_bind; [exact Hf|].
      apply extract_images_makedirs_raises.
      apply makedirs_conflict; [exact Hpath | reflexivity|].
      rewrite Hd1. destruct (dir_exists output_path (dirs w)); [exact Hd|].
      rewrite dir_exists_cons, Hd. apply orb_true_r.
    + unfold log. cbn [trace]. rewrite Htr1, <- !app_assoc. reflexivity.
Qed.

(** X13. Calling [download_images] a second time, for the same task and
    output directory, after a call that returned. With [keep_image_path] the
    second call returns the same list, provided the archive extracts again.
    Without it the task directory made by the first call makes the second
    raise [FileExistsError]: it waits for the export, requests the download
    and reads the body into memory or streams it to the zip file once more,
    and fails at [os.makedirs], before it opens the archive. *)
Theorem X13_second_call (keep : bool) (fuel : nat) (w w' : World)
    (paths : list string) :
  run server unzip fuel (prog keep) w = Some (Ok paths, w') ->
  (exists i, status_code (export_answers server (polls w' + i)) = 201) ->
  exists zip_ref,
    unzip (body resp) = Some zip_ref
    /\ (keep = true ->
        (forall fs,
            fst (extractall zip_ref (otp keep)
                   (filter is_image (namelist zip_ref)) fs) = Ok tt) ->
        exists w'', runs server unzip (prog keep) w' (Ok paths) w'')
    /\ (keep = false ->
        exists n w'' fetched,
          runs server unzip (prog keep) w'
               (Raise (FileExistsError (otp keep))) w''
          /\ trace w''
             = trace w' ++ polling_events url server (polls w') n
               ++ ev (Get url download_params true)
                  :: fetched ++ [ev (Makedirs (otp keep) false)]
          /\ (fetched = [ev (Content resp)]
              \/ fetched
                 = [ev (Makedirs output_path true); ev (FileOpen zip)]
                   ++ stream_events resp zip (chunks 8192 (body resp))
                   ++ [ev (FileClose zip)])).
Proof.
  intros Hrun Hex.
  destruct (download_images_inv server unzip API_URL is_image py_float task_id
              output_path threshold keep fuel w w' _ Hrun)
    as [n0 [c [_ [_ T]]]].
  destruct (after_export_ok_inv keep _ _ _ _ _ (T 0%nat))
    as [text [len [zip_ref [Hh [Hp [Hstatus [Hz [Hpaths [Hpath Hd]]]]]]]]].
  destruct (after_polling keep w' Hex) as [n Hn].
  exists zip_ref. split; [exact Hz|]. split.
  - intros -> Hext.
    destruct (download_and_extract_takes server unzip threshold is_image
                py_float task_id output_path true text len zip_ref
                Hh Hp
                (match Hstatus with
                 | or_introl A => or_introl A
                 | or_intror (conj A _) => or_intror A
                 end)
                Hz Hpath Hext url
                (polled w' (S n) (polling_events url server (polls w') n))
                (or_introl eq_refl))
      as [c2 [w'' [new [Ht _]]]].
    exists w''. rewrite Hpaths. exact (Hn _ _ _ Ht).
  - intros ->.
    destruct (after_export_conflict text len
                (polled w' (S n) (polling_events url server (polls w') n))
                Hh Hp Hstatus Hpath Hd)
      as [c2 [w'' [fetched [Ht [Htr Hf]]]]].
    exists n, w'', fetched. split; [exact (Hn _ _ _ Ht)|]. split; [|exact Hf].
    rewrite Htr. unfold polled. cbn [trace]. now rewrite <- app_assoc.
Qed.

End DownloadErrors.

Lemma X11_content_length_header_required_witness :
  (exists w',
      runs (DownloadErrorExamples.ready DownloadErrorExamples.no_length)
           DownloadExamples.unzip
           (download_images "http://cvat/api" DownloadExamples.one_gb
              DownloadExamples.is_image DownloadExamples.py_float 7 "out" true)
           DownloadExamples.empty_world (Raise (KeyError "content-length")) w'
      /\ files w' = [] /\ dirs w' = [])
  /\ (exists w',
         runs (DownloadErrorExamples.ready DownloadErrorExamples.bad_length)
              DownloadExamples.unzip
              (download_images "http://cvat/api" DownloadExamples.one_gb
                 DownloadExamples.is_image DownloadExamples.py_float 7 "out"
                 true)
              DownloadExamples.empty_world (Raise (ValueError "twelve")) w'
         /\ files w' = [] /\ dirs w' = []).
Proof.
  split.
  - destruct (X11_content_length_header_required
                (DownloadErrorExamples.ready DownloadErrorExamples.no_length)
                DownloadExamples.unzip "http://cvat/api" DownloadExamples.one_gb
                DownloadExamples.is_image DownloadExamples.py_float 7 "out"
                true DownloadExamples.empty_world
                (ex_intro _ 0%nat eq_refl)) as [n H].
    cbv zeta in H. destruct H as [H _].
    eexists. split; [exact (H eq_refl) | split; reflexivity].
  - destruct (X11_content_length_header_required
                (DownloadErrorExamples.ready DownloadErrorExamples.bad_length)
                DownloadExamples.unzip "http://cvat/api" DownloadExamples.one_gb
                DownloadExamples.is_image DownloadExamples.py_float 7 "out"
                true DownloadExamples.empty_world
                (ex_intro _ 0%nat eq_refl)) as [n H].
    cbv zeta in H. destruct H as [_ H].
    eexists. split; [exact (H "twelve" eq_refl eq_refl) | split; reflexivity].
Defined.


Lemma X13_second_call_witness :
  exists paths w' n w'' fetched,
    run (DownloadErrorExamples.ready DownloadExamples.download)
        DownloadExamples.unzip 100
        (download_images "http://cvat/api" DownloadExamples.one_gb
           DownloadExamples.is_image DownloadExamples.py_float 7 "out" false)
        DownloadExamples.empty_world = Some (Ok paths, w')
    /\ runs (DownloadErrorExamples.ready DownloadExamples.download)
            DownloadExamples.unzip
            (download_images "http://cvat/api" DownloadExamples.one_gb
               DownloadExamples.is_image DownloadExamples.py_float 7 "out"
               false)
            w' (Raise (FileExistsError (output_task_path "out" 7 false))) w''
    /\ trace w''
       = trace w'
         ++ polling_events (dataset_url "http://cvat/api" 7)
              (DownloadErrorExamples.ready DownloadExamples.download)
              (polls w') n
         ++ ev (Get (dataset_url "http://cvat/api" 7) download_params true)
            :: fetched ++ [ev (Makedirs (output_task_path "out" 7 false) false)].
Proof.
  destruct (run (DownloadErrorExamples.ready DownloadExamples.download)
              DownloadExamples.unzip 100
              (download_images "http://cvat/api" DownloadExamples.one_gb
                 DownloadExamples.is_image DownloadExamples.py_float 7 "out"
                 false)
              DownloadExamples.empty_world) as [[[paths|e] w']|] eqn:E;
    [|vm_compute in E; discriminate|vm_compute in E; discriminate].
  destruct (X13_second_call
              (DownloadErrorExamples.ready DownloadExamples.download)
              DownloadExamples.unzip "http://cvat/api" DownloadExamples.one_gb
              DownloadExamples.is_image DownloadExamples.py_float 7 "out"
              false 100 DownloadExamples.empty_world w' paths E
              (ex_intro _ 0%nat eq_refl)) as [zip_ref [_ [_ H]]].
  destruct (H eq_refl) as [n [w'' [fetched [Hr [Htr _]]]]].
  exists paths, w', n, w'', fetched. split; [reflexivity|].
  split; [exact Hr | exact Htr].
Defined.

(* ===================================================================== *)
(** ** When the loader returns *)
(* ===================================================================== *)

(** The three assertions are the whole validation: the loader returns
    exactly when invariants 1, 3 and 4 hold of the index it builds. *)
Lemma load_returns_iff (tid : Z) (task : FullTask) (meta : FullTaskMetadata) :
  (exists r, load_task_data tid task meta = Ok r)
  <-> one_job_per_segment task
      /\ jobs_within_index task meta
      /\ index_covered task meta.
Proof.
  split.
  - intros [[[t js] frames] H].
    destruct (load_ok_inv tid task meta t js frames H)
      as [_ [_ [Ef [H1 [H3 H4]]]]].
    split; [now apply single_jobs_iff|]. split.
    + intros j k Hj Hk.
      apply (proj1 (keys_build_frames_iff tid task meta k)).
      apply (proj1 (job_fits_all_iff tid task meta) H3 j k Hj).
      now apply covers_iff.
    + intros k Hk. rewrite Ef in H4.
      destruct (proj1 (has_job_all_iff tid task meta) H4 k
                  (proj2 (keys_build_frames_iff tid task meta k) Hk))
        as [j [Hj Hc]].
      exists j. split; [exact Hj | now apply covers_iff].
  - intros [H1 [H3 H4]]. eexists. now apply load_valid.
Qed.

(** X14. The three assertions of [load_task_data] are its whole validation:
    it returns exactly when every segment has one job, every frame id a job
    covers is a key of the index (the range cut at the number of
    descriptors), and every key is covered by some job; otherwise it raises
    an [AssertionError]. *)
Theorem X14_returns_iff_invariants (tid : Z) (task : FullTask)
    (meta : FullTaskMetadata) :
  ((exists r, load_task_data tid task meta = Ok r)
   <-> one_job_per_segment task
       /\ jobs_within_index task meta
       /\ index_covered task meta)
  /\ (~ (one_job_per_segment task
         /\ jobs_within_index task meta
         /\ index_covered task meta) ->
      exists msg, load_task_data tid task meta = Raise (AssertionError msg)).
Proof.
  split; [apply load_returns_iff|].
  intros Hno. destruct (load_task_data tid task meta) as [r|e] eqn:E.
  - exfalso. apply Hno. apply (load_returns_iff tid task meta).
    exists r. exact E.
  - destruct (load_raise_inv tid task meta e E)
      as [->|[[j [k [_ [_ [_ ->]]]]]|[k [_ [_ ->]]]]]; eexists; reflexivity.
Qed.

Lemma X14_returns_iff_invariants_witness :
  (one_job_per_segment Examples.task2
   /\ jobs_within_index Examples.task2 Examples.meta10
   /\ index_covered Examples.task2 Examples.meta10)
  /\ exists msg,
       load_task_data 5 Examples.task_gap Examples.meta10
       = Raise (AssertionError msg).
Proof.
  destruct (X14_returns_iff_invariants 5 Examples.task2 Examples.meta10)
    as [[H _] _].
  destruct (X14_returns_iff_invariants 5 Examples.task_gap Examples.meta10)
    as [_ H'].
  split.
  - apply H. eexists. reflexivity.
  - apply H'. intros [_ [_ Hc]].
    destruct (Hc 5) as [j [Hj Hk]]; [unfold in_index; simpl; lia|].
    simpl in Hj. destruct Hj as [<-|[<-|[]]]; simpl in Hk; lia.
Defined.

(* ===================================================================== *)
(** ** The loaders that talk to the API *)
(* ===================================================================== *)

Lemma str_last_snoc (u : string) (c : ascii) :
  str_last (u ++ String c "") = Some c.
Proof.
  induction u as [|x u IH]; [reflexivity|].
  cbn [append str_last]. destruct (u ++ String c "")%string eqn:E.
  - destruct u; discriminate.
  - exact IH.
Qed.

Lemma str_but_last_snoc (u : string) (c : ascii) :
  str_but_last (u ++ String c "") = u.
Proof.
  induction u as [|x u IH]; [reflexivity|].
  cbn [append str_but_last]. destruct (u ++ String c "")%string eqn:E.
  - destruct u; discriminate.
  - now rewrite IH.
Qed.

Lemma str_last_none (u : string) : str_last u = None -> u = "".
Proof.
  induction u as [|x u IH]; [reflexivity|].
  cbn [str_last]. destruct u; [discriminate|].
  intros H. specialize (IH H). discriminate.
Qed.

(** A string is what precedes its last character, and that character. *)
Lemma str_last_but_last (u : string) (c : ascii) :
  str_last u = Some c -> u = (str_but_last u ++ String c "")%string.
Proof.
  induction u as [|x u IH]; [discriminate|].
  cbn [str_last str_but_last]. destruct u as [|y u].
  - intros H. inversion H. reflexivity.
  - intros H. cbn [append]. now rewrite <- (IH H).
Qed.

Section ApiFacts.

Variable Json : Type.
Variable json_eqb : Json -> Json -> bool.
Variable foreign : Type.
Variable Task : Type.
Variable FullAnnotations : Type.

Context {project_model : Api.PydanticModel Json foreign FullProject}.
Context {full_task_model : Api.PydanticModel Json foreign FullTask}.
Context {metadata_model : Api.PydanticModel Json foreign FullTaskMetadata}.
Context {task_model : Api.PydanticModel Json foreign Task}.
Context {annotations_model : Api.PydanticModel Json foreign FullAnnotations}.

Variable API_URL : string.
Variable respond : list string -> string -> outcome (api_exn foreign) Json.

Variable other : Type.
Variable last_is_slash : other -> outcome (api_exn foreign) bool.
Variable but_last : other -> outcome (api_exn foreign) (PyValue other).
Variable formatted : other -> outcome (api_exn foreign) string.

Local Abbreviation load_annotations :=
  (Api.load_annotations Json json_eqb foreign FullAnnotations respond
                        other last_is_slash but_last formatted).
Local Abbreviation py_format := (Api.py_format foreign other formatted).
Local Abbreviation stripped_job_url :=
  (Api.stripped_job_url foreign other last_is_slash but_last).
Local Abbreviation _load_project :=
  (Api._load_project Json json_eqb foreign API_URL respond).
Local Abbreviation _load_task :=
  (Api._load_task Json json_eqb foreign API_URL respond).
Local Abbreviation _load_task_metadata :=
  (Api._load_task_metadata Json json_eqb foreign API_URL respond).
Local Abbreviation load_project_data :=
  (Api.load_project_data Json json_eqb foreign Task API_URL respond).
Local Abbreviation load_task_data_api :=
  (Api.load_task_data Json json_eqb foreign API_URL respond).
Local Abbreviation project_url := (Api.project_url API_URL).
Local Abbreviation task_url := (Api.task_url API_URL).
Local Abbreviation task_meta_url := (Api.task_meta_url API_URL).

(** What follows the computation of the URL in [load_annotations] makes one
    request. *)
Lemma load_annotations_object (job : Job) (s : ApiState) (c : ascii) :
  str_last (url job) = Some c ->
  let job_url := if Ascii.eqb c "/" then str_but_last (url job) else url job in
  requests (snd (load_annotations (JobObject job) s))
  = requests s ++ [(job_url ++ "/annotations")%string]
  /\ (List.length (warnings (snd (load_annotations (JobObject job) s)))
      <= S (List.length (warnings s)))%nat.
Proof.
  intros Hc job_url.
  unfold Api.load_annotations, Api.stripped_job_url, bind, ret, throw,
    of_outcome, warn, Api.get.
  rewrite Hc. cbn [Api.py_format]. fold job_url.
  destruct (respond (requests s) _) as [d|e]; cbn; [|split; [reflexivity|lia]].
  destruct (Api.construct Json foreign d) as [a|e]; cbn;
    [|split; [reflexivity|lia]].
  destruct (negb _); cbn; split; try reflexivity; try lia.
  rewrite length_app. cbn. lia.
Qed.

Lemma load_annotations_dict (d : PyDict other) (job : Job) (s : ApiState) :
  dict_get "url" d = Some (StrValue (url job)) ->
  load_annotations (JobDict d) s = load_annotations (JobObject job) s.
Proof.
  intros H. unfold Api.load_annotations, Api.stripped_job_url, bind, ret.
  now rewrite H.
Qed.

(** X15. [load_annotations] strips one trailing slash of the job url before
    it appends [/annotations]: the url with and without a final slash give
    the same call, which requests [url/annotations]; a second final slash
    stays in the requested URL. The dictionary form of a job gives the same
    call as the job. *)
Theorem X15_annotations_url_trailing_slash (job : Job) (s : ApiState) :
  url job <> "" ->
  str_last (url job) <> Some "/"%char ->
  let with_url u :=
    mkJob (id job) (status job) u (start_frame job) (stop_frame job) in
  requests (snd (load_annotations (JobObject job) s))
  = requests s ++ [(url job ++ "/annotations")%string]
  /\ load_annotations (JobObject (with_url (url job ++ "/")%string)) s
     = load_annotations (JobObject job) s
  /\ requests (snd (load_annotations
                      (JobObject (with_url (url job ++ "//")%string)) s))
     = requests s ++ [(url job ++ "//annotations")%string]
  /\ load_annotations (JobDict (job_dict job)) s
     = load_annotations (JobObject job) s.
Proof.
  intros Hne Hslash with_url.
  destruct (str_last (url job)) as [c|] eqn:Hc;
    [|apply str_last_none in Hc; contradiction].
  assert (Ec : Ascii.eqb c "/" = false).
  { apply Ascii.eqb_neq. intros ->. now apply Hslash. }
  split; [|split; [|split]].
  - destruct (load_annotations_object job s c Hc) as [H _].
    rewrite Ec in H. exact H.
  - unfold Api.load_annotations, Api.stripped_job_url, bind, ret.
    cbn [url with_url].
    rewrite (str_last_snoc (url job) "/"), Ascii.eqb_refl,
      (str_but_last_snoc (url job) "/"), Hc, Ec.
    reflexivity.
  - destruct (load_annotations_object (with_url (url job ++ "//")%string) s "/")
      as [H _].
    + cbn [url with_url].
      replace (url job ++ "//")%string
        with ((url job ++ "/") ++ String "/" "")%string
        by (rewrite append_assoc; reflexivity).
      apply str_last_snoc.
    + rewrite H. cbn [url with_url]. rewrite Ascii.eqb_refl.
      replace (url job ++ "//")%string
        with ((url job ++ "/") ++ String "/" "")%string
        by (rewrite append_assoc; reflexivity).
      rewrite str_but_last_snoc, append_assoc. reflexivity.
  - now apply load_annotations_dict.
Qed.

(** Computing the URL makes no request and emits no warning. *)
Lemma stripped_job_url_pure (job : JobArg other) (s : ApiState) :
  snd (stripped_job_url job s) = s.
Proof.
  unfold Api.stripped_job_url, bind, ret, throw, of_outcome.
  destruct job as [j|d]; cbn.
  - now destruct (str_last (url j)).
  - destruct (dict_get "url" d) as [[z|u|v]|]; cbn; try reflexivity.
    + now destruct (str_last u).
    + destruct (last_is_slash v) as [[|]|e]; reflexivity.
Qed.

(** What follows the computation of the URL in [load_annotations]: one
    request, or none if the URL cannot be computed or formatted. *)
Lemma load_annotations_url (job : JobArg other) (s : ApiState) :
  match fst (stripped_job_url job s) with
  | Return v =>
      match py_format v with
      | Return u =>
          requests (snd (load_annotations job s))
          = requests s ++ [(u ++ "/annotations")%string]
      | Throw e => load_annotations job s = (Throw e, s)
      end
  | Throw e => load_annotations job s = (Throw e, s)
  end
  /\ (List.length (warnings (snd (load_annotations job s)))
      <= S (List.length (warnings s)))%nat.
Proof.
  pose proof (stripped_job_url_pure job s) as Hs.
  destruct (stripped_job_url job s) as [[v|e] s'] eqn:Es; cbn in Hs; subst s';
    cbn [fst]; unfold Api.load_annotations, bind; rewrite Es;
    [|split; [reflexivity | cbn; lia]].
  unfold ret, throw, of_outcome, warn, Api.get.
  destruct (py_format v) as [u|e]; cbn; [|split; [reflexivity|lia]].
  destruct (respond (requests s) _) as [d|e]; cbn; [|split; [reflexivity|lia]].
  destruct (Api.construct Json foreign d) as [a|e]; cbn;
    [|split; [reflexivity|lia]].
  destruct (negb _); cbn; split; try reflexivity; try lia.
  rewrite length_app. cbn. lia.
Qed.

(** X16. [load_annotations] makes at most one request, to a URL that ends in
    [/annotations], and emits at most one warning. When it makes no request
    it raises and leaves the session as it was: an [AssertionError] for a
    dictionary without the key [url], an [IndexError] for an empty string as
    url, a [TypeError] for an integer as url. A url of another type is not
    refused as such: it is indexed, sliced and formatted like a string, and
    if its last element is not a slash and it can be formatted, the request
    goes to its text followed by [/annotations]. *)
Theorem X16_annotations_requests_once (job : JobArg other) (s : ApiState) :
  (forall d, job = JobDict d -> dict_get "url" d = None ->
             load_annotations job s = (Throw (Loader (AssertionError "")), s))
  /\ (forall j, job = JobObject j -> url j = "" ->
                load_annotations job s
                = (Throw (IndexError "string index out of range"), s))
  /\ (forall d z, job = JobDict d -> dict_get "url" d = Some (IntValue z) ->
                  load_annotations job s
                  = (Throw (TypeError "'int' object is not subscriptable"), s))
  /\ (forall d v u,
         job = JobDict d -> dict_get "url" d = Some (OtherValue v) ->
         last_is_slash v = Return false -> formatted v = Return u ->
         requests (snd (load_annotations job s))
         = requests s ++ [(u ++ "/annotations")%string])
  /\ ((exists u, requests (snd (load_annotations job s))
                 = requests s ++ [(u ++ "/annotations")%string])
      \/ exists e, load_annotations job s = (Throw e, s))
  /\ (List.length (warnings (snd (load_annotations job s)))
      <= S (List.length (warnings s)))%nat.
Proof.
  destruct (load_annotations_url job s) as [H Hw].
  split; [|split; [|split; [|split; [|split; [|exact Hw]]]]].
  - intros d -> Hd. revert H.
    unfold Api.stripped_job_url, bind, throw. now rewrite Hd.
  - intros j -> Hu. revert H.
    unfold Api.stripped_job_url, bind, ret, throw. now rewrite Hu.
  - intros d z -> Hd. revert H.
    unfold Api.stripped_job_url, bind, ret, throw. now rewrite Hd.
  - intros d v u -> Hd Hl Hf. revert H.
    unfold Api.stripped_job_url, bind, ret, of_outcome. rewrite Hd, Hl.
    cbn. now rewrite Hf.
  - destruct (fst (stripped_job_url job s)) as [v|e];
      [|right; now exists e].
    destruct (py_format v) as [u|e]; [left; now exists u | right; now exists e].
Qed.

(** Each of the three fetch functions makes exactly one request. *)
Lemma _load_project_requests (project_id : Z) (s : ApiState) :
  requests (snd (_load_project project_id s))
  = requests s ++ [project_url project_id].
Proof.
  unfold Api._load_project, bind, ret, of_outcome, warn, Api.get.
  destruct (respond (requests s) _) as [d|e]; cbn; [|reflexivity].
  destruct (Api.construct Json foreign d) as [a|e]; cbn; [|reflexivity].
  destruct (negb _); reflexivity.
Qed.

Lemma _load_task_requests (task_id : Z) (s : ApiState) :
  requests (snd (_load_task task_id s)) = requests s ++ [task_url task_id].
Proof.
  unfold Api._load_task, bind, ret, of_outcome, warn, Api.get.
  destruct (respond (requests s) _) as [d|e]; cbn; [|reflexivity].
  destruct (Api.construct Json foreign d) as [a|e]; cbn; [|reflexivity].
  destruct (negb _); reflexivity.
Qed.

Lemma _load_task_metadata_requests (task_id : Z) (s : ApiState) :
  requests (snd (_load_task_metadata task_id s))
  = requests s ++ [task_meta_url task_id].
Proof.
  unfold Api._load_task_metadata, bind, ret, of_outcome, warn, Api.get.
  destruct (respond (requests s) _) as [d|e]; cbn; [|reflexivity].
  destruct (Api.construct Json foreign d) as [a|e]; cbn; [|reflexivity].
  destruct (negb _); reflexivity.
Qed.

(** A comprehension over a function that makes one request per element: the
    requests are those of the elements in order, up to the first that
    raises. *)
Lemma for_list_requests {B} (f : Z -> Api (api_exn foreign) B)
    (u : Z -> string) :
  (forall x s, requests (snd (f x s)) = requests s ++ [u x]) ->
  forall xs s,
    match for_list xs f s with
    | (Return ys, s') =>
        List.length ys = List.length xs
        /\ requests s' = requests s ++ map u xs
    | (Throw e, s') =>
        exists k, (k < List.length xs)%nat
          /\ requests s' = requests s ++ map u (firstn (S k) xs)
    end.
Proof.
  intros Hf xs. induction xs as [|x xs IH]; intros s.
  - cbn. split; [reflexivity | now rewrite app_nil_r].
  - cbn [for_list]. unfold bind at 1. specialize (Hf x s).
    destruct (f x s) as [[y|e] s1]; cbn [snd] in Hf.
    + unfold bind at 1. specialize (IH s1).
      destruct (for_list xs f s1) as [[ys|e] s2].
      * destruct IH as [Hl Hr]. cbn. split; [now rewrite Hl|].
        rewrite Hr, Hf, <- app_assoc. reflexivity.
      * destruct IH as [k [Hk Hr]]. exists (S k). split; [cbn; lia|].
        rewrite Hr, Hf, <- app_assoc. reflexivity.
    + exists 0%nat. split; [cbn; lia|]. cbn. exact Hf.
Qed.

(** X17. [load_project_data] requests the project and then its tasks one by
    one, in the order of the project's task ids. If the project cannot be
    loaded no task is requested. Otherwise a call that returns has requested
    every task and returns one task per id; a call that raises has stopped at
    the first task that could not be loaded, and has requested no later
    one. *)
Theorem X17_project_tasks_requested_in_order (project_id : Z)
    (s : ApiState) :
  match _load_project project_id s with
  | (Throw e, s1) =>
      load_project_data project_id s = (Throw e, s1)
      /\ requests s1 = requests s ++ [project_url project_id]
  | (Return project, _) =>
      match load_project_data project_id s with
      | (Return (p, tasks), s') =>
          p = project
          /\ List.length tasks = List.length (fp_tasks project)
          /\ requests s'
             = requests s
               ++ project_url project_id :: map task_url (fp_tasks project)
      | (Throw e, s') =>
          exists k, (k < List.length (fp_tasks project))%nat
            /\ requests s'
               = requests s
                 ++ project_url project_id
                    :: map task_url (firstn (S k) (fp_tasks project))
      end
  end.
Proof.
  pose proof (_load_project_requests project_id s) as Hp.
  destruct (_load_project project_id s) as [[project|e] s1] eqn:Ep;
    cbn [snd] in Hp.
  2:{ split; [|exact Hp].
      unfold Api.load_project_data. unfold bind at 1. now rewrite Ep. }
  unfold Api.load_project_data. unfold bind at 1. rewrite Ep.
  unfold bind at 1.
  pose proof (for_list_requests (B := Task)
                (fun task_id =>
                   bind (_load_task task_id)
                        (fun task =>
                           of_outcome
                             (Api.construct Json foreign
                                (Api.dict Json foreign task))))
                task_url) as F.
  specialize (F (fun x s0 =>
                   ltac:(unfold bind, of_outcome;
                         pose proof (_load_task_requests x s0) as H;
                         destruct (_load_task x s0) as [[t|e] s2];
                         exact H))
                (fp_tasks project) s1).
  destruct (for_list (fp_tasks project) _ s1) as [[tasks|e] s2];
    cbv beta iota in F.
  - destruct F as [Hl Hr]. cbn. split; [reflexivity|]. split; [exact Hl|].
    rewrite Hr, Hp, <- app_assoc. reflexivity.
  - destruct F as [k [Hk Hr]]. exists k. split; [exact Hk|].
    rewrite Hr, Hp, <- app_assoc. reflexivity.
Qed.

(** X18. What [load_task_data] returns, with its requests: it has requested
    the task and then the task metadata and nothing else, the task has one
    job per segment, the jobs are those of its segments, every frame id a
    job covers is a key of the index, and every entry of the index carries
    the id and the status of a job that covers its key. *)
Theorem X18_loaded_task_is_consistent (task_id : Z) (s s' : ApiState)
    (task : FullTask) (jobs : list Job) (frames : FrameIndex) :
  load_task_data_api task_id s = (Return (task, jobs, frames), s') ->
  requests s' = requests s ++ [task_url task_id; task_meta_url task_id]
  /\ one_job_per_segment task
  /\ jobs = derive_jobs task
  /\ (forall j k, In j jobs -> start_frame j <= k <= stop_frame j ->
                  In k (Dict.keys frames))
  /\ (forall k v, In (k, v) frames ->
        task_id = Models.task_id v
        /\ exists j, In j jobs /\ start_frame j <= k <= stop_frame j
                     /\ job_id v = Some (id j)
                     /\ frame_status v = Some (status j)).
Proof.
  intros H. unfold Api.load_task_data in H. unfold bind at 1 in H.
  pose proof (_load_task_requests task_id s) as R1.
  destruct (_load_task task_id s) as [[t|e] s1]; [|discriminate].
  cbn [snd] in R1. unfold bind at 1 in H.
  pose proof (_load_task_metadata_requests task_id s1) as R2.
  destruct (_load_task_metadata task_id s1) as [[meta|e] s2]; [|discriminate].
  cbn [snd] in R2.
  destruct (load_task_data task_id t meta) as [[[t' js] fr]|e] eqn:L;
    [|discriminate].
  unfold ret in H. inversion H; subst t' js fr s2. clear H.
  destruct (load_ok_inv task_id t meta task jobs frames L)
    as [-> [Ej [Ef [H1 [H3 _]]]]].
  split; [|split; [|split; [|split]]].
  - rewrite R2, R1, <- app_assoc. reflexivity.
  - now apply single_jobs_iff.
  - exact Ej.
  - intros j k Hj Hk. rewrite Ef, keys_map_stamp_all. subst jobs.
    apply (proj1 (job_fits_all_iff task_id t meta) H3 j k Hj).
    now apply covers_iff.
  - intros k v Hin. split.
    + rewrite Ef in Hin. apply in_map_iff in Hin.
      destruct Hin as [kv [E Hin0]].
      destruct (stamp_all_keeps_descriptor (derive_jobs t) kv)
        as [_ [_ [_ [_ [_ [Ht _]]]]]].
      rewrite E in Ht. cbn [snd] in Ht. rewrite Ht.
      rewrite build_frames_items in Hin0. apply in_map_iff in Hin0.
      destruct Hin0 as [p [<- _]]. reflexivity.
    + destruct (load_ok_entry task_id t meta t jobs frames k v L Hin)
        as [l1 [j [l2 [Ejs [Hc [_ [Hid Hst]]]]]]].
      exists j. split; [rewrite Ejs; apply in_or_app; right; now left|].
      split; [now apply covers_iff|]. split; assumption.
Qed.

End ApiFacts.

Lemma X15_annotations_url_trailing_slash_witness :
  requests (snd (Api.load_annotations ApiExamples.Json ApiExamples.json_eqb
                   ApiExamples.foreign (list Z)
                   (annotations_model := ApiExamples.annotations_model)
                   ApiExamples.respond ApiExamples.other
                   ApiExamples.last_is_slash ApiExamples.but_last
                   ApiExamples.formatted (JobObject ApiExamples.job12)
                   ApiExamples.start))
  = ["http://cvat/api/jobs/12/annotations"]
  /\ Api.load_annotations ApiExamples.Json ApiExamples.json_eqb
       ApiExamples.foreign (list Z)
       (annotations_model := ApiExamples.annotations_model)
       ApiExamples.respond ApiExamples.other ApiExamples.last_is_slash
       ApiExamples.but_last ApiExamples.formatted
       (JobObject (mkJob 12 "annotation" "http://cvat/api/jobs/12/" 5 9))
       ApiExamples.start
     = Api.load_annotations ApiExamples.Json ApiExamples.json_eqb
         ApiExamples.foreign (list Z)
         (annotations_model := ApiExamples.annotations_model)
         ApiExamples.respond ApiExamples.other ApiExamples.last_is_slash
         ApiExamples.but_last ApiExamples.formatted
         (JobObject ApiExamples.job12) ApiExamples.start.
Proof.
  assert (H1 : url ApiExamples.job12 <> "") by discriminate.
  assert (H2 : str_last (url ApiExamples.job12) <> Some "/"%char)
    by (vm_compute; discriminate).
  pose proof (X15_annotations_url_trailing_slash
                ApiExamples.Json ApiExamples.json_eqb ApiExamples.foreign
                (list Z) (annotations_model := ApiExamples.annotations_model)
                ApiExamples.respond ApiExamples.other
                ApiExamples.last_is_slash ApiExamples.but_last
                ApiExamples.formatted ApiExamples.job12 ApiExamples.start
                H1 H2) as H.
  cbv zeta in H. destruct H as [Ha [Hb _]].
  split; [exact Ha | exact Hb].
Defined.

Lemma X16_annotations_requests_once_witness :
  Api.load_annotations ApiExamples.Json ApiExamples.json_eqb
    ApiExamples.foreign (list Z)
    (annotations_model := ApiExamples.annotations_model)
    ApiExamples.respond ApiExamples.other ApiExamples.last_is_slash
    ApiExamples.but_last ApiExamples.formatted
    (JobDict [("id", IntValue 12)]) ApiExamples.start
  = (Throw (Loader (AssertionError "")), ApiExamples.start)
  /\ Api.load_annotations ApiExamples.Json ApiExamples.json_eqb
       ApiExamples.foreign (list Z)
       (annotations_model := ApiExamples.annotations_model)
       ApiExamples.respond ApiExamples.other ApiExamples.last_is_slash
       ApiExamples.but_last ApiExamples.formatted
       (JobObject (mkJob 12 "annotation" "" 5 9)) ApiExamples.start
     = (Throw (IndexError "string index out of range"), ApiExamples.start)
  /\ Api.load_annotations ApiExamples.Json ApiExamples.json_eqb
       ApiExamples.foreign (list Z)
       (annotations_model := ApiExamples.annotations_model)
       ApiExamples.respond ApiExamples.other ApiExamples.last_is_slash
       ApiExamples.but_last ApiExamples.formatted
       (JobDict [("url", IntValue 12)]) ApiExamples.start
     = (Throw (TypeError "'int' object is not subscriptable"),
        ApiExamples.start)
  /\ requests
       (snd (Api.load_annotations ApiExamples.Json ApiExamples.json_eqb
               ApiExamples.foreign (list Z)
               (annotations_model := ApiExamples.annotations_model)
               ApiExamples.respond ApiExamples.other ApiExamples.last_is_slash
               ApiExamples.but_last ApiExamples.formatted
               (JobDict [("url", OtherValue (ApiExamples.PyList [5; 6]))])
               ApiExamples.start))
     = ["[5, 6]/annotations"].
Proof.
  pose (X16 := X16_annotations_requests_once
                 ApiExamples.Json ApiExamples.json_eqb ApiExamples.foreign
                 (list Z) (annotations_model := ApiExamples.annotations_model)
                 ApiExamples.respond ApiExamples.other
                 ApiExamples.last_is_slash ApiExamples.but_last
                 ApiExamples.formatted).
  split; [|split; [|split]].
  - apply (proj1 (X16 (JobDict [("id", IntValue 12)]) ApiExamples.start)
             [("id", IntValue 12)]);
      reflexivity.
  - apply (proj1 (proj2 (X16 (JobObject (mkJob 12 "annotation" "" 5 9))
                             ApiExamples.start))
             (mkJob 12 "annotation" "" 5 9));
      reflexivity.
  - apply (proj1 (proj2 (proj2 (X16 (JobDict [("url", IntValue 12)])
                                    ApiExamples.start)))
             [("url", IntValue 12)] 12);
      reflexivity.
  - apply (proj1 (proj2 (proj2 (proj2
             (X16 (JobDict [("url", OtherValue (ApiExamples.PyList [5; 6]))])
                  ApiExamples.start))))
             [("url", OtherValue (ApiExamples.PyList [5; 6]))]
             (ApiExamples.PyList [5; 6]) "[5, 6]");
      reflexivity.
Defined.

Lemma X17_project_tasks_requested_in_order_witness :
  (exists k, (k < 3)%nat
     /\ requests (snd (Api.load_project_data ApiExamples.Json
                         ApiExamples.json_eqb ApiExamples.foreign string
                         (project_model := ApiExamples.project_model)
                         (full_task_model := ApiExamples.full_task_model)
                         (task_model := ApiExamples.task_model)
                         ApiExamples.API_URL ApiExamples.respond 1
                         ApiExamples.start))
        = "http://cvat/api/projects/1"
          :: map (Api.task_url ApiExamples.API_URL) (firstn (S k) [5; 6; 8]))
  /\ Api.load_project_data ApiExamples.Json ApiExamples.json_eqb
       ApiExamples.foreign string
       (project_model := ApiExamples.project_model)
       (full_task_model := ApiExamples.full_task_model)
       (task_model := ApiExamples.task_model)
       ApiExamples.API_URL ApiExamples.respond 3 ApiExamples.start
     = (Throw (Foreign "404 Not Found"),
        mkApiState ["http://cvat/api/projects/3"] []).
Proof.
  split.
  - exact (X17_project_tasks_requested_in_order
             ApiExamples.Json ApiExamples.json_eqb ApiExamples.foreign string
             (project_model := ApiExamples.project_model)
             (full_task_model := ApiExamples.full_task_model)
             (task_model := ApiExamples.task_model)
             ApiExamples.API_URL ApiExamples.respond 1 ApiExamples.start).
  - exact (proj1 (X17_project_tasks_requested_in_order
             ApiExamples.Json ApiExamples.json_eqb ApiExamples.foreign string
             (project_model := ApiExamples.project_model)
             (full_task_model := ApiExamples.full_task_model)
             (task_model := ApiExamples.task_model)
             ApiExamples.API_URL ApiExamples.respond 3 ApiExamples.start)).
Defined.

Lemma X18_loaded_task_is_consistent_witness :
  exists task jobs frames s',
    Api.load_task_data ApiExamples.Json ApiExamples.json_eqb
      ApiExamples.foreign
      (full_task_model := ApiExamples.full_task_model)
      (metadata_model := ApiExamples.metadata_model)
      ApiExamples.API_URL ApiExamples.respond 5 ApiExamples.start
    = (Return (task, jobs, frames), s')
    /\ requests s'
       = requests ApiExamples.start
         ++ [Api.task_url ApiExamples.API_URL 5;
             Api.task_meta_url ApiExamples.API_URL 5]
    /\ one_job_per_segment task
    /\ jobs = derive_jobs task.
Proof.
  destruct (Api.load_task_data ApiExamples.Json ApiExamples.json_eqb
              ApiExamples.foreign
              (full_task_model := ApiExamples.full_task_model)
              (metadata_model := ApiExamples.metadata_model)
              ApiExamples.API_URL ApiExamples.respond 5 ApiExamples.start)
    as [[[[task jobs] frames]|e] s'] eqn:E;
    [|vm_compute in E; discriminate].
  exists task, jobs, frames, s'. split; [reflexivity|].
  destruct (X18_loaded_task_is_consistent
              ApiExamples.Json ApiExamples.json_eqb ApiExamples.foreign
              (full_task_model := ApiExamples.full_task_model)
              (metadata_model := ApiExamples.metadata_model)
              ApiExamples.API_URL ApiExamples.respond 5 ApiExamples.start
              s' task jobs frames E) as [H1 [H2 [H3 _]]].
  split; [exact H1|]. split; [exact H2 | exact H3].
Defined.
